(** * bilibili-live-ws: the connection lifecycle of [src/index.js]

    A shallow embedding of the live-chat client: the TCP framer
    ([LiveTCP.splitBuffer]), the protocol session ([Live] and its two
    adapters [LiveWS] and [LiveTCP]) and the reconnecting wrapper
    ([KeepLiveWS] / [KeepLiveTCP]), together with the properties that the
    design document states about them.

    Objects are records stored in a heap indexed by object identity, timers
    and promises live in finite maps, and every call that crosses the
    boundary of the program (an event delivered to outside listeners, a
    write on the transport, a timer) is appended to a log. *)

From Stdlib Require Import ZArith Strings.Byte SpecFloat.
From stdpp Require Import gmap strings list.

Set Warnings "-register-all".

(** ** Node's [Buffer] *)

Module Buffer.

Definition byte_value (b : byte) : Z := Z.of_N (Byte.to_N b).

(** [buf.readUInt32BE(offset)], as Node computes it:
    [first * 2 ** 24 + b1 * 2 ** 16 + b2 * 2 ** 8 + last]. [None] stands
    for the [RangeError] raised when four bytes are not there. *)
Definition readUInt32BE (buf : list byte) (offset : nat) : option Z :=
  match drop offset buf with
  | first :: b1 :: b2 :: last :: _ =>
      Some (byte_value first * 2 ^ 24 + byte_value b1 * 2 ^ 16
            + byte_value b2 * 2 ^ 8 + byte_value last)%Z
  | _ => None
  end.

(** [ToInt32]: the 32-bit pattern of an integer read in two's
    complement. *)
Definition toInt32 (x : Z) : Z :=
  let m := (x mod 2 ^ 32)%Z in
  if (m <? 2 ^ 31)%Z then m else (m - 2 ^ 32)%Z.

(** [buf.readInt32BE(offset)], as Node computes it:
    [(first << 24) + b1 * 2 ** 16 + b2 * 2 ** 8 + last], the shift being
    a 32-bit one. *)
Definition readInt32BE (buf : list byte) (offset : nat) : option Z :=
  match drop offset buf with
  | first :: b1 :: b2 :: last :: _ =>
      Some (toInt32 (Z.shiftl (byte_value first) 24) + byte_value b1 * 2 ^ 16
            + byte_value b2 * 2 ^ 8 + byte_value last)%Z
  | _ => None
  end.

(** Node's [adjustOffset]: a negative index counts from the end, and
    every index is clamped to the buffer. *)
Definition adjustOffset (offset len : Z) : Z :=
  if (offset <? 0)%Z then Z.max (offset + len) 0 else Z.min offset len.

(** [buf.slice(start, end)]; [end_ = None] is the one-argument call. *)
Definition slice (buf : list byte) (start : Z) (end_ : option Z) : list byte :=
  let len := Z.of_nat (length buf) in
  let s := adjustOffset start len in
  let e := match end_ with Some e => adjustOffset e len | None => len end in
  take (Z.to_nat (e - s)) (drop (Z.to_nat s) buf).

(** [Buffer.concat([a, b])]. *)
Definition concat2 (a b : list byte) : list byte := a ++ b.

End Buffer.

(** ** The TCP framer: [LiveTCP.splitBuffer] *)

Module Framer.
Import Buffer.

(** The guard of the [while] loop, with the short-circuit of [&&]. *)
Definition loop_test (buffer : list byte) : bool :=
  if (4 <=? Z.of_nat (length buffer))%Z
  then match readInt32BE buffer 0 with
       | Some n => (n <=? Z.of_nat (length buffer))%Z
       | None => false
       end
  else false.

(** The length that the loop body reads; [0] only where [readInt32BE]
    would raise, which the guard excludes. *)
Definition declared (buffer : list byte) : Z :=
  default 0%Z (readInt32BE buffer 0).

(** One pass through the loop: [None] when the guard fails, otherwise
    the frame handed to [emit('message', pack)] and the new
    [this.buffer]. *)
Definition splitStep (buffer : list byte) : option (list byte * list byte) :=
  if loop_test buffer
  then let size := declared buffer in
       Some (slice buffer 0 (Some size), slice buffer size None)
  else None.

(** The whole loop, cut off after [fuel] passes: [None] means that the
    loop is still running. The result is the list of emitted frames and
    the buffer that is left. *)
Fixpoint splitBuffer (fuel : nat) (buffer : list byte)
  : option (list (list byte) * list byte) :=
  match splitStep buffer with
  | None => Some ([], buffer)
  | Some (pack, buffer') =>
      match fuel with
      | O => None
      | S fuel' =>
          match splitBuffer fuel' buffer' with
          | Some (packs, rest) => Some (pack :: packs, rest)
          | None => None
          end
      end
  end.

(** The buffer at the start of pass number [n] (counted from 0), when
    the loop gets that far, with the frames emitted until then. *)
Fixpoint passes (n : nat) (buffer : list byte)
  : option (list (list byte) * list byte) :=
  match n with
  | O => Some ([], buffer)
  | S n' =>
      match splitStep buffer with
      | Some (pack, buffer') =>
          match passes n' buffer' with
          | Some (packs, b) => Some (pack :: packs, b)
          | None => None
          end
      | None => None
      end
  end.

(** The ['data'] handler of the socket: append the chunk, then split. *)
Definition onData (fuel : nat) (buffer chunk : list byte)
  : option (list (list byte) * list byte) :=
  splitBuffer fuel (concat2 buffer chunk).

(** A sequence of ['data'] events, each run to completion. *)
Fixpoint feed (fuel : nat) (buffer : list byte) (chunks : list (list byte))
  : option (list (list byte) * list byte) :=
  match chunks with
  | [] => Some ([], buffer)
  | chunk :: chunks' =>
      match onData fuel buffer chunk with
      | Some (packs, buffer') =>
          match feed fuel buffer' chunks' with
          | Some (packs', rest) => Some (packs ++ packs', rest)
          | None => None
          end
      | None => None
      end
  end.

(** Every length that the loop reads while it runs on [buffer] is at
    least [low]. *)
Definition lengths_from (low : Z) (buffer : list byte) : Prop :=
  ∀ n packs b,
    passes n buffer = Some (packs, b) → loop_test b = true →
    (low ≤ declared b)%Z.

(** The framer as the design document words it: the four bytes read as
    an unsigned length. *)
Definition splitStep_unsigned (buffer : list byte)
  : option (list byte * list byte) :=
  match readUInt32BE buffer 0 with
  | Some n =>
      if (n <=? Z.of_nat (length buffer))%Z
      then Some (take (Z.to_nat n) buffer, drop (Z.to_nat n) buffer)
      else None
  | None => None
  end.

End Framer.

(** ** JavaScript values *)

(** The values that reach the program from its caller and from decoded
    JSON payloads. A number is an IEEE 754 double. *)
Inductive value :=
  | VUndefined
  | VNull
  | VBool (b : bool)
  | VNumber (x : spec_float)
  | VString (s : string)
  | VArray (items : list value)
  | VObject (fields : list (string * value)).

Definition typeof (v : value) : string :=
  match v with
  | VUndefined => "undefined"
  | VBool _ => "boolean"
  | VNumber _ => "number"
  | VString _ => "string"
  | VNull | VArray _ | VObject _ => "object"
  end.

Definition Number_isNaN (v : value) : bool :=
  match v with
  | VNumber S754_nan => true
  | _ => false
  end.

(** The double nearest to an integer; exact up to 2^53. *)
Definition number_of_Z (n : Z) : spec_float :=
  match n with
  | Z0 => S754_zero false
  | Zpos p => SpecFloat.binary_normalize 53 1024 (Zpos p) 0 false
  | Zneg p => SpecFloat.binary_normalize 53 1024 (Zneg p) 0 true
  end.

(** [ToBoolean]. *)
Definition truthy (v : value) : bool :=
  match v with
  | VUndefined | VNull => false
  | VBool b => b
  | VNumber (S754_zero _) | VNumber S754_nan => false
  | VNumber _ => true
  | VString s => negb (String.eqb s "")
  | VArray _ | VObject _ => true
  end.

Fixpoint assoc (k : string) (fields : list (string * value)) : option value :=
  match fields with
  | [] => None
  | (k', v) :: rest => if String.eqb k k' then Some v else assoc k rest
  end.

Inductive exn :=
  | RoomidError (roomid : value)   (* roomid ... must be Number not NaN *)
  | TypeError
  | DecodeError.                   (* the promise of [decoder] rejected *)

(** [v.k] for a key [k] that no built-in prototype defines ([cmd] and
    [msg] here): the own property of an object, [undefined] on every other
    value, and a [TypeError] on [null] and [undefined]. *)
Definition getProp (v : value) (k : string) : exn + value :=
  match v with
  | VUndefined | VNull => inl TypeError
  | VObject fields => inr (default VUndefined (assoc k fields))
  | _ => inr VUndefined
  end.

(** [s.includes(sub)] on strings. *)
Fixpoint String_includes (s sub : string) : bool :=
  String.prefix sub s ||
  match s with
  | EmptyString => false
  | String _ s' => String_includes s' sub
  end.

(** [cmd.includes('DANMU_MSG')] on a truthy [cmd]: substring search on a
    string, membership on an array, and a [TypeError] where [includes] is
    not a function. *)
Definition includes_DANMU_MSG (cmd : value) : exn + bool :=
  match cmd with
  | VString s => inr (String_includes s "DANMU_MSG")
  | VArray items =>
      inr (existsb (fun v => match v with
                             | VString s => String.eqb s "DANMU_MSG"
                             | _ => false
                             end) items)
  | _ => inl TypeError
  end.

(** Whether a value used as an event name selects the listeners stored
    under the name [k]. [k] ranges over the names the program listens on
    (letters and an underscore only), so besides the string itself only a
    one-element array around it converts to [k]. *)
Fixpoint names (v : value) (k : string) : bool :=
  match v with
  | VString s => String.eqb s k
  | VArray [x] => names x k
  | _ => false
  end.

(** [Number.isInteger(v) && v > 0]. *)
Definition positive_integer (v : value) : bool :=
  match v with
  | VNumber (S754_finite false m e) =>
      (0 <=? e)%Z || (Z.pos m mod 2 ^ (- e) =? 0)%Z
  | _ => false
  end.

(** ** The codec interface and the objects of the program *)

(** The operations handed to [encoder]. The body of a join carries the
    room id next to constants. *)
Inductive operation :=
  | OpHeartbeat
  | OpJoin (roomid : value).

(** A decoded packet, [{ type, data }]. *)
Record pack := { type : string; data : value }.

(** What travels with an event. *)
Inductive arg :=
  | AValue (v : value)
  | ABuffer (b : list byte)
  | AError (cause : string).

Definition first_arg (args : list arg) : arg :=
  match args with
  | [] => AValue VUndefined
  | a :: _ => a
  end.

(** The listeners that the program itself registers, by the code that
    registers them. *)
Inductive listener :=
  | LiveMessage            (* this.on('message', async buffer => ...) *)
  | LiveOpen               (* this.on('open', ...) *)
  | LiveClose              (* this.on('close', ...) *)
  | Live_error             (* this.on('_error', ...) *)
  | OnceResolve (p : nat)  (* this.once('heartbeat', resolve), by getOnline *)
  | KeepRelay              (* connection.on(relayEvent, ...) *)
  | KeepError              (* connection.on('error', ...) *)
  | KeepReconnect          (* connection.on('close', ...), the first *)
  | KeepHeartbeat          (* connection.on('heartbeat', ...) *)
  | KeepClear.             (* connection.on('close', ...), the second *)

(** The event name a listener is stored under; [None] is the private
    symbol [relayEvent], which no value equals. *)
Definition listens_on (l : listener) : option string :=
  match l with
  | LiveMessage => Some "message"
  | LiveOpen => Some "open"
  | LiveClose | KeepReconnect | KeepClear => Some "close"
  | Live_error => Some "_error"
  | OnceResolve _ | KeepHeartbeat => Some "heartbeat"
  | KeepError => Some "error"
  | KeepRelay => None
  end.

Definition selected (name : value) (l : listener) : bool :=
  match listens_on l with
  | Some k => names name k
  | None => false
  end.

Definition on_relay (l : listener) : bool :=
  match listens_on l with
  | Some _ => false
  | None => true
  end.

Definition is_once (l : listener) : bool :=
  match l with
  | OnceResolve _ => true
  | _ => false
  end.

Definition listener_eqb (a b : listener) : bool :=
  match a, b with
  | LiveMessage, LiveMessage | LiveOpen, LiveOpen | LiveClose, LiveClose
  | Live_error, Live_error | KeepRelay, KeepRelay | KeepError, KeepError
  | KeepReconnect, KeepReconnect | KeepHeartbeat, KeepHeartbeat
  | KeepClear, KeepClear => true
  | OnceResolve p, OnceResolve q => Nat.eqb p q
  | _, _ => false
  end.

(** The transport behind a session, with the fields that the subclass
    adds. *)
Inductive adapter :=
  | LiveWS (address : string)
  | LiveTCP (host : string) (port : Z) (buffer : list byte).

Module Live.
Record t := mk {
  roomid : value;
  online : value;
  live : bool;               (* [this.live]: unset until a welcome *)
  timeout : option nat;      (* [this.timeout]: the heartbeat timer *)
  listeners : list listener; (* in the order of registration *)
  adapter : adapter
}.
End Live.

(** The arguments kept in [this.params], after the defaults. *)
Inductive base :=
  | BaseWS (address : string)
  | BaseTCP (host : string) (port : Z).

Module Keep.
Record t := mk {
  roomid : value;
  base : base;
  closed : bool;
  interval : Z;
  timeout : Z;
  connection : option nat    (* unset until the first [connect()] *)
}.
End Keep.

(** What a timer runs when it fires. *)
Inductive callback :=
  | CallHeartbeat (c : nat)   (* () => this.heartbeat() *)
  | CallTimeout (c : nat)     (* () => { connection.close(); connection.emit('timeout') } *)
  | CallConnect.              (* () => this.connect() *)

Inductive emitter :=
  | Session (c : nat)
  | Supervisor.

(** The calls that leave the program. *)
Inductive action :=
  | Emit (who : emitter) (name : value) (args : list arg)
  | Send (c : nat) (bytes : list byte)   (* this.send(bytes) *)
  | Connect (c : nat) (to : base)        (* new WebSocket / net.connect *)
  | Close (c : nat).                     (* ws.close() / socket.end() *)

(** What the wrapper passes on to its own listeners through the relay
    channel when a session with the listeners [ls] emits. *)
Definition relayed (ls : list listener) (name : value) (args : list arg)
  : list action :=
  (λ _, Emit Supervisor name args) <$> filter (λ l, on_relay l = true) ls.

(** The listeners that the program registers for good, without the
    one-shot listeners of [getOnline]. *)
Definition standing (ls : list listener) : list listener :=
  filter (λ l, is_once l = false) ls.

Definition Live_listeners : list listener :=
  [LiveMessage; LiveOpen; LiveClose; Live_error].

Definition Keep_listeners : list listener :=
  [KeepRelay; KeepError; KeepReconnect; KeepHeartbeat; KeepClear].

Record world := World {
  sessions : gmap nat Live.t;          (* the [Live] objects, by identity *)
  session_count : nat;
  keep : option Keep.t;                (* the wrapper, when there is one *)
  timers : gmap nat (callback * Z);    (* pending [setTimeout] calls *)
  timer_count : nat;
  liveness : gmap nat nat;             (* [let timeout] of each [connect()] *)
  decoding : gmap nat (nat * arg);     (* handlers suspended in [await decoder(..)] *)
  decode_count : nat;
  promises : gmap nat arg;             (* settled promises of [getOnline] *)
  promise_count : nat;
  log : list action
}.

Definition empty_world : world :=
  World ∅ 0 None ∅ 0 ∅ ∅ 0 ∅ 0 [].

(** A handler that ran to its end, or one that raised; the world holds the
    effects made until then. *)
Inductive outcome :=
  | Done (w : world)
  | Thrown (e : exn) (w : world).

Definition world_of (o : outcome) : world :=
  match o with
  | Done w | Thrown _ w => w
  end.

(** *** Field updates *)

Definition set_sessions (f : gmap nat Live.t → gmap nat Live.t) (w : world) : world :=
  World (f (sessions w)) (session_count w) (keep w) (timers w) (timer_count w)
        (liveness w) (decoding w) (decode_count w) (promises w)
        (promise_count w) (log w).

Definition set_keep (k : option Keep.t) (w : world) : world :=
  World (sessions w) (session_count w) k (timers w) (timer_count w)
        (liveness w) (decoding w) (decode_count w) (promises w)
        (promise_count w) (log w).

Definition set_timers (f : gmap nat (callback * Z) → gmap nat (callback * Z))
    (w : world) : world :=
  World (sessions w) (session_count w) (keep w) (f (timers w)) (timer_count w)
        (liveness w) (decoding w) (decode_count w) (promises w)
        (promise_count w) (log w).

Definition set_liveness (f : gmap nat nat → gmap nat nat) (w : world) : world :=
  World (sessions w) (session_count w) (keep w) (timers w) (timer_count w)
        (f (liveness w)) (decoding w) (decode_count w) (promises w)
        (promise_count w) (log w).

Definition set_decoding (f : gmap nat (nat * arg) → gmap nat (nat * arg))
    (w : world) : world :=
  World (sessions w) (session_count w) (keep w) (timers w) (timer_count w)
        (liveness w) (f (decoding w)) (decode_count w) (promises w)
        (promise_count w) (log w).

Definition set_promises (f : gmap nat arg → gmap nat arg) (w : world) : world :=
  World (sessions w) (session_count w) (keep w) (timers w) (timer_count w)
        (liveness w) (decoding w) (decode_count w) (f (promises w))
        (promise_count w) (log w).

Definition record (a : action) (w : world) : world :=
  World (sessions w) (session_count w) (keep w) (timers w) (timer_count w)
        (liveness w) (decoding w) (decode_count w) (promises w)
        (promise_count w) (log w ++ [a]).

Definition update_session (c : nat) (f : Live.t → Live.t) (w : world) : world :=
  set_sessions (alter f c) w.

Definition set_online (v : value) (s : Live.t) : Live.t :=
  Live.mk (Live.roomid s) v (Live.live s) (Live.timeout s) (Live.listeners s)
          (Live.adapter s).

Definition set_live (b : bool) (s : Live.t) : Live.t :=
  Live.mk (Live.roomid s) (Live.online s) b (Live.timeout s) (Live.listeners s)
          (Live.adapter s).

Definition set_timeout (t : option nat) (s : Live.t) : Live.t :=
  Live.mk (Live.roomid s) (Live.online s) (Live.live s) t (Live.listeners s)
          (Live.adapter s).

Definition set_listeners (f : list listener → list listener) (s : Live.t) : Live.t :=
  Live.mk (Live.roomid s) (Live.online s) (Live.live s) (Live.timeout s)
          (f (Live.listeners s)) (Live.adapter s).

Definition set_buffer (b : list byte) (s : Live.t) : Live.t :=
  Live.mk (Live.roomid s) (Live.online s) (Live.live s) (Live.timeout s)
          (Live.listeners s)
          (match Live.adapter s with
           | LiveTCP host port _ => LiveTCP host port b
           | a => a
           end).

(** *** Timers and promises *)

(** [setTimeout(cb, ms)]: the handle is new. *)
Definition setTimeout (cb : callback) (ms : Z) (w : world) : nat * world :=
  let t := timer_count w in
  (t, World (sessions w) (session_count w) (keep w) (<[t := (cb, ms)]> (timers w))
            (S t) (liveness w) (decoding w) (decode_count w) (promises w)
            (promise_count w) (log w)).

(** [clearTimeout(h)]: nothing happens for [undefined] and for a handle
    that is no longer pending. *)
Definition clearTimeout (h : option nat) (w : world) : world :=
  match h with
  | Some t => set_timers (delete t) w
  | None => w
  end.

(** [resolve(a)] of the promise [p]: only the first call settles it. *)
Definition resolve (p : nat) (a : arg) (w : world) : world :=
  match promises w !! p with
  | Some _ => w
  | None => set_promises (<[p := a]>) w
  end.

(** ** The session: [Live], [LiveWS], [LiveTCP] *)

(** What [this.send] of each adapter hands to the transport. *)
Definition LiveWS_send (readyState : Z) (bytes : list byte) : option (list byte) :=
  if (readyState =? 1)%Z then Some bytes else None.

Definition LiveTCP_send (bytes : list byte) : option (list byte) := Some bytes.

Section Codec.

(** [./buffer] is not part of the sources at hand: its two functions are
    parameters. [decoder] gives the packets that the returned promise
    fulfils with, [None] when it rejects. *)
Variable encoder : operation → list byte.
Variable decoder : arg → option (list pack).

(** [this.send(bytes)] on the session [c]. *)
Definition send (c : nat) (bytes : list byte) (w : world) : world :=
  record (Send c bytes) w.

(** [close()] of either adapter. *)
Definition close (c : nat) (w : world) : world := record (Close c) w.

Definition heartbeat (c : nat) (w : world) : world :=
  send c (encoder OpHeartbeat) w.

Definition session_timeout (c : nat) (w : world) : option nat :=
  s ← sessions w !! c; Live.timeout s.

Definition session_roomid (c : nat) (w : world) : value :=
  default VUndefined (Live.roomid <$> sessions w !! c).

Definition session_listeners (c : nat) (w : world) : list listener :=
  default [] (Live.listeners <$> sessions w !! c).

Definition remove_listener (l : listener) (ls : list listener) : list listener :=
  filter (fun l' => negb (listener_eqb l l') = true) ls.

(** [await decoder(buffer)]: the call is made and the handler waits for
    the promise. *)
Definition await_decoder (c : nat) (a : arg) (w : world) : world :=
  let d := decode_count w in
  World (sessions w) (session_count w) (keep w) (timers w) (timer_count w)
        (liveness w) (<[d := (c, a)]> (decoding w)) (S d)
        (promises w) (promise_count w) (log w).

(** The body of one listener of the session [c]. [nested] is the
    [this.emit('error', ...)] of the ['_error'] handler. *)
Definition run_listener (nested : list arg → world → world)
    (c : nat) (args : list arg) (l : listener) (w : world) : world :=
  match l with
  | LiveMessage => await_decoder c (first_arg args) w
  | LiveOpen => send c (encoder (OpJoin (session_roomid c w))) w
  | LiveClose => clearTimeout (session_timeout c w) w
  | Live_error => nested args (close c w)
  | OnceResolve p => resolve p (first_arg args) w
  | KeepRelay => w
  | KeepError => record (Emit Supervisor (VString "e") [first_arg args]) w
  | KeepReconnect =>
      match keep w with
      | Some k =>
          if Keep.closed k then w
          else (setTimeout CallConnect (Keep.interval k) w).2
      | None => w
      end
  | KeepHeartbeat =>
      match keep w with
      | Some k =>
          let w1 := clearTimeout (liveness w !! c) w in
          let '(t, w2) := setTimeout (CallTimeout c) (Keep.timeout k) w1 in
          set_liveness (<[c := t]>) w2
      | None => w
      end
  | KeepClear => clearTimeout (liveness w !! c) w
  end.

(** A listener registered with [once] is taken off before it runs. *)
Definition call_listener (nested : list arg → world → world)
    (c : nat) (args : list arg) (w : world) (l : listener) : world :=
  let w1 := if is_once l
            then update_session c (set_listeners (remove_listener l)) w
            else w in
  run_listener nested c args l w1.

(** [NiceEventEmitter.emit]: the listeners of the name, in the order of
    registration as it stands when the call starts, and after them the
    listeners of [relayEvent], which receive the name too. Listeners of
    the caller of the library are not part of the program: the entry in
    the log stands for them. An ['error'] event is assumed to have a
    listener outside wherever none is registered here: this is the
    program as a caller meets it who listens for ['error'] on the session
    and on the wrapper; [emit_with_guarded] below makes the listeners of
    the caller a parameter and raises where Node raises. *)
Definition emit_with (nested : list arg → world → world)
    (c : nat) (name : value) (args : list arg) (w : world) : world :=
  let w1 := record (Emit (Session c) name args) w in
  let w2 := foldl (call_listener nested c args) w1
              (filter (fun l => selected name l = true) (session_listeners c w1)) in
  foldl (fun w l => record (Emit Supervisor name args) w) w2
        (filter (fun l => on_relay l = true) (session_listeners c w2)).

Definition emit_error (c : nat) (args : list arg) (w : world) : world :=
  emit_with (fun _ w => w) c (VString "error") args w.

Definition emit (c : nat) (name : value) (args : list arg) (w : world) : world :=
  emit_with (emit_error c) c name args w.

(** [data.cmd || (data.msg && data.msg.cmd)]. *)
Definition command (data : value) : exn + value :=
  match getProp data "cmd" with
  | inl e => inl e
  | inr direct =>
      if truthy direct then inr direct
      else match getProp data "msg" with
           | inl e => inl e
           | inr wrapper =>
               if truthy wrapper then getProp wrapper "cmd" else inr wrapper
           end
  end.

Definition session_online (c : nat) (w : world) : value :=
  default VUndefined (Live.online <$> sessions w !! c).

(** The body of [packs.forEach(pack => ...)] for one packet. *)
Definition dispatch (c : nat) (p : pack) (w : world) : outcome :=
  let w1 :=
    if String.eqb (type p) "welcome" then
      let w := update_session c (set_live true) w in
      let w := emit c (VString "live") [] w in
      send c (encoder OpHeartbeat) w
    else w in
  let w2 :=
    if String.eqb (type p) "heartbeat" then
      let w := update_session c (set_online (data p)) w1 in
      let w := clearTimeout (session_timeout c w) w in
      let '(t, w) := setTimeout (CallHeartbeat c) (1000 * 30) w in
      let w := update_session c (set_timeout (Some t)) w in
      emit c (VString "heartbeat") [AValue (session_online c w)] w
    else w1 in
  if String.eqb (type p) "message" then
    let w3 := emit c (VString "msg") [AValue (data p)] w2 in
    match command (data p) with
    | inl e => Thrown e w3
    | inr cmd =>
        if truthy cmd then
          match includes_DANMU_MSG cmd with
          | inl e => Thrown e w3
          | inr true => Done (emit c (VString "DANMU_MSG") [AValue (data p)] w3)
          | inr false => Done (emit c cmd [AValue (data p)] w3)
          end
        else Done w3
    end
  else Done w2.

(** [packs.forEach(...)]: an exception ends the loop. *)
Fixpoint forEach (c : nat) (packs : list pack) (w : world) : outcome :=
  match packs with
  | [] => Done w
  | p :: rest =>
      match dispatch c p w with
      | Done w' => forEach c rest w'
      | Thrown e w' => Thrown e w'
      end
  end.

(** The promise of the decode call [d] settles and the handler that
    awaits it runs on. *)
Definition resume (d : nat) (w : world) : outcome :=
  match decoding w !! d with
  | Some (c, a) =>
      let w1 := set_decoding (delete d) w in
      match decoder a with
      | Some packs => forEach c packs w1
      | None => Thrown DecodeError w1
      end
  | None => Done w
  end.

(** [getOnline()]: the result is the new promise. *)
Definition getOnline (c : nat) (w : world) : nat * world :=
  let w1 := heartbeat c w in
  let p := promise_count w1 in
  (p, update_session c (set_listeners (fun ls => ls ++ [OnceResolve p]))
        (World (sessions w1) (session_count w1) (keep w1) (timers w1)
               (timer_count w1) (liveness w1) (decoding w1) (decode_count w1)
               (promises w1) (S p) (log w1))).

(** [getOnline()] called [n] times in a row, with the promises in the
    order of the calls. *)
Fixpoint getOnline_times (n : nat) (c : nat) (w : world) : list nat * world :=
  match n with
  | O => ([], w)
  | S n' =>
      let '(p, w1) := getOnline c w in
      let '(ps, w2) := getOnline_times n' c w1 in
      (p :: ps, w2)
  end.

(** The constructor of [Live], with the adapter that the subclass adds
    after [super(roomid)]. *)
Definition Live_constructor (roomid : value) (a : adapter) : exn + Live.t :=
  if negb (String.eqb (typeof roomid) "number") || Number_isNaN roomid
  then inl (RoomidError roomid)
  else inr (Live.mk roomid (VNumber (S754_zero false)) false None
              Live_listeners a).

Definition default_address : string := "wss://broadcastlv.chat.bilibili.com/sub".
Definition default_host : string := "broadcastlv.chat.bilibili.com".
Definition default_port : Z := 2243.

(** [new LiveWS(roomid, address)] and [new LiveTCP(roomid, host, port)]:
    the transport is opened after the check of the room id. *)
Definition construct (roomid : value) (b : base) (w : world)
  : (exn + nat) * world :=
  let a := match b with
           | BaseWS address => LiveWS address
           | BaseTCP host port => LiveTCP host port []
           end in
  match Live_constructor roomid a with
  | inl e => (inl e, w)
  | inr s =>
      let c := session_count w in
      (inr c, record (Connect c b)
                (World (<[c := s]> (sessions w)) (S c) (keep w) (timers w)
                       (timer_count w) (liveness w) (decoding w)
                       (decode_count w) (promises w) (promise_count w)
                       (log w)))
  end.

(** The transport events that the adapters forward. *)
Definition LiveTCP_data (fuel : nat) (c : nat) (chunk : list byte) (w : world)
  : option world :=
  match Live.adapter <$> sessions w !! c with
  | Some (LiveTCP _ _ buffer) =>
      match Framer.onData fuel buffer chunk with
      | Some (packs, rest) =>
          Some (foldl (fun w pack => emit c (VString "message") [ABuffer pack] w)
                      (update_session c (set_buffer rest) w) packs)
      | None => None
      end
  | _ => Some w
  end.

(** ** The wrapper: [KeepLiveWS], [KeepLiveTCP] *)

Definition set_connection (c : nat) (k : Keep.t) : Keep.t :=
  Keep.mk (Keep.roomid k) (Keep.base k) (Keep.closed k) (Keep.interval k)
          (Keep.timeout k) (Some c).

Definition set_closed (b : bool) (k : Keep.t) : Keep.t :=
  Keep.mk (Keep.roomid k) (Keep.base k) b (Keep.interval k)
          (Keep.timeout k) (Keep.connection k).

(** [connect()]: the exception of the constructor, if any, next to the
    world it leaves. *)
Definition Keep_connect (w : world) : option exn * world :=
  match keep w with
  | None => (None, w)
  | Some k =>
      match construct (Keep.roomid k) (Keep.base k) w with
      | (inl e, w1) => (Some e, w1)
      | (inr c, w1) =>
          let w2 := set_keep (Some (set_connection c k)) w1 in
          let '(t, w3) := setTimeout (CallTimeout c) (Keep.timeout k) w2 in
          let w4 := set_liveness (<[c := t]>) w3 in
          (None, update_session c
                   (set_listeners (fun ls => ls ++ Keep_listeners)) w4)
      end
  end.

(** [new KeepLiveWS(roomid, address)] / [new KeepLiveTCP(roomid, host, port)]. *)
Definition Keep_constructor (roomid : value) (b : base) (w : world)
  : option exn * world :=
  Keep_connect
    (set_keep (Some (Keep.mk roomid b false 100 (45 * 1000) None)) w).

Definition Keep_close (w : world) : world :=
  match keep w with
  | Some k =>
      let w1 := set_keep (Some (set_closed true k)) w in
      match Keep.connection k with
      | Some c => close c w1
      | None => w1
      end
  | None => w
  end.

Definition current (w : world) : option nat :=
  k ← keep w; Keep.connection k.

Definition Keep_online (w : world) : option value :=
  c ← current w; Live.online <$> sessions w !! c.

Definition Keep_roomid (w : world) : option value :=
  c ← current w; Live.roomid <$> sessions w !! c.

Definition Keep_heartbeat (w : world) : world :=
  match current w with
  | Some c => heartbeat c w
  | None => w
  end.

Definition Keep_getOnline (w : world) : option (nat * world) :=
  c ← current w; Some (getOnline c w).

Definition Keep_send (bytes : list byte) (w : world) : world :=
  match current w with
  | Some c => send c bytes w
  | None => w
  end.

(** ** The event loop *)

(** A pending timer fires. An exception of the callback is lost with
    the callback. *)
Definition fire (t : nat) (w : world) : world :=
  match timers w !! t with
  | None => w
  | Some (cb, _) =>
      let w1 := set_timers (delete t) w in
      match cb with
      | CallHeartbeat c => heartbeat c w1
      | CallTimeout c => emit c (VString "timeout") [] (close c w1)
      | CallConnect => (Keep_connect w1).2
      end
  end.

(** What the outside does: the transport of a session, the codec, the
    clock, and the caller of the wrapper. *)
Inductive input :=
  | TransportOpen (c : nat)                       (* ws 'open', socket 'ready' *)
  | TransportMessage (c : nat) (b : list byte)    (* ws 'message' *)
  | TransportData (c : nat) (chunk : list byte)   (* socket 'data' *)
  | TransportClose (c : nat)                      (* ws / socket 'close' *)
  | TransportError (c : nat) (cause : string)     (* ws / socket 'error' *)
  | Decoded (d : nat)
  | TimerFires (t : nat)
  | UserClose
  | UserHeartbeat
  | UserGetOnline.

Definition buffered (c : nat) (w : world) : nat :=
  match Live.adapter <$> sessions w !! c with
  | Some (LiveTCP _ _ buffer) => length buffer
  | _ => 0
  end.

(** One turn of the loop; [None] when the turn never ends. A pass of
    [splitBuffer] that does not shorten the buffer repeats for ever, so
    as many passes as there are bytes decide. *)
Definition step (i : input) (w : world) : option world :=
  match i with
  | TransportOpen c => Some (emit c (VString "open") [] w)
  | TransportMessage c b => Some (emit c (VString "message") [ABuffer b] w)
  | TransportData c chunk => LiveTCP_data (buffered c w + length chunk) c chunk w
  | TransportClose c => Some (emit c (VString "close") [] w)
  | TransportError c cause => Some (emit c (VString "_error") [AError cause] w)
  | Decoded d => Some (world_of (resume d w))
  | TimerFires t => Some (fire t w)
  | UserClose => Some (Keep_close w)
  | UserHeartbeat => Some (Keep_heartbeat w)
  | UserGetOnline =>
      Some (match Keep_getOnline w with Some (_, w') => w' | None => w end)
  end.

Fixpoint run (inputs : list input) (w : world) : option world :=
  match inputs with
  | [] => Some w
  | i :: rest =>
      match step i w with
      | Some w' => run rest w'
      | None => None
      end
  end.

End Codec.

(** ** Relations between two worlds *)

(** The part of a session that no emission touches: every field, and of
    the listeners those that stay registered. *)
Definition frame (s : Live.t)
  : value * value * bool * option nat * adapter * list listener :=
  (Live.roomid s, Live.online s, Live.live s, Live.timeout s, Live.adapter s,
   standing (Live.listeners s)).

Definition steady (w w' : world) : Prop :=
  keep w' = keep w ∧ session_count w' = session_count w ∧
  ∀ c, frame <$> sessions w' !! c = frame <$> sessions w !! c.

(** The log only grows. *)
Definition extends (w w' : world) : Prop :=
  ∃ more, log w' = log w ++ more.

(** No decode call was made under a number that is still to come. *)
Definition decoding_wf (w : world) : Prop :=
  ∀ d, decode_count w ≤ d → decoding w !! d = None.

(** The pending decode calls stay pending. *)
Definition keeps_decoding (w w' : world) : Prop :=
  decoding_wf w →
  decoding_wf w' ∧ decode_count w ≤ decode_count w' ∧
  ∀ d, d < decode_count w → decoding w' !! d = decoding w !! d.

(** No promise was settled under a number that is still to come. *)
Definition promises_wf (w : world) : Prop :=
  ∀ p, promise_count w ≤ p → promises w !! p = None.

(** A settled promise stays as it is, and no promise is created. *)
Definition keeps_promises (w w' : world) : Prop :=
  promise_count w' = promise_count w ∧
  ∀ p a, promises w !! p = Some a → promises w' !! p = Some a.

(** The elementary effects of the listeners, as conditions on a relation
    between the world before and the world after. *)
Class Respected (P : world → world → Prop) : Prop := {
  respects_refl : ∀ w, P w w;
  respects_trans : ∀ w1 w2 w3, P w1 w2 → P w2 w3 → P w1 w3;
  respects_record : ∀ a w, P w (record a w);
  respects_await : ∀ c a w, P w (await_decoder c a w);
  respects_clear : ∀ t w, P w (set_timers (delete t) w);
  respects_setTimeout : ∀ cb ms w, P w (setTimeout cb ms w).2;
  respects_liveness : ∀ c t w, P w (set_liveness (<[c := t]>) w);
  respects_resolve :
    ∀ p a w, promises w !! p = None → P w (set_promises (<[p := a]>) w);
  respects_remove :
    ∀ c p w,
      P w (update_session c (set_listeners (remove_listener (OnceResolve p))) w)
}.

(** The listeners whose body makes no call that the log records. *)
Definition quiet (l : listener) : bool :=
  match l with
  | LiveOpen | Live_error | KeepError => false
  | _ => true
  end.

(** No listener is added. *)
Definition sheds (w w' : world) : Prop :=
  ∀ c l, l ∈ default [] (Live.listeners <$> sessions w' !! c) →
         l ∈ default [] (Live.listeners <$> sessions w !! c).

(** ** Stand-ins to run the program on *)

(** A codec of one-byte packets: a heartbeat request is [02], a join is
    [07], and a buffer [[n]] decodes to one heartbeat packet with the
    count [n]. *)
Definition demo_encoder (o : operation) : list byte :=
  match o with
  | OpHeartbeat => [x02]
  | OpJoin _ => [x07]
  end.

Definition demo_decoder (a : arg) : option (list pack) :=
  match a with
  | ABuffer [b] =>
      Some [ {| type := "heartbeat";
                data := VNumber (number_of_Z (Buffer.byte_value b)) |} ]
  | _ => None
  end.

Definition room_1 : value := VNumber (number_of_Z 1).

(** A session of its own, and a wrapper with its first session. *)
Definition demo_session : world :=
  (construct room_1 (BaseWS default_address) empty_world).2.

Definition demo_keep : world :=
  (Keep_constructor room_1 (BaseWS default_address) empty_world).2.

(** ** The command of a payload, in the words of the design document *)

(** The field [k] of a payload, when the payload is an object that has
    it. *)
Definition field (k : string) (v : value) : option value :=
  match v with
  | VObject fields => assoc k fields
  | _ => None
  end.

(** The payload carries the command string [s] directly in its [cmd]
    field. *)
Definition carries_directly (data : value) (s : string) : Prop :=
  field "cmd" data = Some (VString s).

(** The payload carries the command string [s] one level down, in the
    [cmd] field of its [msg] field. *)
Definition carries_nested (data : value) (s : string) : Prop :=
  ∃ wrapper, field "msg" data = Some wrapper ∧
             field "cmd" wrapper = Some (VString s).

(** The [cmd] field of the payload is missing or falsy, so that the code
    looks into [msg]. *)
Definition no_direct_command (data : value) : Prop :=
  match field "cmd" data with
  | Some v => truthy v = false
  | None => True
  end.

(** The name under which a command is emitted. *)
Definition routed_name (s : string) : value :=
  if String_includes s "DANMU_MSG" then VString "DANMU_MSG" else VString s.

(** The double 1.5, that is 3 * 2^-1. *)
Definition one_and_a_half : value :=
  VNumber (SpecFloat.binary_normalize 53 1024 3 (-1) false).


(** The world in which a heartbeat packet with the count [v] emits its
    event: [online] is set and the heartbeat timer is replaced. *)
Definition beat (c : nat) (v : value) (w : world) : world :=
  let w1 := update_session c (set_online v) w in
  let w2 := clearTimeout (session_timeout c w1) w1 in
  let w3 := (setTimeout (CallHeartbeat c) 30000 w2).2 in
  update_session c (set_timeout (Some (timer_count w2))) w3.

(** A complete frame: at least the four bytes of the header, which
    declare the length of the frame itself. *)
Definition framed (f : list byte) : Prop :=
  4 ≤ length f ∧ Framer.declared f = Z.of_nat (length f).

(** ** Invariants of the event loop *)

Definition is_Connect (a : action) : bool :=
  match a with
  | Connect _ _ => true
  | _ => false
  end.

(** An update of a session that leaves the room id, the heartbeat timer
    and the standing listeners alone. *)
Definition tame (f : Live.t → Live.t) : Prop :=
  ∀ s, Live.roomid (f s) = Live.roomid s ∧
       Live.timeout (f s) = Live.timeout s ∧
       standing (Live.listeners (f s)) = standing (Live.listeners s).

(** The promise that [getOnline] creates takes the next number. *)
Definition next_promise (w : world) : world :=
  World (sessions w) (session_count w) (keep w) (timers w) (timer_count w)
        (liveness w) (decoding w) (decode_count w) (promises w)
        (S (promise_count w)) (log w).

(** The body of the ['heartbeat'] listener of the wrapper [k] on its
    session [c]: the liveness timer is replaced. *)
Definition watch (k : Keep.t) (c : nat) (w : world) : world :=
  let w1 := clearTimeout (liveness w !! c) w in
  set_liveness (<[c := timer_count w1]>)
    (setTimeout (CallTimeout c) (Keep.timeout k) w1).2.

(** Every suspended handler belongs to a session that exists. *)
Definition grounded (w : world) : Prop :=
  ∀ d c a, decoding w !! d = Some (c, a) → is_Some (sessions w !! c).

(** A property of the world that every effect of the program keeps. The
    effects on timers come as the program groups them: a timer and the
    place that remembers its handle change together. *)
Class Invariant (I : world → Prop) : Prop := {
  inv_record : ∀ a w, is_Connect a = false → I w → I (record a w);
  inv_await :
    ∀ c a w, is_Some (sessions w !! c) → I w → I (await_decoder c a w);
  inv_decoded : ∀ d w, I w → I (set_decoding (delete d) w);
  inv_clear : ∀ t w, I w → I (set_timers (delete t) w);
  inv_beat : ∀ c v w, is_Some (sessions w !! c) → I w → I (beat c v w);
  inv_retry :
    ∀ k w, keep w = Some k → Keep.closed k = false → I w →
           I (setTimeout CallConnect (Keep.interval k) w).2;
  inv_watch :
    ∀ k c w, keep w = Some k → is_Some (sessions w !! c) → I w →
             I (watch k c w);
  inv_resolve :
    ∀ p a w, promises w !! p = None → I w → I (set_promises (<[p := a]>) w);
  inv_promise : ∀ w, I w → I (next_promise w);
  inv_update : ∀ c f w, tame f → I w → I (update_session c f w);
  inv_close :
    ∀ k w, keep w = Some k → I w → I (set_keep (Some (set_closed true k)) w);
  inv_connect :
    ∀ t ms w, timers w !! t = Some (CallConnect, ms) → I w →
              I (Keep_connect (set_timers (delete t) w)).2
}.

Definition adapter_of (b : base) : adapter :=
  match b with
  | BaseWS address => LiveWS address
  | BaseTCP host port => LiveTCP host port []
  end.

(** The test of the constructor of [Live], as a boolean. *)
Definition valid_roomid (v : value) : bool :=
  String.eqb (typeof v) "number" && negb (Number_isNaN v).

(** The world after a [connect()] of the wrapper [k] that went through. *)
Definition connected (k : Keep.t) (w : world) : world :=
  let c := session_count w in
  World
    (<[c := Live.mk (Keep.roomid k) (VNumber (S754_zero false)) false None
              (Live_listeners ++ Keep_listeners) (adapter_of (Keep.base k))]>
       (sessions w))
    (S c)
    (Some (set_connection c k))
    (<[timer_count w := (CallTimeout c, Keep.timeout k)]> (timers w))
    (S (timer_count w))
    (<[c := timer_count w]> (liveness w))
    (decoding w) (decode_count w) (promises w) (promise_count w)
    (log w ++ [Connect c (Keep.base k)]).

(** The promise [p] is settled with [a]. *)
Definition settled (p : nat) (a : arg) (w : world) : Prop :=
  promises w !! p = Some a.

(** The wrapper is closed and no retry is pending; [n] sessions have been
    constructed and the transport has been opened as [opened] tells. *)
Definition closed_for_good (n : nat) (opened : list action) (w : world) : Prop :=
  (∃ k, keep w = Some k ∧ Keep.closed k = true) ∧
  (∀ t ms, timers w !! t ≠ Some (CallConnect, ms)) ∧
  session_count w = n ∧
  filter (λ a, is_Connect a = true) (log w) = opened.

(** The wrapper and all its sessions are for the room [r], and every
    transport was opened to the endpoint [b]. *)
Definition same_room (r : value) (b : base) (w : world) : Prop :=
  (∃ k, keep w = Some k ∧ Keep.roomid k = r ∧ Keep.base k = b) ∧
  (∀ c s, sessions w !! c = Some s → Live.roomid s = r) ∧
  (∀ c b', Connect c b' ∈ log w → b' = b).

(** Every session carries the listeners of [Live] and of the wrapper,
    each once, next to the one-shot listeners of [getOnline]. *)
Definition wired (w : world) : Prop :=
  ∀ c s, sessions w !! c = Some s →
         standing (Live.listeners s) = Live_listeners ++ Keep_listeners.

(** The sessions are numbered in the order of their construction, and the
    wrapper holds the last one. *)
Definition holds_latest (w : world) : Prop :=
  (∀ c, session_count w ≤ c → sessions w !! c = None) ∧
  ∃ k, keep w = Some k ∧
       match Keep.connection k with
       | Some c => S c = session_count w
       | None => session_count w = 0
       end.

(** What a pending timer [t] with the callback [cb] and the delay [ms]
    answers to: the place of the program that holds its handle. *)
Definition accounted (w : world) (t : nat) (cb : callback) (ms : Z) : Prop :=
  match cb with
  | CallHeartbeat c => ms = 30000%Z ∧ session_timeout c w = Some t
  | CallTimeout c =>
      ms = 45000%Z ∧ liveness w !! c = Some t ∧ is_Some (sessions w !! c)
  | CallConnect => ms = 100%Z
  end.

(** Handles and sessions are numbered as they are made, the wrapper keeps
    its two delays, and every pending timer is accounted for. *)
Definition tracked (w : world) : Prop :=
  (∀ t, timer_count w ≤ t → timers w !! t = None) ∧
  (∀ c, session_count w ≤ c → sessions w !! c = None) ∧
  (∀ c t, liveness w !! c = Some t → t < timer_count w) ∧
  (∃ k, keep w = Some k ∧ Keep.timeout k = 45000%Z ∧ Keep.interval k = 100%Z) ∧
  (∀ t cb ms, timers w !! t = Some (cb, ms) → accounted w t cb ms).

(** A sequence of calls that leave the program, recorded in order. *)
Definition records (acts : list action) (w : world) : world :=
  foldl (λ w a, record a w) w acts.

(** What holds of a wrapper for the room [r] at the endpoint [b]
    throughout its life. *)
Definition sound (r : value) (b : base) (w : world) : Prop :=
  tracked w ∧ same_room r b w ∧ wired w ∧ holds_latest w.

(** The retry that the wrapper [k] schedules on a ['close'] event of one
    of its sessions, unless it is closed. *)
Definition retry (k : Keep.t) (w : world) : world :=
  if Keep.closed k then w else (setTimeout CallConnect (Keep.interval k) w).2.

(** A handle that a session or a [connect()] holds is of a timer made
    before, and while the timer is pending it is the heartbeat timer,
    respectively the liveness timer, of that very session. *)
Definition owned (w : world) : Prop :=
  (∀ c t, session_timeout c w = Some t → t < timer_count w) ∧
  (∀ c t, liveness w !! c = Some t → t < timer_count w) ∧
  (∀ c t cb ms, session_timeout c w = Some t → timers w !! t = Some (cb, ms) →
                cb = CallHeartbeat c) ∧
  (∀ c t cb ms, liveness w !! c = Some t → timers w !! t = Some (cb, ms) →
                cb = CallTimeout c).

(** The count that a batch of packets leaves in [online]: the data of its
    last heartbeat packet, and [before] when it has none. *)
Definition last_count (packs : list pack) (before : value) : value :=
  foldl (λ v p, if String.eqb (type p) "heartbeat" then data p else v)
        before packs.

(** What an emission of ['close'] on the session [c] of the wrapper [k]
    leaves of the timers of [w]: none of the session, all the others, and
    a retry unless the wrapper is closed. *)
Definition stops (c : nat) (k : Keep.t) (w w' : world) : Prop :=
  (∀ t ms, timers w' !! t ≠ Some (CallHeartbeat c, ms)) ∧
  (∀ t ms, timers w' !! t ≠ Some (CallTimeout c, ms)) ∧
  (∀ t cb ms, timers w !! t = Some (cb, ms) →
              cb ≠ CallHeartbeat c → cb ≠ CallTimeout c →
              timers w' !! t = Some (cb, ms)) ∧
  timers w' !! timer_count w
  = (if Keep.closed k then None else Some (CallConnect, 100%Z)) ∧
  (∀ t, timer_count w < t → timers w' !! t = None).

(** The timers of a world, with the places of the wrapper that hold
    handles. *)
Definition clock (w : world)
  : gmap nat (callback * Z) * nat * gmap nat nat * option Keep.t :=
  (timers w, timer_count w, liveness w, keep w).

(** A packet whose command, if it is a message packet with one, is not
    one of the two names under which the session emits errors. Events of
    these names reach [emit('error', ...)], which depends on the listeners
    of the caller. *)
Definition plain (p : pack) : bool :=
  negb (String.eqb (type p) "message") ||
  match command (data p) with
  | inr cmd => negb (names cmd "error") && negb (names cmd "_error")
  | inl _ => true
  end.

(** ** The caller's listeners for ['error'] *)

(** Node's [EventEmitter.prototype.emit] raises when the name is the
    string ['error'] and no listener is registered under it on the
    emitter: it throws the first argument if that is an [Error], and a new
    [Error] around it otherwise. The exception leaves the listener that
    made the call, and with it the emission that runs this listener and
    the handler that made that emission. *)
Inductive failure :=
  | Raised (e : exn)                             (* raised by the handler itself *)
  | Unhandled (who : emitter) (args : list arg). (* ['error'] without a listener *)

(** A piece of code that ran to its end, or was left by an exception;
    the world holds the effects made until then. *)
Inductive result :=
  | Finished (w : world)
  | Aborted (f : failure) (w : world).

Definition world_after (r : result) : world :=
  match r with
  | Finished w | Aborted _ w => w
  end.

Definition and_then (r : result) (k : world → result) : result :=
  match r with
  | Finished w => k w
  | Aborted f w => Aborted f w
  end.

(** [type === 'error']: the string itself, and no value that only
    converts to it. *)
Definition is_error (name : value) : bool :=
  match name with
  | VString s => String.eqb s "error"
  | _ => false
  end.

(** Listeners called one after the other; an exception of one of them
    ends the calls. *)
Fixpoint run_listeners (f : world → listener → result) (w : world)
    (ls : list listener) : result :=
  match ls with
  | [] => Finished w
  | l :: rest =>
      match f w l with
      | Finished w' => run_listeners f w' rest
      | Aborted e w' => Aborted e w'
      end
  end.

Section Guarded.
Variable encoder : operation → list byte.

(** Whether the caller of the library has registered a listener for
    ['error'] on an emitter. *)
Variable heard : emitter → bool.

(** The test of [emit] before it raises: the name is ['error'], the
    caller has no listener for it, and of the listeners that the program
    registered on the emitter none is stored under ['error']. *)
Definition unheard (who : emitter) (name : value) (registered : list listener)
  : bool :=
  is_error name && negb (heard who) &&
  match filter (λ l, selected (VString "error") l = true) registered with
  | [] => true
  | _ :: _ => false
  end.

(** A listener of a session is called. Only the ['_error'] handler makes
    an emission that can raise. *)
Definition call_listener_guarded (nested : list arg → world → result)
    (c : nat) (args : list arg) (w : world) (l : listener) : result :=
  match l with
  | Live_error => nested args (close c w)
  | _ => Finished (call_listener encoder (λ _ w, w) c args w l)
  end.

(** The relay listener of the wrapper: [this.emit(...params)] on the
    wrapper, on which the program itself registers no listener. *)
Definition relay_guarded (name : value) (args : list arg) (w : world)
    (l : listener) : result :=
  let w1 := record (Emit Supervisor name args) w in
  if unheard Supervisor name []
  then Aborted (Unhandled Supervisor args) w1
  else Finished w1.

(** [NiceEventEmitter.emit] as Node runs it: [super.emit(...params)],
    which raises for an ['error'] that nobody hears, and then
    [super.emit(relayEvent, ...params)]. *)
Definition emit_with_guarded (nested : list arg → world → result)
    (c : nat) (name : value) (args : list arg) (w : world) : result :=
  let w1 := record (Emit (Session c) name args) w in
  if unheard (Session c) name (session_listeners c w1)
  then Aborted (Unhandled (Session c) args) w1
  else
    and_then
      (run_listeners (call_listener_guarded nested c args) w1
         (filter (λ l, selected name l = true) (session_listeners c w1)))
      (λ w2,
         run_listeners (relay_guarded name args) w2
           (filter (λ l, on_relay l = true) (session_listeners c w2))).

Definition emit_error_guarded (c : nat) (args : list arg) (w : world) : result :=
  emit_with_guarded (λ _ w, Finished w) c (VString "error") args w.

Definition emit_guarded (c : nat) (name : value) (args : list arg) (w : world)
  : result :=
  emit_with_guarded (emit_error_guarded c) c name args w.

(** The body of [packs.forEach(pack => ...)] for one packet: the three
    tests one after the other. *)
Definition dispatch_guarded (c : nat) (p : pack) (w : world) : result :=
  and_then
    (if String.eqb (type p) "welcome" then
       and_then
         (emit_guarded c (VString "live") []
            (update_session c (set_live true) w))
         (λ w, Finished (send c (encoder OpHeartbeat) w))
     else Finished w)
    (λ w1,
       and_then
         (if String.eqb (type p) "heartbeat" then
            emit_guarded c (VString "heartbeat")
              [AValue (session_online c (beat c (data p) w1))]
              (beat c (data p) w1)
          else Finished w1)
         (λ w2,
            if String.eqb (type p) "message" then
              and_then
                (emit_guarded c (VString "msg") [AValue (data p)] w2)
                (λ w3,
                   match command (data p) with
                   | inl e => Aborted (Raised e) w3
                   | inr cmd =>
                       if truthy cmd then
                         match includes_DANMU_MSG cmd with
                         | inl e => Aborted (Raised e) w3
                         | inr true =>
                             emit_guarded c (VString "DANMU_MSG")
                               [AValue (data p)] w3
                         | inr false => emit_guarded c cmd [AValue (data p)] w3
                         end
                       else Finished w3
                   end)
            else Finished w2)).

(** [packs.forEach(...)]: an exception ends the loop. *)
Fixpoint forEach_guarded (c : nat) (packs : list pack) (w : world) : result :=
  match packs with
  | [] => Finished w
  | p :: rest => and_then (dispatch_guarded c p w) (forEach_guarded c rest)
  end.

End Guarded.

(** The outcome of a handler of the program, among the results. *)
Definition result_of (o : outcome) : result :=
  match o with
  | Done w => Finished w
  | Thrown e w => Aborted (Raised e) w
  end.

(** An exception that Node raised for an ['error'] event on an emitter
    where the caller has no listener. *)
Definition silent (heard : emitter → bool) (f : failure) : Prop :=
  ∃ who args, f = Unhandled who args ∧ heard who = false.

(** * Properties *)

(** ** Reading lengths and slicing *)

Section BufferFacts.
Import Buffer.

Lemma byte_value_range b : (0 ≤ byte_value b < 256)%Z.
Proof.
  unfold byte_value. pose proof (Byte.to_N_bounded b). lia.
Qed.

Lemma toInt32_small u : (0 ≤ u < 2 ^ 31)%Z → toInt32 u = u.
Proof.
  intros Hu. unfold toInt32. rewrite Z.mod_small by lia.
  destruct (Z.ltb_spec u (2 ^ 31)); lia.
Qed.

Lemma toInt32_large u : (2 ^ 31 ≤ u < 2 ^ 32)%Z → toInt32 u = (u - 2 ^ 32)%Z.
Proof.
  intros Hu. unfold toInt32. rewrite Z.mod_small by lia.
  destruct (Z.ltb_spec u (2 ^ 31)); lia.
Qed.

Lemma readUInt32BE_range buf o u :
  readUInt32BE buf o = Some u → (0 ≤ u < 2 ^ 32)%Z.
Proof.
  unfold readUInt32BE.
  destruct (drop o buf) as [|b0 [|b1 [|b2 [|b3 ?]]]]; try discriminate.
  intros [= <-].
  pose proof (byte_value_range b0). pose proof (byte_value_range b1).
  pose proof (byte_value_range b2). pose proof (byte_value_range b3). lia.
Qed.

(** The signed read is the unsigned one seen through [ToInt32]. *)
Lemma readInt32BE_unsigned buf o :
  readInt32BE buf o = toInt32 <$> readUInt32BE buf o.
Proof.
  unfold readInt32BE, readUInt32BE.
  destruct (drop o buf) as [|b0 [|b1 [|b2 [|b3 ?]]]]; try reflexivity.
  simpl. f_equal.
  pose proof (byte_value_range b0). pose proof (byte_value_range b1).
  pose proof (byte_value_range b2). pose proof (byte_value_range b3).
  rewrite Z.shiftl_mul_pow2 by lia.
  destruct (Z.lt_ge_cases (byte_value b0) 128).
  - rewrite !toInt32_small; lia.
  - rewrite !toInt32_large; lia.
Qed.

Lemma readInt32BE_is_Some buf :
  4 ≤ length buf → is_Some (readInt32BE buf 0).
Proof.
  destruct buf as [|b0 [|b1 [|b2 [|b3 ?]]]]; simpl; try lia.
  intros _. unfold readInt32BE. simpl. eauto.
Qed.

Lemma readInt32BE_None buf :
  length buf < 4 → readInt32BE buf 0 = None.
Proof.
  destruct buf as [|b0 [|b1 [|b2 [|b3 ?]]]]; simpl; try lia; reflexivity.
Qed.

Lemma readInt32BE_app buf more :
  4 ≤ length buf → readInt32BE (buf ++ more) 0 = readInt32BE buf 0.
Proof.
  destruct buf as [|b0 [|b1 [|b2 [|b3 ?]]]]; simpl; try lia; reflexivity.
Qed.

Lemma slice_front buf n :
  (0 ≤ n ≤ Z.of_nat (length buf))%Z →
  slice buf 0 (Some n) = take (Z.to_nat n) buf.
Proof.
  intros Hn. unfold slice, adjustOffset. simpl.
  destruct (Z.ltb_spec n 0); [lia|].
  rewrite Z.min_l by lia. rewrite Z.min_l by lia.
  rewrite Z.sub_0_r. reflexivity.
Qed.

Lemma slice_back buf n :
  (0 ≤ n ≤ Z.of_nat (length buf))%Z →
  slice buf n None = drop (Z.to_nat n) buf.
Proof.
  intros Hn. unfold slice, adjustOffset.
  destruct (Z.ltb_spec n 0); [lia|].
  rewrite Z.min_l by lia.
  apply take_ge. rewrite length_drop. lia.
Qed.

End BufferFacts.

(** ** The framing loop *)

Section FramerFacts.
Import Buffer Framer.

Implicit Types buffer more rest pack : list byte.
Implicit Types packs : list (list byte).

Lemma loop_test_true buffer :
  loop_test buffer = true ↔
  4 ≤ length buffer ∧ (declared buffer ≤ Z.of_nat (length buffer))%Z.
Proof.
  unfold loop_test, declared.
  destruct (Z.leb_spec 4 (Z.of_nat (length buffer))) as [H4|H4].
  - destruct (readInt32BE_is_Some buffer) as [n Hn]; [lia|].
    rewrite Hn. simpl. rewrite Z.leb_le. split; [intros; split; lia|tauto].
  - split; [discriminate|lia].
Qed.

Lemma loop_test_false buffer :
  loop_test buffer = false ↔
  length buffer < 4 ∨ (Z.of_nat (length buffer) < declared buffer)%Z.
Proof.
  rewrite <- not_true_iff_false, loop_test_true. lia.
Qed.

Lemma declared_app buffer more :
  4 ≤ length buffer → declared (buffer ++ more) = declared buffer.
Proof.
  intros H. unfold declared. rewrite readInt32BE_app by done. reflexivity.
Qed.

Lemma splitStep_Some buffer pack rest :
  splitStep buffer = Some (pack, rest) →
  loop_test buffer = true ∧
  pack = slice buffer 0 (Some (declared buffer)) ∧
  rest = slice buffer (declared buffer) None.
Proof.
  unfold splitStep. destruct (loop_test buffer); [|discriminate].
  intros [= <- <-]. auto.
Qed.

Lemma splitStep_None buffer :
  splitStep buffer = None ↔ loop_test buffer = false.
Proof.
  unfold splitStep. destruct (loop_test buffer); split; congruence.
Qed.

(** A pass with a length that is not negative cuts the buffer at that
    length. *)
Lemma splitStep_cut buffer :
  loop_test buffer = true → (0 ≤ declared buffer)%Z →
  splitStep buffer =
    Some (take (Z.to_nat (declared buffer)) buffer,
          drop (Z.to_nat (declared buffer)) buffer).
Proof.
  intros Ht H0. unfold splitStep. rewrite Ht.
  apply loop_test_true in Ht as [_ Hle].
  rewrite slice_front, slice_back by lia. reflexivity.
Qed.

(** Such a pass does not see the bytes that follow. *)
Lemma splitStep_app buffer more pack rest :
  splitStep buffer = Some (pack, rest) → (0 ≤ declared buffer)%Z →
  splitStep (buffer ++ more) = Some (pack, rest ++ more).
Proof.
  intros Hs H0.
  destruct (splitStep_Some _ _ _ Hs) as (Ht & _ & _).
  rewrite splitStep_cut in Hs by done. injection Hs as <- <-.
  pose proof Ht as [H4 Hle]%loop_test_true.
  rewrite splitStep_cut.
  - rewrite declared_app by done.
    rewrite take_app_le, drop_app_le by lia. reflexivity.
  - apply loop_test_true. rewrite declared_app, length_app by done. lia.
  - rewrite declared_app by done. done.
Qed.

Lemma loop_test_app buffer more :
  loop_test buffer = true → loop_test (buffer ++ more) = true.
Proof.
  rewrite !loop_test_true. intros [H4 Hle].
  rewrite declared_app, length_app by done. lia.
Qed.

Lemma splitBuffer_mono fuel fuel' buffer r :
  splitBuffer fuel buffer = Some r → fuel ≤ fuel' →
  splitBuffer fuel' buffer = Some r.
Proof.
  revert fuel' buffer r.
  induction fuel as [|fuel IH]; intros fuel' buffer r.
  - destruct fuel'; simpl; destruct (splitStep buffer) as [[? ?]|];
      try done.
  - destruct fuel' as [|fuel']; [lia|]. simpl.
    destruct (splitStep buffer) as [[pack buffer']|]; [|done].
    destruct (splitBuffer fuel buffer') as [[packs rest]|] eqn:E; [|done].
    intros [= <-] Hle. rewrite (IH fuel' _ _ E) by lia. done.
Qed.

Lemma feed_mono fuel fuel' buffer chunks r :
  feed fuel buffer chunks = Some r → fuel ≤ fuel' →
  feed fuel' buffer chunks = Some r.
Proof.
  revert buffer r. induction chunks as [|chunk chunks IH]; intros buffer r.
  - done.
  - simpl. unfold onData.
    destruct (splitBuffer fuel _) as [[packs buffer']|] eqn:E; [|done].
    destruct (feed fuel buffer' chunks) as [[packs' rest]|] eqn:F; [|done].
    intros [= <-] Hle.
    rewrite (splitBuffer_mono _ _ _ _ E Hle), (IH _ _ F Hle). done.
Qed.

(** The buffer that the loop leaves fails the guard. *)
Lemma splitBuffer_settled fuel buffer packs rest :
  splitBuffer fuel buffer = Some (packs, rest) → splitStep rest = None.
Proof.
  revert buffer packs. induction fuel as [|fuel IH]; intros buffer packs; simpl.
  - destruct (splitStep buffer) as [[? ?]|] eqn:E; [done|]. by intros [= <- <-].
  - destruct (splitStep buffer) as [[pack buffer']|] eqn:E.
    + destruct (splitBuffer fuel buffer') as [[packs' rest']|] eqn:F; [|done].
      intros [= <- <-]. eauto.
    + by intros [= <- <-].
Qed.

Lemma passes_splitBuffer n fuel buffer packs b packs' rest :
  passes n buffer = Some (packs, b) →
  splitBuffer fuel b = Some (packs', rest) →
  splitBuffer (n + fuel) buffer = Some (packs ++ packs', rest).
Proof.
  revert buffer packs. induction n as [|n IH]; intros buffer packs; simpl.
  - by intros [= <- <-].
  - destruct (splitStep buffer) as [[pack buffer']|]; [|done].
    destruct (passes n buffer') as [[packs0 b0]|] eqn:E; [|done].
    intros [= <- <-] Hs. rewrite (IH _ _ E Hs). done.
Qed.

Lemma splitBuffer_passes n fuel buffer packs b r :
  passes n buffer = Some (packs, b) →
  splitBuffer fuel buffer = Some r →
  ∃ packs', r = (packs ++ packs', r.2) ∧ splitBuffer fuel b = Some (packs', r.2).
Proof.
  revert fuel buffer packs r.
  induction n as [|n IH]; intros fuel buffer packs r; simpl.
  - intros [= <- <-] Hs. exists r.1. by destruct r.
  - destruct (splitStep buffer) as [[pack buffer']|] eqn:S1; [|done].
    destruct (passes n buffer') as [[packs0 b0]|] eqn:E; [|done].
    intros [= <- <-]. destruct fuel as [|fuel]; simpl; rewrite S1; [done|].
    destruct (splitBuffer fuel buffer') as [[packs1 rest1]|] eqn:F; [|done].
    intros [= <-]. destruct (IH _ _ _ _ E F) as (packs' & Hr & Hs).
    simpl in Hr, Hs. injection Hr as ->. exists packs'. split; [done|].
    exact (splitBuffer_mono fuel (S fuel) b0 _ Hs ltac:(lia)).
Qed.

Lemma passes_S n buffer pack buffer' :
  splitStep buffer = Some (pack, buffer') →
  passes (S n) buffer =
    (λ r, (pack :: r.1, r.2)) <$> passes n buffer'.
Proof.
  intros H. simpl. rewrite H. by destruct (passes n buffer') as [[? ?]|].
Qed.

Lemma lengths_from_step low buffer pack buffer' :
  lengths_from low buffer → splitStep buffer = Some (pack, buffer') →
  lengths_from low buffer'.
Proof.
  intros H Hs n packs b Hp. apply (H (S n) (pack :: packs)).
  rewrite (passes_S _ _ _ _ Hs), Hp. done.
Qed.

Lemma lengths_from_passes low n buffer packs b :
  lengths_from low buffer → passes n buffer = Some (packs, b) →
  lengths_from low b.
Proof.
  revert buffer packs. induction n as [|n IH]; intros buffer packs H; simpl.
  - by intros [= <- <-].
  - destruct (splitStep buffer) as [[pack buffer']|] eqn:E; [|done].
    destruct (passes n buffer') as [[packs0 b0]|] eqn:F; [|done].
    intros [= <- <-]. eapply IH; [|exact F]. eapply lengths_from_step; eauto.
Qed.

Lemma lengths_from_head low buffer :
  lengths_from low buffer → loop_test buffer = true →
  (low ≤ declared buffer)%Z.
Proof. intros H. by apply (H 0 [] buffer). Qed.

Lemma lengths_from_weaken low low' buffer :
  (low' ≤ low)%Z → lengths_from low buffer → lengths_from low' buffer.
Proof. intros Hle H n packs b Hp Ht. specialize (H n packs b Hp Ht). lia. Qed.

(** The passes of the loop on a buffer are the first passes on every
    extension of it, as long as no length is negative. *)
Lemma splitBuffer_app fuel buffer more packs rest :
  splitBuffer fuel buffer = Some (packs, rest) →
  lengths_from 0 (buffer ++ more) →
  passes (length packs) (buffer ++ more) = Some (packs, rest ++ more).
Proof.
  revert buffer packs.
  induction fuel as [|fuel IH]; intros buffer packs; simpl.
  - destruct (splitStep buffer) as [[? ?]|]; [done|]. by intros [= <- <-].
  - destruct (splitStep buffer) as [[pack buffer']|] eqn:E;
      [|by intros [= <- <-]].
    destruct (splitBuffer fuel buffer') as [[packs' rest']|] eqn:F; [|done].
    intros [= <- <-] Hnn.
    destruct (splitStep_Some _ _ _ E) as (Ht & _ & _).
    assert (0 ≤ declared buffer)%Z as H0.
    { pose proof Ht as [H4 _]%loop_test_true.
      rewrite <- (declared_app buffer more) by done.
      apply lengths_from_head; [done|]. by apply loop_test_app. }
    pose proof (splitStep_app _ more _ _ E H0) as E'.
    change (length (pack :: packs')) with (S (length packs')).
    rewrite (passes_S _ _ _ _ E').
    rewrite (IH _ _ F (lengths_from_step _ _ _ _ Hnn E')). done.
Qed.

(** If the loop ends on an extension, it ends on the buffer. *)
Lemma splitBuffer_prefix fuel buffer more r :
  splitBuffer fuel (buffer ++ more) = Some r →
  lengths_from 0 (buffer ++ more) →
  is_Some (splitBuffer fuel buffer).
Proof.
  revert buffer r. induction fuel as [|fuel IH]; intros buffer r; simpl.
  - destruct (splitStep (buffer ++ more)) as [[? ?]|] eqn:E; [done|].
    intros _ _. destruct (splitStep buffer) as [[? ?]|] eqn:F; [|eauto].
    apply splitStep_Some in F as (Ht & _ & _).
    apply (loop_test_app _ more) in Ht. apply splitStep_None in E. congruence.
  - destruct (splitStep buffer) as [[pack buffer']|] eqn:F; [|eauto].
    intros Hs Hnn.
    destruct (splitStep_Some _ _ _ F) as (Ht & _ & _).
    assert (0 ≤ declared buffer)%Z as H0.
    { pose proof Ht as [H4 _]%loop_test_true.
      rewrite <- (declared_app buffer more) by done.
      apply lengths_from_head; [done|]. by apply loop_test_app. }
    pose proof (splitStep_app _ more _ _ F H0) as E'.
    rewrite E' in Hs.
    destruct (splitBuffer fuel (buffer' ++ more)) as [[packs1 rest1]|] eqn:G;
      [|done].
    destruct (IH _ _ G (lengths_from_step _ _ _ _ Hnn E')) as [[? ?] ->].
    eauto.
Qed.

Lemma splitBuffer_idle fuel buffer :
  splitStep buffer = None → splitBuffer fuel buffer = Some ([], buffer).
Proof. intros H. destruct fuel; simpl; rewrite H; done. Qed.

(** Feeding chunk by chunk against splitting the whole stream, from any
    buffer that the loop has left. *)
Lemma feed_whole chunks buffer r :
  splitStep buffer = None →
  lengths_from 0 (buffer ++ concat chunks) →
  (∃ fuel, feed fuel buffer chunks = Some r) ↔
  (∃ fuel, splitBuffer fuel (buffer ++ concat chunks) = Some r).
Proof.
  revert buffer r. induction chunks as [|chunk chunks IH]; intros buffer r Hb Hnn.
  - simpl. rewrite app_nil_r. split; intros [fuel H]; exists fuel.
    + rewrite splitBuffer_idle by done. done.
    + rewrite splitBuffer_idle in H by done. done.
  - simpl in *. rewrite app_assoc in *. unfold onData, concat2. split.
    + intros [fuel H].
      destruct (splitBuffer fuel (buffer ++ chunk)) as [[packs buffer']|] eqn:E;
        [|done].
      destruct (feed fuel buffer' chunks) as [[packs' rest]|] eqn:F; [|done].
      injection H as <-.
      pose proof (splitBuffer_app _ _ (concat chunks) _ _ E Hnn) as Hp.
      destruct (proj1 (IH buffer' (packs', rest)
                  (splitBuffer_settled _ _ _ _ E)
                  (lengths_from_passes _ _ _ _ _ Hnn Hp))) as [fuel' Hs]; [eauto|].
      exists (length packs + fuel'). by apply passes_splitBuffer with (b := buffer' ++ concat chunks).
    + intros [fuel H].
      destruct (splitBuffer_prefix _ _ _ _ H Hnn) as [[packs buffer'] E].
      pose proof (splitBuffer_app _ _ (concat chunks) _ _ E Hnn) as Hp.
      destruct (splitBuffer_passes _ _ _ _ _ _ Hp H) as (packs' & Hr & Hs).
      destruct (proj2 (IH buffer' (packs', r.2)
                  (splitBuffer_settled _ _ _ _ E)
                  (lengths_from_passes _ _ _ _ _ Hnn Hp))) as [fuel' Hf]; [eauto|].
      exists (fuel `max` fuel').
      rewrite (splitBuffer_mono _ (fuel `max` fuel') _ _ E) by lia.
      rewrite (feed_mono _ (fuel `max` fuel') _ _ _ Hf) by lia.
      rewrite Hr. done.
Qed.

End FramerFacts.

Import Buffer Framer.

(** A few streams to run the framer on: two frames of five and four
    bytes followed by one stray byte, the same stream cut inside both
    headers, and a header with the top bit set. *)
Example framer_run_whole :
  splitBuffer 9 [x00; x00; x00; x05; xaa; x00; x00; x00; x04; xbb]
  = Some ([[x00; x00; x00; x05; xaa]; [x00; x00; x00; x04]], [xbb]).
Proof. reflexivity. Qed.

Example framer_run_chunks :
  feed 9 [] [[x00; x00; x00]; [x05; xaa; x00; x00]; [x00; x04; xbb]]
  = Some ([[x00; x00; x00; x05; xaa]; [x00; x00; x00; x04]], [xbb]).
Proof. reflexivity. Qed.

Example framer_run_negative :
  readInt32BE [xff; xff; xff; xff; x01] 0 = Some (-1)%Z.
Proof. reflexivity. Qed.

(** C3, as the design document states it, fails on the code: the stream
    [ff ff ff ff 01] fed whole gives the frame [ff ff ff ff], and fed as
    [ff ff ff ff] followed by [01] gives the frame [ff ff ff]. The header
    reads as -1, and a negative bound of [slice] counts from the end of
    the buffer, which depends on how much has arrived. *)
Lemma chunk_boundary_counterexample :
  concat [[xff; xff; xff; xff]; [x01]] = [xff; xff; xff; xff; x01] ∧
  feed 5 [] [[xff; xff; xff; xff; x01]] = Some ([[xff; xff; xff; xff]], [x01]) ∧
  feed 5 [] [[xff; xff; xff; xff]; [x01]] = Some ([[xff; xff; xff]], [xff; x01]).
Proof. repeat split; reflexivity. Qed.

(** C3, amended: for every byte stream on which the loop reads no
    negative length, and for every way of cutting it into chunks, feeding
    the chunks one by one ends exactly when feeding the whole stream as one
    chunk ends, with the same frames in the same order and the same bytes
    left over. One chunk can yield no frame, one frame or several, and a
    frame can span several chunks. *)
Theorem chunk_boundary_independence :
  (∀ (chunks : list (list byte)) (r : list (list byte) * list byte),
     lengths_from 0 (concat chunks) →
     (∃ fuel, feed fuel [] chunks = Some r) ↔
     (∃ fuel, feed fuel [] [concat chunks] = Some r)) ∧
  feed 1 [] [[x00; x00; x00]] = Some ([], [x00; x00; x00]) ∧
  feed 1 [] [[x00; x00; x00; x04]] = Some ([[x00; x00; x00; x04]], []) ∧
  feed 2 [] [[x00; x00; x00; x04; x00; x00; x00; x05; xaa]]
    = Some ([[x00; x00; x00; x04]; [x00; x00; x00; x05; xaa]], []) ∧
  feed 1 [] [[x00; x00]; [x00]; [x05; xaa]]
    = Some ([[x00; x00; x00; x05; xaa]], []).
Proof.
  split; [|repeat split; reflexivity].
  intros chunks r Hnn.
  rewrite (feed_whole chunks [] r) by done. simpl.
  unfold onData, concat2. simpl.
  split; intros [fuel H]; exists fuel.
  - rewrite H. destruct r as [packs rest]. by rewrite app_nil_r.
  - destruct (splitBuffer fuel (concat chunks)) as [[packs rest]|]; [|done].
    rewrite app_nil_r in H. done.
Qed.

Lemma lengths_from_example low :
  (low ≤ 4)%Z →
  lengths_from low [x00; x00; x00; x05; xaa; x00; x00; x00; x04; xbb].
Proof.
  intros Hlow n packs b Hp Ht.
  destruct n as [|[|[|n]]]; vm_compute in Hp; try discriminate;
    injection Hp as <- <-; vm_compute in Ht; try discriminate;
    change (declared _) with 5%Z || change (declared _) with 4%Z; lia.
Qed.

Lemma chunk_boundary_independence_witness :
  lengths_from 0 (concat [[x00; x00; x00]; [x05; xaa; x00; x00]; [x00; x04; xbb]]) ∧
  ((∃ fuel, feed fuel [] [[x00; x00; x00]; [x05; xaa; x00; x00]; [x00; x04; xbb]]
            = Some ([[x00; x00; x00; x05; xaa]; [x00; x00; x00; x04]], [xbb])) ↔
   (∃ fuel, feed fuel [] [concat [[x00; x00; x00]; [x05; xaa; x00; x00]; [x00; x04; xbb]]]
            = Some ([[x00; x00; x00; x05; xaa]; [x00; x00; x00; x04]], [xbb]))).
Proof.
  split.
  - apply (lengths_from_example 0). lia.
  - apply (proj1 chunk_boundary_independence).
    apply (lengths_from_example 0). lia.
Defined.

(** C4, as the design document states it, fails on the code: on the buffer
    [ff ff ff ff 01] the unsigned length is 4294967295, far more than the
    five bytes at hand, so the framer of the document waits; the code reads
    -1, finds it below the buffer length, and emits a frame. *)
Lemma unsigned_length_counterexample :
  readUInt32BE [xff; xff; xff; xff; x01] 0 = Some 4294967295%Z ∧
  splitStep_unsigned [xff; xff; xff; xff; x01] = None ∧
  splitStep [xff; xff; xff; xff; x01] = Some ([xff; xff; xff; xff], [x01]).
Proof. repeat split; reflexivity. Qed.

(** C4, amended: the framer reads the first four bytes of the accumulated
    buffer as a big-endian signed (two's-complement) 32-bit length. A pass
    of the loop runs exactly when the buffer holds at least four bytes and
    that signed length is at most the buffer length; when the length is
    moreover not negative, the pass slices off exactly that many bytes as
    one frame and keeps the bytes after them. The loop repeats the pass
    and stops when fewer than four bytes remain or the signed length
    exceeds the buffer. *)
Theorem signed_length_framing (buffer : list byte) :
  (4 ≤ length buffer →
   ∃ u, readUInt32BE buffer 0 = Some u ∧ (0 ≤ u < 2 ^ 32)%Z ∧
        declared buffer = if (u <? 2 ^ 31)%Z then u else (u - 2 ^ 32)%Z) ∧
  (splitStep buffer = None ↔
   length buffer < 4 ∨ (Z.of_nat (length buffer) < declared buffer)%Z) ∧
  (4 ≤ length buffer →
   (0 ≤ declared buffer ≤ Z.of_nat (length buffer))%Z →
   ∃ pack rest,
     splitStep buffer = Some (pack, rest) ∧
     buffer = pack ++ rest ∧
     Z.of_nat (length pack) = declared buffer) ∧
  (∀ fuel,
     splitBuffer (S fuel) buffer =
       match splitStep buffer with
       | None => Some ([], buffer)
       | Some (pack, rest) =>
           (λ r : list (list byte) * list byte, (pack :: r.1, r.2))
             <$> splitBuffer fuel rest
       end).
Proof.
  repeat split.
  - intros H4. destruct (readInt32BE_is_Some buffer H4) as [n Hn].
    pose proof Hn as Hn'. rewrite readInt32BE_unsigned in Hn'.
    destruct (readUInt32BE buffer 0) as [u|] eqn:Hu; [|done].
    injection Hn' as <-. exists u.
    pose proof (readUInt32BE_range _ _ _ Hu) as Hr.
    split; [done|]. split; [done|].
    unfold declared. rewrite Hn. simpl.
    destruct (Z.ltb_spec u (2 ^ 31)).
    + apply toInt32_small. lia.
    + apply toInt32_large. lia.
  - rewrite splitStep_None. apply loop_test_false.
  - rewrite splitStep_None. apply loop_test_false.
  - intros H4 Hd.
    assert (loop_test buffer = true) as Ht by (apply loop_test_true; lia).
    eexists _, _. rewrite splitStep_cut by (assumption || lia).
    split; [done|]. rewrite take_drop. split; [done|].
    rewrite length_take. lia.
  - intros fuel. simpl.
    destruct (splitStep buffer) as [[pack rest]|]; [|done].
    by destruct (splitBuffer fuel rest) as [[? ?]|].
Qed.

Lemma signed_length_framing_witness :
  ∃ pack rest,
    splitStep [x00; x00; x00; x05; xaa; x00; x00] = Some (pack, rest) ∧
    [x00; x00; x00; x05; xaa; x00; x00] = pack ++ rest ∧
    Z.of_nat (length pack) = declared [x00; x00; x00; x05; xaa; x00; x00].
Proof.
  apply (signed_length_framing [x00; x00; x00; x05; xaa; x00; x00]).
  - simpl. lia.
  - vm_compute. split; discriminate.
Defined.


(** ** What an emission can change *)

(** A relation between the world before and after that every elementary
    effect of a listener respects is respected by a whole emission. *)
Section Emission.
Variable encoder : operation → list byte.
Context (P : world → world → Prop) `{!Respected P}.

Lemma clearTimeout_respects h w : P w (clearTimeout h w).
Proof. destruct h; simpl; [apply respects_clear|apply respects_refl]. Qed.

Lemma resolve_respects p a w : P w (resolve p a w).
Proof.
  unfold resolve. destruct (promises w !! p) eqn:E.
  - apply respects_refl.
  - by apply respects_resolve.
Qed.

Lemma run_listener_respects nested c args l w :
  (∀ args w, P w (nested args w)) →
  P w (run_listener encoder nested c args l w).
Proof.
  intros Hn. destruct l; unfold run_listener.
  - apply respects_await.
  - apply respects_record.
  - apply clearTimeout_respects.
  - eapply respects_trans; [|apply Hn]. apply respects_record.
  - apply resolve_respects.
  - apply respects_refl.
  - apply respects_record.
  - destruct (keep w) as [k|]; [|apply respects_refl].
    destruct (Keep.closed k); [apply respects_refl|apply respects_setTimeout].
  - destruct (keep w) as [k|]; [|apply respects_refl].
    destruct (setTimeout _ _ _) as [t w2] eqn:E.
    eapply respects_trans; [apply clearTimeout_respects|].
    eapply respects_trans; [|apply respects_liveness].
    replace w2 with (setTimeout (CallTimeout c) (Keep.timeout k)
                       (clearTimeout (liveness w !! c) w)).2 by (by rewrite E).
    apply respects_setTimeout.
  - apply clearTimeout_respects.
Qed.

Lemma call_listener_respects nested c args l w :
  (∀ args w, P w (nested args w)) →
  P w (call_listener encoder nested c args w l).
Proof.
  intros Hn. unfold call_listener.
  eapply respects_trans; [|by apply run_listener_respects].
  destruct l; unfold is_once; try apply respects_refl. apply respects_remove.
Qed.

Lemma foldl_call_listener_respects nested c args ls w :
  (∀ args w, P w (nested args w)) →
  P w (foldl (call_listener encoder nested c args) w ls).
Proof.
  intros Hn. revert w.
  induction ls as [|l ls IH]; intros w; simpl; [apply respects_refl|].
  eapply respects_trans; [|apply IH]. by apply call_listener_respects.
Qed.

Lemma foldl_relay_respects A (ls : list A) name args w :
  P w (foldl (λ w _, record (Emit Supervisor name args) w) w ls).
Proof.
  revert w. induction ls as [|l ls IH]; intros w; simpl; [apply respects_refl|].
  eapply respects_trans; [|apply IH]. apply respects_record.
Qed.

Lemma emit_with_respects nested c name args w :
  (∀ args w, P w (nested args w)) →
  P w (emit_with encoder nested c name args w).
Proof.
  intros Hn. unfold emit_with.
  eapply respects_trans; [|apply foldl_relay_respects].
  eapply respects_trans; [|by apply foldl_call_listener_respects].
  apply respects_record.
Qed.

Lemma emit_error_respects c args w : P w (emit_error encoder c args w).
Proof. apply emit_with_respects. intros. apply respects_refl. Qed.

Lemma emit_respects c name args w : P w (emit encoder c name args w).
Proof. apply emit_with_respects. intros. apply emit_error_respects. Qed.

End Emission.

(** *** Instances *)

Lemma standing_remove_once p ls :
  standing (remove_listener (OnceResolve p) ls) = standing ls.
Proof.
  unfold standing, remove_listener.
  induction ls as [|l ls IH]; [done|].
  rewrite !filter_cons.
  destruct (decide (negb (listener_eqb (OnceResolve p) l) = true)) as [H|H].
  - rewrite filter_cons, IH. done.
  - rewrite IH. destruct l; simpl in H; done.
Qed.

Lemma frame_remove_once p s :
  frame (set_listeners (remove_listener (OnceResolve p)) s) = frame s.
Proof. unfold frame. simpl. by rewrite standing_remove_once. Qed.

#[local] Instance steady_respected : Respected steady.
Proof.
  split; unfold steady; try done.
  - intros w1 w2 w3 (-> & -> & H12) (-> & -> & H23). repeat split; try done.
    intros c'. by rewrite H23.
  - intros c' p w'. repeat split; try done. intros c''. simpl.
    destruct (decide (c' = c'')) as [->|Hne].
    + rewrite lookup_alter_eq. destruct (sessions w' !! c''); [|done].
      simpl. by rewrite frame_remove_once.
    + by rewrite lookup_alter_ne.
Qed.

Lemma extends_same w w' : log w' = log w → extends w w'.
Proof. intros H. exists []. by rewrite app_nil_r. Qed.

#[local] Instance extends_respected : Respected extends.
Proof.
  split; auto using extends_same.
  - intros w1 w2 w3 [l1 H1] [l2 H2]. exists (l1 ++ l2).
    by rewrite H2, H1, app_assoc.
  - intros a w'. by exists [a].
Qed.

(** *** The log of an emission *)

Section EmissionLog.
Variable encoder : operation → list byte.

Lemma log_clearTimeout h w : log (clearTimeout h w) = log w.
Proof. by destruct h. Qed.

Lemma log_resolve p a w : log (resolve p a w) = log w.
Proof. unfold resolve. by destruct (promises w !! p). Qed.

Lemma log_call_listener_quiet nested c args w l :
  quiet l = true →
  log (call_listener encoder nested c args w l) = log w.
Proof.
  intros Hq. destruct l; try discriminate; unfold call_listener; simpl;
    rewrite ?log_clearTimeout, ?log_resolve; try done.
  - destruct (keep w) as [k|]; [|done]. by destruct (Keep.closed k).
  - destruct (keep w) as [k|]; [|done]. simpl.
    rewrite ?log_clearTimeout. done.
Qed.

Lemma log_foldl_quiet nested c args ls w :
  Forall (λ l, quiet l = true) ls →
  log (foldl (call_listener encoder nested c args) w ls) = log w.
Proof.
  intros H. revert w. induction H as [|l ls Hl _ IH]; intros w; simpl; [done|].
  rewrite IH. by apply log_call_listener_quiet.
Qed.

Lemma log_foldl_relay A (ls : list A) name args w :
  log (foldl (λ w _, record (Emit Supervisor name args) w) w ls)
  = log w ++ ((λ _, Emit Supervisor name args) <$> ls).
Proof.
  revert w. induction ls as [|l ls IH]; intros w; simpl.
  - by rewrite app_nil_r.
  - rewrite IH. simpl. by rewrite <- app_assoc.
Qed.

Lemma on_relay_standing ls :
  filter (λ l, on_relay l = true) (standing ls)
  = filter (λ l, on_relay l = true) ls.
Proof.
  unfold standing. induction ls as [|l ls IH]; [done|].
  rewrite !filter_cons.
  destruct (decide (is_once l = false)) as [H|H].
  - rewrite filter_cons, IH. done.
  - rewrite IH. destruct l; simpl in H; done.
Qed.

Lemma steady_listeners w w' c :
  steady w w' →
  standing (session_listeners c w') = standing (session_listeners c w).
Proof.
  intros (_ & _ & H). specialize (H c). unfold session_listeners.
  destruct (sessions w' !! c) as [s'|], (sessions w !! c) as [s|];
    simpl in *; try done.
  injection H as _ _ _ _ _ H. done.
Qed.

Lemma steady_relayed w w' c name args :
  steady w w' →
  relayed (session_listeners c w') name args
  = relayed (session_listeners c w) name args.
Proof.
  intros H. unfold relayed.
  rewrite <- (on_relay_standing (session_listeners c w')).
  rewrite (steady_listeners _ _ _ H), on_relay_standing. done.
Qed.

(** The general shape of the log of an emission: the call itself, what
    the listeners of the name do, and the copies on the relay channel. *)
Lemma log_emit_with nested c name args w :
  (∀ args w, steady w (nested args w)) →
  log (emit_with encoder nested c name args w)
  = log (foldl (call_listener encoder nested c args)
           (record (Emit (Session c) name args) w)
           (filter (λ l, selected name l = true) (session_listeners c w)))
    ++ relayed (session_listeners c w) name args.
Proof.
  intros Hn. unfold emit_with. rewrite log_foldl_relay. f_equal.
  change (session_listeners c (record (Emit (Session c) name args) w))
    with (session_listeners c w).
  apply (steady_relayed w).
  eapply respects_trans; [apply (respects_record (Emit (Session c) name args))|].
  apply (foldl_call_listener_respects encoder steady). exact Hn.
Qed.

(** An emission under a name that only quiet listeners hear. *)
Lemma log_emit_quiet c name args w :
  (∀ l, selected name l = true → quiet l = true) →
  log (emit encoder c name args w)
  = log w ++ Emit (Session c) name args
      :: relayed (session_listeners c w) name args.
Proof.
  intros Hq. unfold emit. rewrite log_emit_with.
  - rewrite log_foldl_quiet.
    + simpl. by rewrite <- app_assoc.
    + apply Forall_forall. intros l [Hl _]%list_elem_of_filter. auto.
  - intros. apply emit_error_respects. apply _.
Qed.

End EmissionLog.

(** ** The session *)

Arguments emit_with : simpl never.
Arguments emit_error : simpl never.
Arguments emit : simpl never.
Arguments dispatch : simpl never.

Section SessionFacts.
Variable encoder : operation → list byte.

Lemma steady_lookup w w' c s :
  steady w w' → sessions w !! c = Some s →
  ∃ s', sessions w' !! c = Some s' ∧ frame s' = frame s.
Proof.
  intros (_ & _ & H) Hs. specialize (H c). rewrite Hs in H.
  destruct (sessions w' !! c) as [s'|]; [|discriminate].
  exists s'. split; [reflexivity|]. simpl in H. congruence.
Qed.

Lemma frame_relayed s s' name args :
  frame s' = frame s →
  relayed (Live.listeners s') name args = relayed (Live.listeners s) name args.
Proof.
  intros H. unfold relayed.
  rewrite <- (on_relay_standing (Live.listeners s')).
  rewrite <- (on_relay_standing (Live.listeners s)).
  unfold frame in H. injection H as _ _ _ _ _ H. by rewrite H.
Qed.

Lemma session_listeners_lookup w c s :
  sessions w !! c = Some s → session_listeners c w = Live.listeners s.
Proof. intros H. unfold session_listeners. by rewrite H. Qed.

Lemma unheard_live l : selected (VString "live") l = true → quiet l = true.
Proof. by destruct l. Qed.

Lemma heard_heartbeat l :
  selected (VString "heartbeat") l = true → quiet l = true.
Proof. by destruct l. Qed.

Lemma sessions_clearTimeout h w : sessions (clearTimeout h w) = sessions w.
Proof. by destruct h. Qed.

Lemma promises_clearTimeout h w : promises (clearTimeout h w) = promises w.
Proof. by destruct h. Qed.

(** The emission of an event that only quiet listeners hear, seen from
    one session. *)
Lemma emit_quiet_session c name args w s :
  (∀ l, selected name l = true → quiet l = true) →
  sessions w !! c = Some s →
  ∃ s',
    sessions (emit encoder c name args w) !! c = Some s' ∧
    frame s' = frame s ∧
    log (emit encoder c name args w)
    = log w ++ Emit (Session c) name args
        :: relayed (Live.listeners s) name args.
Proof.
  intros Hq Hs.
  destruct (steady_lookup w (emit encoder c name args w) c s
              (emit_respects encoder steady c name args w) Hs) as (s' & Hs' & Hf).
  exists s'. split; [exact Hs'|]. split; [exact Hf|].
  rewrite (log_emit_quiet encoder c name args w Hq).
  by rewrite (session_listeners_lookup _ _ _ Hs).
Qed.

(** What a welcome packet does. *)
Lemma dispatch_welcome c d w :
  dispatch encoder c {| type := "welcome"; data := d |} w
  = Done (send c (encoder OpHeartbeat)
            (emit encoder c (VString "live") []
               (update_session c (set_live true) w))).
Proof. reflexivity. Qed.

Lemma dispatch_heartbeat c v w :
  dispatch encoder c {| type := "heartbeat"; data := v |} w
  = Done (emit encoder c (VString "heartbeat")
            [AValue (session_online c (beat c v w))] (beat c v w)).
Proof. reflexivity. Qed.

Lemma beat_spec c v w s :
  sessions w !! c = Some s →
  sessions (beat c v w) !! c
  = Some (set_timeout (Some (timer_count w)) (set_online v s)) ∧
  session_online c (beat c v w) = v ∧
  session_listeners c (beat c v w) = Live.listeners s ∧
  promises (beat c v w) = promises w ∧
  log (beat c v w) = log w ∧
  timers (beat c v w) !! timer_count w = Some (CallHeartbeat c, 30000%Z).
Proof.
  intros Hs. unfold beat. cbv zeta.
  assert (sessions (update_session c (set_timeout (Some (timer_count
            (clearTimeout (session_timeout c (update_session c (set_online v) w))
               (update_session c (set_online v) w)))))
            (setTimeout (CallHeartbeat c) 30000
               (clearTimeout (session_timeout c (update_session c (set_online v) w))
                  (update_session c (set_online v) w))).2) !! c
          = Some (set_timeout (Some (timer_count w)) (set_online v s))) as H.
  { destruct (session_timeout c (update_session c (set_online v) w));
      simpl; rewrite !lookup_alter_eq, Hs; reflexivity. }
  split; [exact H|]. split; [|split].
  - unfold session_online. rewrite H. reflexivity.
  - unfold session_listeners. rewrite H. reflexivity.
  - destruct (session_timeout c (update_session c (set_online v) w)); simpl.
    + split; [reflexivity|]. split; [reflexivity|]. apply lookup_insert_eq.
    + split; [reflexivity|]. split; [reflexivity|]. apply lookup_insert_eq.
Qed.

End SessionFacts.

(** C5: a session that is handed a welcome packet followed by a heartbeat
    packet with the count 42 ends up live, with [online] reading 42. Its
    log grows by exactly this, in this order: the [live] event (passed on
    by the wrapper if there is one), the heartbeat request handed to
    [send], and the [heartbeat] event carrying 42 (passed on likewise). *)
Theorem welcome_then_heartbeat
    (encoder : operation → list byte) (c : nat) (s : Live.t) (w : world)
    (d : value) :
  sessions w !! c = Some s →
  ∃ w',
    forEach encoder c
      [ {| type := "welcome"; data := d |};
        {| type := "heartbeat"; data := VNumber (number_of_Z 42) |} ] w
    = Done w' ∧
    Live.live <$> sessions w' !! c = Some true ∧
    Live.online <$> sessions w' !! c = Some (VNumber (number_of_Z 42)) ∧
    log w' =
      log w
      ++ Emit (Session c) (VString "live") []
         :: relayed (Live.listeners s) (VString "live") []
      ++ Send c (encoder OpHeartbeat)
         :: Emit (Session c) (VString "heartbeat") [AValue (VNumber (number_of_Z 42))]
         :: relayed (Live.listeners s) (VString "heartbeat")
              [AValue (VNumber (number_of_Z 42))].
Proof.
  intros Hs.
  generalize (VNumber (number_of_Z 42)). intros n42.
  cbn [forEach]. rewrite dispatch_welcome.
  pose (wa := update_session c (set_live true) w).
  assert (sessions wa !! c = Some (set_live true s)) as Ha.
  { unfold wa. cbn [update_session set_sessions sessions].
    rewrite lookup_alter_eq, Hs. reflexivity. }
  fold wa.
  destruct (emit_quiet_session encoder c (VString "live") [] wa _
              unheard_live Ha) as (sb & Hb & Hfb & Hlb).
  change (log wa) with (log w) in Hlb.
  change (Live.listeners (set_live true s)) with (Live.listeners s) in Hlb.
  clearbody wa.
  set (wb := emit encoder c (VString "live") [] wa) in *. clearbody wb.
  set (wc := send c (encoder OpHeartbeat) wb).
  assert (sessions wc !! c = Some sb) as Hc by exact Hb.
  assert (log wc = log wb ++ [Send c (encoder OpHeartbeat)]) as Hlc
    by reflexivity.
  clearbody wc. cbv iota beta.
  rewrite dispatch_heartbeat.
  destruct (beat_spec c n42 wc sb Hc) as (H4 & Ho & Hl4 & _ & Hlog4 & _).
  rewrite Ho.
  set (w4 := beat c n42 wc) in *. clearbody w4.
  destruct (emit_quiet_session encoder c (VString "heartbeat") [AValue n42] w4 _
              heard_heartbeat H4) as (s5 & H5 & Hf5 & Hl5).
  set (w5 := emit encoder c (VString "heartbeat") [AValue n42] w4) in *.
  clearbody w5.
  exists w5. split; [reflexivity|]. rewrite H5.
  unfold frame in Hf5, Hfb. cbn in Hf5, Hfb.
  injection Hf5 as _ Honline Hlive _ _ _.
  injection Hfb as _ _ Hlive' _ _ Hst.
  split; [cbn; congruence|]. split; [cbn; congruence|].
  rewrite Hl5, Hlog4, Hlc, Hlb.
  change (Live.listeners (set_timeout (Some (timer_count wc)) (set_online n42 sb)))
    with (Live.listeners sb).
  rewrite <- !app_assoc. cbn [app]. do 4 f_equal.
  unfold relayed.
  rewrite <- (on_relay_standing (Live.listeners sb)), Hst, on_relay_standing.
  reflexivity.
Qed.
Lemma welcome_then_heartbeat_witness :
  is_Some (sessions demo_keep !! 0) ∧
  ∃ w',
    forEach demo_encoder 0
      [ {| type := "welcome"; data := VUndefined |};
        {| type := "heartbeat"; data := VNumber (number_of_Z 42) |} ] demo_keep
    = Done w' ∧
    Live.live <$> sessions w' !! 0 = Some true ∧
    Live.online <$> sessions w' !! 0 = Some (VNumber (number_of_Z 42)) ∧
    log w' =
      log demo_keep
      ++ [ Emit (Session 0) (VString "live") [];
           Emit Supervisor (VString "live") [];
           Send 0 [x02];
           Emit (Session 0) (VString "heartbeat") [AValue (VNumber (number_of_Z 42))];
           Emit Supervisor (VString "heartbeat") [AValue (VNumber (number_of_Z 42))] ].
Proof.
  split; [by eexists|].
  destruct (welcome_then_heartbeat demo_encoder 0
              (Live.mk room_1 (VNumber (S754_zero false)) false None
                 (Live_listeners ++ Keep_listeners) (LiveWS default_address))
              demo_keep VUndefined eq_refl) as (w' & H1 & H2 & H3 & H4).
  exists w'. split; [exact H1|]. split; [exact H2|]. split; [exact H3|].
  rewrite H4. reflexivity.
Defined.

(** *** Promises of [getOnline] *)

#[local] Instance keeps_promises_respected : Respected keeps_promises.
Proof.
  split; unfold keeps_promises; try done.
  - intros w1 w2 w3 [-> H12] [-> H23]. split; [done|]. auto.
  - intros p a w Hp. split; [done|]. intros q b Hq. simpl.
    rewrite lookup_insert_ne; [done|]. congruence.
Qed.

Lemma listeners_update_session c f w c' :
  default [] (Live.listeners <$> sessions (update_session c (set_listeners f) w) !! c')
  = if decide (c = c')
    then match sessions w !! c' with
         | Some s => f (Live.listeners s)
         | None => []
         end
    else default [] (Live.listeners <$> sessions w !! c').
Proof.
  simpl. destruct (decide (c = c')) as [->|Hne].
  - rewrite lookup_alter_eq. by destruct (sessions w !! c').
  - by rewrite lookup_alter_ne.
Qed.

#[local] Instance sheds_respected : Respected sheds.
Proof.
  split; unfold sheds; try done.
  - intros w1 w2 w3 H12 H23 c l Hl. auto.
  - intros c p w c' l. rewrite listeners_update_session.
    destruct (decide (c = c')) as [->|]; [|done].
    destruct (sessions w !! c'); [|done]. simpl.
    unfold remove_listener. intros [_ H]%list_elem_of_filter. done.
Qed.

#[local] Instance listener_eq_dec : EqDecision listener.
Proof. solve_decision. Defined.

Lemma listener_eqb_refl l : listener_eqb l l = true.
Proof. destruct l; simpl; try done. apply Nat.eqb_refl. Qed.

Section Promises.
Variable encoder : operation → list byte.

Lemma getOnline_spec c s w :
  sessions w !! c = Some s →
  ∃ w',
    getOnline encoder c w = (promise_count w, w') ∧
    promises w' = promises w ∧
    promise_count w' = S (promise_count w) ∧
    sessions w' !! c
      = Some (set_listeners (λ ls, ls ++ [OnceResolve (promise_count w)]) s) ∧
    log w' = log w ++ [Send c (encoder OpHeartbeat)].
Proof.
  intros Hs. eexists. split; [reflexivity|]. simpl.
  rewrite lookup_alter_eq, Hs. done.
Qed.

Lemma getOnline_times_spec n c s w :
  sessions w !! c = Some s →
  ∃ w',
    getOnline_times encoder n c w = (seq (promise_count w) n, w') ∧
    promises w' = promises w ∧
    promise_count w' = promise_count w + n ∧
    session_listeners c w'
      = Live.listeners s ++ (OnceResolve <$> seq (promise_count w) n) ∧
    is_Some (sessions w' !! c) ∧
    log w' = log w ++ replicate n (Send c (encoder OpHeartbeat)).
Proof.
  revert s w. induction n as [|n IH]; intros s w Hs.
  - exists w. cbn [getOnline_times seq fmap list_fmap replicate].
    rewrite !app_nil_r, Nat.add_0_r.
    rewrite (session_listeners_lookup _ _ _ Hs). eauto 10.
  - destruct (getOnline_spec c s w Hs) as (w1 & Hg & Hp & Hc & Hs1 & Hl).
    destruct (IH _ _ Hs1) as (w2 & Hg2 & Hp2 & Hc2 & Hl2 & Hs2 & Hlog2).
    exists w2. cbn [getOnline_times]. rewrite Hg, Hg2, Hc.
    split; [reflexivity|]. split; [congruence|]. split; [lia|].
    split; [|split; [exact Hs2|]].
    + rewrite Hl2, Hc. cbn [set_listeners Live.listeners seq fmap list_fmap].
      rewrite <- app_assoc. reflexivity.
    + rewrite Hlog2, Hl. cbn [replicate]. rewrite <- app_assoc. reflexivity.
Qed.

Lemma promises_call_listener_other nested c args w l p :
  selected (VString "heartbeat") l = true → l ≠ OnceResolve p →
  promises w !! p = None →
  promises (call_listener encoder nested c args w l) !! p = None.
Proof.
  intros Hsel Hne Hp. destruct l; try discriminate; unfold call_listener; simpl.
  - unfold resolve. simpl. destruct (promises w !! p0); [done|]. simpl.
    rewrite lookup_insert_ne; [done|]. congruence.
  - destruct (keep w); [|done]. simpl. by destruct (liveness w !! c).
Qed.

Lemma foldl_resolves nested c args p ls w :
  (∀ args w, keeps_promises w (nested args w)) →
  (∀ args w, sheds w (nested args w)) →
  Forall (λ l, selected (VString "heartbeat") l = true) ls →
  OnceResolve p ∈ ls →
  promises w !! p = None →
  let w' := foldl (call_listener encoder nested c args) w ls in
  promises w' !! p = Some (first_arg args) ∧
  OnceResolve p ∉ session_listeners c w'.
Proof.
  intros Hn2 Hn3 Hsel. revert w.
  induction Hsel as [|l ls Hl Hsel IH]; intros w Hin Hp; [by inversion Hin|].
  simpl. destruct (decide (l = OnceResolve p)) as [->|Hne].
  - set (w1 := call_listener encoder nested c args w (OnceResolve p)).
    assert (promises w1 !! p = Some (first_arg args)) as H1.
    { unfold w1, call_listener. simpl. unfold resolve. simpl. rewrite Hp.
      simpl. by rewrite lookup_insert_eq. }
    assert (OnceResolve p ∉ session_listeners c w1) as H2.
    { unfold w1, call_listener, session_listeners. simpl.
      unfold resolve. simpl. rewrite Hp. simpl. rewrite lookup_alter_eq.
      destruct (sessions w !! c) as [s|]; simpl; [|by inversion 1].
      unfold remove_listener. intros [H _]%list_elem_of_filter.
      by rewrite listener_eqb_refl in H. }
    split.
    + by apply (foldl_call_listener_respects encoder keeps_promises
                  nested c args ls w1 Hn2).
    + intros H. apply H2.
      by apply (foldl_call_listener_respects encoder sheds
                  nested c args ls w1 Hn3 c).
  - apply IH.
    + apply elem_of_cons in Hin as [|]; [congruence|done].
    + by apply promises_call_listener_other.
Qed.

Lemma emit_heartbeat_resolves c args w p :
  OnceResolve p ∈ session_listeners c w →
  promises w !! p = None →
  let w' := emit encoder c (VString "heartbeat") args w in
  promises w' !! p = Some (first_arg args) ∧
  OnceResolve p ∉ session_listeners c w'.
Proof.
  intros Hin Hp. unfold emit, emit_with.
  set (w1 := record _ w).
  set (ls := filter _ (session_listeners c w1)).
  destruct (foldl_resolves (emit_error encoder c) c args p ls w1) as [H1 H2].
  - intros. apply emit_error_respects. apply _.
  - intros. apply emit_error_respects. apply _.
  - apply Forall_forall. by intros l [Hl _]%list_elem_of_filter.
  - apply list_elem_of_filter. split; [done|]. done.
  - done.
  - set (w2 := foldl _ w1 ls) in *.
    pose proof (foldl_relay_respects keeps_promises listener
                  (filter (λ l, on_relay l = true) (session_listeners c w2))
                  (VString "heartbeat") args w2) as [_ Hk].
    pose proof (foldl_relay_respects sheds listener
                  (filter (λ l, on_relay l = true) (session_listeners c w2))
                  (VString "heartbeat") args w2) as Hsh.
    split.
    + by apply Hk.
    + intros H. apply H2. by apply (Hsh c).
Qed.

End Promises.

(** C6: when [getOnline()] is called any number of times in a row on a
    session, each call hands a heartbeat request to [send] and returns a
    promise of its own, all of them pending and each waiting with its own
    one-shot listener. One heartbeat packet with the count 7 then settles
    every one of these promises with 7 and takes their listeners off. *)
Theorem getOnline_all_resolve
    (encoder : operation → list byte) (c n : nat) (s : Live.t) (w : world) :
  sessions w !! c = Some s →
  promises_wf w →
  ∃ ps w1 w2,
    getOnline_times encoder n c w = (ps, w1) ∧
    dispatch encoder c
      {| type := "heartbeat"; data := VNumber (number_of_Z 7) |} w1 = Done w2 ∧
    length ps = n ∧ NoDup ps ∧
    log w1 = log w ++ replicate n (Send c (encoder OpHeartbeat)) ∧
    (∀ p, p ∈ ps →
       promises w1 !! p = None ∧ OnceResolve p ∈ session_listeners c w1) ∧
    (∀ p, p ∈ ps →
       promises w2 !! p = Some (AValue (VNumber (number_of_Z 7))) ∧
       OnceResolve p ∉ session_listeners c w2).
Proof.
  intros Hs Hwf.
  generalize (VNumber (number_of_Z 7)). intros v7.
  destruct (getOnline_times_spec encoder n c s w Hs)
    as (w1 & Hg & Hp & Hc & Hl & [s1 Hs1] & Hlog).
  set (ps := seq (promise_count w) n) in *.
  assert (∀ p, p ∈ ps →
            promises w1 !! p = None ∧ OnceResolve p ∈ session_listeners c w1)
    as Hpending.
  { intros p Hin. split.
    - rewrite Hp. apply Hwf. apply elem_of_seq in Hin. lia.
    - rewrite Hl. apply elem_of_app. right. by apply list_elem_of_fmap_2. }
  destruct (beat_spec c v7 w1 s1 Hs1) as (_ & Ho & Hld & Hpd & _ & _).
  assert (session_listeners c (beat c v7 w1) = session_listeners c w1) as Hld'.
  { rewrite Hld. symmetry. by apply session_listeners_lookup. }
  exists ps, w1, (emit encoder c (VString "heartbeat") [AValue v7] (beat c v7 w1)).
  split; [exact Hg|].
  split; [rewrite dispatch_heartbeat, Ho; reflexivity|].
  split; [apply length_seq|]. split; [apply NoDup_seq|].
  split; [exact Hlog|]. split; [exact Hpending|].
  intros p Hin. destruct (Hpending p Hin) as [Hnone Hon].
  apply (emit_heartbeat_resolves encoder c [AValue v7] (beat c v7 w1) p).
  - by rewrite Hld'.
  - by rewrite Hpd.
Qed.

Lemma getOnline_all_resolve_witness :
  is_Some (sessions demo_session !! 0) ∧ promises_wf demo_session ∧
  ∃ ps w1 w2,
    getOnline_times demo_encoder 2 0 demo_session = (ps, w1) ∧
    dispatch demo_encoder 0
      {| type := "heartbeat"; data := VNumber (number_of_Z 7) |} w1 = Done w2 ∧
    length ps = 2 ∧ NoDup ps ∧
    log w1 = log demo_session ++ replicate 2 (Send 0 (demo_encoder OpHeartbeat)) ∧
    (∀ p, p ∈ ps →
       promises w1 !! p = None ∧ OnceResolve p ∈ session_listeners 0 w1) ∧
    (∀ p, p ∈ ps →
       promises w2 !! p = Some (AValue (VNumber (number_of_Z 7))) ∧
       OnceResolve p ∉ session_listeners 0 w2).
Proof.
  split; [by eexists|]. split; [by intros p _|].
  eapply (getOnline_all_resolve demo_encoder 0 2 _ demo_session).
  - reflexivity.
  - by intros p _.
Defined.

Example getOnline_twice :
  ∃ w1 w2,
    getOnline_times demo_encoder 2 0 demo_session = ([0; 1], w1) ∧
    dispatch demo_encoder 0
      {| type := "heartbeat"; data := VNumber (number_of_Z 7) |} w1 = Done w2 ∧
    promises w1 !! 0 = None ∧ promises w1 !! 1 = None ∧
    promises w2 !! 0 = Some (AValue (VNumber (number_of_Z 7))) ∧
    promises w2 !! 1 = Some (AValue (VNumber (number_of_Z 7))).
Proof. eexists _, _. repeat split; reflexivity. Qed.

(** *** Routing of message packets *)

Section Routing.
Variable encoder : operation → list byte.

Lemma unheard_msg l : selected (VString "msg") l = true → quiet l = true.
Proof. by destruct l. Qed.

Lemma log_emit_head c name args w :
  ∃ tail, log (emit encoder c name args w)
          = log w ++ Emit (Session c) name args :: tail.
Proof.
  unfold emit, emit_with.
  set (w1 := record (Emit (Session c) name args) w).
  set (ls := filter _ (session_listeners c w1)).
  destruct (foldl_call_listener_respects encoder extends
              (emit_error encoder c) c args ls w1) as [m1 H1].
  { intros. apply emit_error_respects. apply _. }
  set (w2 := foldl _ w1 ls) in *.
  destruct (foldl_relay_respects extends _
              (filter (λ l, on_relay l = true) (session_listeners c w2))
              name args w2) as [m2 H2].
  exists (m1 ++ m2). rewrite H2, H1. simpl.
  rewrite <- !app_assoc. done.
Qed.

Lemma getProp_field data k v :
  field k data = Some v → getProp data k = inr v.
Proof.
  unfold field, getProp. destruct data; try discriminate.
  by intros ->.
Qed.

Lemma command_direct data s :
  carries_directly data s → s ≠ "" → command data = inr (VString s).
Proof.
  intros H Hs. unfold command. rewrite (getProp_field _ _ _ H). simpl.
  destruct (String.eqb_spec s ""); done.
Qed.

Lemma command_nested data s :
  no_direct_command data → carries_nested data s →
  command data = inr (VString s).
Proof.
  intros Hno (wrapper & Hw & Hc). unfold command.
  rewrite (getProp_field _ _ _ Hw), (getProp_field _ _ _ Hc).
  assert (truthy wrapper = true) as ->.
  { destruct wrapper; try discriminate. done. }
  unfold no_direct_command in Hno.
  destruct data as [| | | | | |fields]; try discriminate.
  simpl in *. destruct (assoc "cmd" fields) as [v|]; simpl.
  - by rewrite Hno.
  - done.
Qed.

Lemma dispatch_message c data w :
  dispatch encoder c {| type := "message"; data := data |} w
  = let w3 := emit encoder c (VString "msg") [AValue data] w in
    match command data with
    | inl e => Thrown e w3
    | inr cmd =>
        if truthy cmd then
          match includes_DANMU_MSG cmd with
          | inl e => Thrown e w3
          | inr true => Done (emit encoder c (VString "DANMU_MSG") [AValue data] w3)
          | inr false => Done (emit encoder c cmd [AValue data] w3)
          end
        else Done w3
    end.
Proof. reflexivity. Qed.

Lemma dispatch_command c data s w :
  command data = inr (VString s) → s ≠ "" →
  dispatch encoder c {| type := "message"; data := data |} w
  = Done (emit encoder c (routed_name s) [AValue data]
            (emit encoder c (VString "msg") [AValue data] w)).
Proof.
  intros Hc Hs. rewrite dispatch_message. cbv zeta. rewrite Hc. simpl.
  destruct (String.eqb_spec s ""); [done|]. simpl.
  unfold routed_name. by destruct (String_includes s "DANMU_MSG").
Qed.

End Routing.

(** C7, as the design document states it, fails on the code: the payload
    [{ cmd: "" }] carries a command string in its [cmd] field, and the
    session emits [msg] and nothing else, since the code tests the command
    for truth before it emits. *)
Lemma message_routing_counterexample :
  carries_directly (VObject [("cmd", VString "")]) "" ∧
  ∃ w',
    dispatch demo_encoder 0
      {| type := "message"; data := VObject [("cmd", VString "")] |} demo_session
    = Done w' ∧
    log w' = log demo_session
             ++ [Emit (Session 0) (VString "msg")
                   [AValue (VObject [("cmd", VString "")])]].
Proof. split; [reflexivity|]. eexists. split; reflexivity. Qed.

(** The order of the two places matters as well: a [cmd] field that is
    truthy and not a string hides a command under [msg], and the call of
    [includes] on it raises after [msg] was emitted. *)
Example message_routing_shadowed :
  carries_nested
    (VObject [("cmd", VNumber (number_of_Z 1));
              ("msg", VObject [("cmd", VString "GIFT")])]) "GIFT" ∧
  ∃ w',
    dispatch demo_encoder 0
      {| type := "message";
         data := VObject [("cmd", VNumber (number_of_Z 1));
                          ("msg", VObject [("cmd", VString "GIFT")])] |}
      demo_session
    = Thrown TypeError w'.
Proof. split; [by eexists|]. eexists. reflexivity. Qed.

(** C7, amended: for every decoded message packet the session emits
    [msg] with the payload first. When the payload has a non-empty string
    in its [cmd] field, or has a missing or falsy [cmd] field and a
    non-empty string in the [cmd] field of its [msg] field, the session
    then emits one more event with the payload: under the name
    [DANMU_MSG] when the string contains [DANMU_MSG], and under the string
    itself otherwise. *)
Theorem message_routing
    (encoder : operation → list byte) (c : nat) (w : world) (data : value) :
  (∃ tail,
     log (world_of (dispatch encoder c {| type := "message"; data := data |} w))
     = log w ++ Emit (Session c) (VString "msg") [AValue data]
         :: relayed (session_listeners c w) (VString "msg") [AValue data]
         ++ tail) ∧
  (∀ s,
     s ≠ "" →
     carries_directly data s ∨ (no_direct_command data ∧ carries_nested data s) →
     ∃ w' tail,
       dispatch encoder c {| type := "message"; data := data |} w = Done w' ∧
       w' = emit encoder c (routed_name s) [AValue data]
              (emit encoder c (VString "msg") [AValue data] w) ∧
       routed_name s
       = (if String_includes s "DANMU_MSG" then VString "DANMU_MSG" else VString s) ∧
       log w' = log w ++ Emit (Session c) (VString "msg") [AValue data]
                  :: relayed (session_listeners c w) (VString "msg") [AValue data]
                  ++ Emit (Session c) (routed_name s) [AValue data] :: tail).
Proof.
  pose proof (log_emit_quiet encoder c (VString "msg") [AValue data] w
                (unheard_msg)) as Hmsg.
  split.
  - rewrite dispatch_message. cbv zeta.
    set (w3 := emit encoder c (VString "msg") [AValue data] w) in *.
    clearbody w3.
    assert (∃ tail, log w3 = log w ++ Emit (Session c) (VString "msg") [AValue data]
              :: relayed (session_listeners c w) (VString "msg") [AValue data]
              ++ tail) as Hnone.
    { exists []. rewrite app_nil_r. exact Hmsg. }
    assert (∀ name, ∃ tail,
              log (emit encoder c name [AValue data] w3)
              = log w ++ Emit (Session c) (VString "msg") [AValue data]
                  :: relayed (session_listeners c w) (VString "msg") [AValue data]
                  ++ tail) as Hsome.
    { intros name.
      destruct (log_emit_head encoder c name [AValue data] w3) as [tail Ht].
      exists (Emit (Session c) name [AValue data] :: tail).
      rewrite Ht, Hmsg. rewrite <- app_assoc. reflexivity. }
    destruct (command data) as [e|cmd]; [exact Hnone|].
    destruct (truthy cmd); [|exact Hnone].
    destruct (includes_DANMU_MSG cmd) as [e|[|]]; [exact Hnone| |];
      cbn [world_of]; apply Hsome.
  - intros s Hs Hcarries.
    assert (command data = inr (VString s)) as Hc.
    { destruct Hcarries as [H|[H1 H2]].
      - by apply command_direct.
      - by apply command_nested. }
    rewrite (dispatch_command encoder c data s w Hc Hs).
    set (w3 := emit encoder c (VString "msg") [AValue data] w) in *.
    clearbody w3.
    destruct (log_emit_head encoder c (routed_name s) [AValue data] w3)
      as [tail Ht].
    exists (emit encoder c (routed_name s) [AValue data] w3), tail.
    split; [reflexivity|]. split; [reflexivity|]. split; [reflexivity|].
    rewrite Ht, Hmsg. rewrite <- app_assoc. reflexivity.
Qed.

Lemma message_routing_witness :
  "DANMU_MSG:4:0:2:2:2:0" ≠ "" ∧
  carries_directly (VObject [("cmd", VString "DANMU_MSG:4:0:2:2:2:0")])
    "DANMU_MSG:4:0:2:2:2:0" ∧
  ∃ w' tail,
    dispatch demo_encoder 0
      {| type := "message";
         data := VObject [("cmd", VString "DANMU_MSG:4:0:2:2:2:0")] |} demo_keep
    = Done w' ∧
    log w' = log demo_keep
             ++ Emit (Session 0) (VString "msg")
                  [AValue (VObject [("cmd", VString "DANMU_MSG:4:0:2:2:2:0")])]
             :: relayed (session_listeners 0 demo_keep) (VString "msg")
                  [AValue (VObject [("cmd", VString "DANMU_MSG:4:0:2:2:2:0")])]
             ++ Emit (Session 0) (VString "DANMU_MSG")
                  [AValue (VObject [("cmd", VString "DANMU_MSG:4:0:2:2:2:0")])]
             :: tail.
Proof.
  split; [done|]. split; [reflexivity|].
  destruct (proj2 (message_routing demo_encoder 0 demo_keep
                     (VObject [("cmd", VString "DANMU_MSG:4:0:2:2:2:0")]))
              "DANMU_MSG:4:0:2:2:2:0")
    as (w' & tail & H1 & _ & _ & H2).
  - done.
  - left. reflexivity.
  - exists w', tail. split; [exact H1|exact H2].
Defined.

Example message_routing_runs :
  (∃ w', dispatch demo_encoder 0
           {| type := "message";
              data := VObject [("cmd", VString "DANMU_MSG:4:0:2:2:2:0")] |}
           demo_keep = Done w' ∧
         log w' = log demo_keep
           ++ [Emit (Session 0) (VString "msg")
                 [AValue (VObject [("cmd", VString "DANMU_MSG:4:0:2:2:2:0")])];
               Emit Supervisor (VString "msg")
                 [AValue (VObject [("cmd", VString "DANMU_MSG:4:0:2:2:2:0")])];
               Emit (Session 0) (VString "DANMU_MSG")
                 [AValue (VObject [("cmd", VString "DANMU_MSG:4:0:2:2:2:0")])];
               Emit Supervisor (VString "DANMU_MSG")
                 [AValue (VObject [("cmd", VString "DANMU_MSG:4:0:2:2:2:0")])]]) ∧
  (∃ w', dispatch demo_encoder 0
           {| type := "message";
              data := VObject [("msg", VObject [("cmd", VString "SEND_GIFT")])] |}
           demo_session = Done w' ∧
         log w' = log demo_session
           ++ [Emit (Session 0) (VString "msg")
                 [AValue (VObject [("msg", VObject [("cmd", VString "SEND_GIFT")])])];
               Emit (Session 0) (VString "SEND_GIFT")
                 [AValue (VObject [("msg", VObject [("cmd", VString "SEND_GIFT")])])]]).
Proof. split; eexists; split; reflexivity. Qed.

(** *** Errors of the transport *)

Section Errors.
Variable encoder : operation → list byte.

Lemma filter_standing (f : listener → bool) ls :
  (∀ l, f l = true → is_once l = false) →
  filter (λ l, f l = true) (standing ls) = filter (λ l, f l = true) ls.
Proof.
  intros Hf. unfold standing. induction ls as [|l ls IH]; [done|].
  rewrite !filter_cons.
  destruct (decide (is_once l = false)) as [H|H].
  - rewrite filter_cons, IH. done.
  - rewrite IH. destruct (decide (f l = true)) as [Hl|]; [|done].
    by apply Hf in Hl.
Qed.

Lemma selected_error_standing l :
  selected (VString "error") l = true → is_once l = false.
Proof. by destruct l. Qed.

Lemma selected__error_standing l :
  selected (VString "_error") l = true → is_once l = false.
Proof. by destruct l. Qed.

Lemma on_relay_not_once l : on_relay l = true → is_once l = false.
Proof. by destruct l. Qed.

Lemma relayed_standing ls name args :
  relayed ls name args = relayed (standing ls) name args.
Proof. unfold relayed. by rewrite on_relay_standing. Qed.

Lemma selected_standing name w c s :
  sessions w !! c = Some s →
  (∀ l, selected name l = true → is_once l = false) →
  filter (λ l, selected name l = true) (session_listeners c w)
  = filter (λ l, selected name l = true) (standing (Live.listeners s)).
Proof.
  intros Hs Hsel. rewrite (session_listeners_lookup _ _ _ Hs).
  symmetry. by apply (filter_standing (selected name)).
Qed.

(** The log of [this.emit('error', ...)] inside the ['_error'] handler. *)
Lemma log_emit_error c args w s :
  sessions w !! c = Some s →
  log (emit_error encoder c args w)
  = log w ++ Emit (Session c) (VString "error") args
      :: ((λ _, Emit Supervisor (VString "e") [first_arg args])
            <$> filter (λ l, selected (VString "error") l = true)
                  (standing (Live.listeners s)))
      ++ relayed (standing (Live.listeners s)) (VString "error") args.
Proof.
  intros Hs. unfold emit_error. rewrite log_emit_with by (intros; apply respects_refl).
  rewrite (selected_standing _ _ _ _ Hs selected_error_standing).
  rewrite (session_listeners_lookup _ _ _ Hs), <- relayed_standing.
  rewrite app_comm_cons, app_assoc. f_equal.
  assert (Forall (λ l, l = KeepError)
            (filter (λ l, selected (VString "error") l = true)
               (standing (Live.listeners s)))) as Hall.
  { apply Forall_forall. intros l [Hl _]%list_elem_of_filter. by destruct l. }
  enough (∀ w1,
            log (foldl (call_listener encoder (λ _ w0, w0) c args) w1
                   (filter (λ l, selected (VString "error") l = true)
                      (standing (Live.listeners s))))
            = log w1
              ++ ((λ _, Emit Supervisor (VString "e") [first_arg args])
                    <$> filter (λ l, selected (VString "error") l = true)
                          (standing (Live.listeners s)))) as H.
  { rewrite H. cbn [record log]. rewrite <- app_assoc. reflexivity. }
  induction Hall as [|l ls -> _ IH]; intros w1.
  - cbn. by rewrite app_nil_r.
  - cbn [foldl fmap list_fmap]. rewrite IH.
    unfold call_listener. cbn [is_once run_listener]. cbn [record log].
    rewrite <- app_assoc. reflexivity.
Qed.

(** The log of the emission of ['_error'] on a session whose standing
    listeners are [ls]. *)
Lemma log_emit__error c args w s ls :
  sessions w !! c = Some s →
  standing (Live.listeners s) = ls →
  filter (λ l, selected (VString "_error") l = true) ls = [Live_error] →
  log (emit encoder c (VString "_error") args w)
  = log w
    ++ [Emit (Session c) (VString "_error") args; Close c;
        Emit (Session c) (VString "error") args]
    ++ ((λ _, Emit Supervisor (VString "e") [first_arg args])
          <$> filter (λ l, selected (VString "error") l = true) ls)
    ++ relayed ls (VString "error") args
    ++ relayed ls (VString "_error") args.
Proof.
  intros Hs Hls Hsel. unfold emit.
  rewrite log_emit_with by (intros; apply emit_error_respects; apply _).
  rewrite (selected_standing _ _ _ _ Hs selected__error_standing), Hls, Hsel.
  rewrite (session_listeners_lookup _ _ _ Hs), relayed_standing, Hls.
  cbn [foldl]. unfold call_listener. cbn [is_once run_listener].
  rewrite (log_emit_error c args _ s) by exact Hs.
  rewrite Hls. unfold close. cbn [record log].
  rewrite <- !app_assoc. cbn [app]. rewrite <- !app_assoc. reflexivity.
Qed.

End Errors.

(** C9: on every error of the transport the session first closes its
    transport and then emits the cause under [error], a name of its own
    next to [close]; a session alone does nothing more. A wrapper around
    the session then emits the cause to its own listeners under [e]; what
    comes after that is emitted by the wrapper only, on the relay
    channel. *)
Theorem adapter_error_handling
    (encoder : operation → list byte) (decoder : arg → option (list pack))
    (c : nat) (s : Live.t) (w : world) (cause : string) :
  sessions w !! c = Some s →
  (standing (Live.listeners s) = Live_listeners →
   ∃ w', step encoder decoder (TransportError c cause) w = Some w' ∧
         log w' = log w
                  ++ [ Emit (Session c) (VString "_error") [AError cause];
                       Close c;
                       Emit (Session c) (VString "error") [AError cause] ]) ∧
  (standing (Live.listeners s) = Live_listeners ++ Keep_listeners →
   ∃ w' tail,
     step encoder decoder (TransportError c cause) w = Some w' ∧
     log w' = log w
              ++ [ Emit (Session c) (VString "_error") [AError cause];
                   Close c;
                   Emit (Session c) (VString "error") [AError cause];
                   Emit Supervisor (VString "e") [AError cause] ]
              ++ tail ∧
     Forall (λ a, ∃ name args, a = Emit Supervisor name args) tail).
Proof.
  intros Hs. split; intros Hls.
  - eexists. split; [reflexivity|].
    rewrite (log_emit__error encoder c _ w s _ Hs Hls eq_refl). reflexivity.
  - eexists _, (relayed (Live_listeners ++ Keep_listeners) (VString "error")
                  [AError cause]
                ++ relayed (Live_listeners ++ Keep_listeners) (VString "_error")
                     [AError cause]).
    split; [reflexivity|]. split.
    + rewrite (log_emit__error encoder c _ w s _ Hs Hls eq_refl). reflexivity.
    + repeat constructor; eauto.
Qed.

Lemma adapter_error_handling_witness :
  (∃ w', step demo_encoder demo_decoder (TransportError 0 "ECONNRESET") demo_session
         = Some w' ∧
         log w' = log demo_session
                  ++ [ Emit (Session 0) (VString "_error") [AError "ECONNRESET"];
                       Close 0;
                       Emit (Session 0) (VString "error") [AError "ECONNRESET"] ]) ∧
  (∃ w' tail,
     step demo_encoder demo_decoder (TransportError 0 "ECONNRESET") demo_keep
     = Some w' ∧
     log w' = log demo_keep
              ++ [ Emit (Session 0) (VString "_error") [AError "ECONNRESET"];
                   Close 0;
                   Emit (Session 0) (VString "error") [AError "ECONNRESET"];
                   Emit Supervisor (VString "e") [AError "ECONNRESET"] ]
              ++ tail ∧
     Forall (λ a, ∃ name args, a = Emit Supervisor name args) tail).
Proof.
  split.
  - eapply (proj1 (adapter_error_handling demo_encoder demo_decoder 0 _
                     demo_session "ECONNRESET" eq_refl)).
    reflexivity.
  - eapply (proj2 (adapter_error_handling demo_encoder demo_decoder 0 _
                     demo_keep "ECONNRESET" eq_refl)).
    reflexivity.
Defined.

(** ** Construction *)

(** C2, as the design document states it, fails on the code: 1.5 is a room
    id that is not an integer, and both the session and the wrapper are
    constructed with it, the transport being opened. The constructor tests
    the type and [NaN] only. *)
Lemma roomid_counterexample :
  one_and_a_half = VNumber (S754_finite false 6755399441055744 (-52)) ∧
  positive_integer one_and_a_half = false ∧
  (construct one_and_a_half (BaseWS default_address) empty_world).1 = inr 0 ∧
  log (construct one_and_a_half (BaseWS default_address) empty_world).2
  = [Connect 0 (BaseWS default_address)] ∧
  (Keep_constructor one_and_a_half (BaseWS default_address) empty_world).1 = None ∧
  log (Keep_constructor one_and_a_half (BaseWS default_address) empty_world).2
  = [Connect 0 (BaseWS default_address)].
Proof. repeat split; reflexivity. Qed.

(** C2, amended: the construction of a session and of a wrapper succeeds
    for every room id that is a number other than [NaN], so for every
    positive integer, but for 1.5 as well; it fails at once for [NaN] and
    for every value that is not of type number, before the transport is
    opened, any timer set or any session created. *)
Theorem roomid_validation (roomid : value) (b : base) (w : world) :
  (typeof roomid = "number" → Number_isNaN roomid = false →
   (construct roomid b w).1 = inr (session_count w) ∧
   (Keep_constructor roomid b w).1 = None ∧
   log (construct roomid b w).2 = log w ++ [Connect (session_count w) b]) ∧
  (positive_integer roomid = true →
   (construct roomid b w).1 = inr (session_count w) ∧
   (Keep_constructor roomid b w).1 = None) ∧
  (typeof roomid ≠ "number" ∨ Number_isNaN roomid = true →
   construct roomid b w = (inl (RoomidError roomid), w) ∧
   (Keep_constructor roomid b w).1 = Some (RoomidError roomid) ∧
   log (Keep_constructor roomid b w).2 = log w ∧
   sessions (Keep_constructor roomid b w).2 = sessions w ∧
   timers (Keep_constructor roomid b w).2 = timers w).
Proof.
  assert (typeof roomid = "number" → Number_isNaN roomid = false →
          (construct roomid b w).1 = inr (session_count w) ∧
          (Keep_constructor roomid b w).1 = None ∧
          log (construct roomid b w).2 = log w ++ [Connect (session_count w) b])
    as Hok.
  { intros Ht Hn.
    unfold Keep_constructor, Keep_connect, construct, Live_constructor.
    simpl. rewrite Ht, Hn. simpl. done. }
  split; [exact Hok|]. split.
  - intros Hp. destruct roomid as [| | |x| | |]; try discriminate.
    destruct x as [| | |[|] m e]; try discriminate.
    destruct Hok as (H1 & H2 & _); done.
  - intros Hbad.
    assert (negb (String.eqb (typeof roomid) "number") || Number_isNaN roomid
            = true) as Hcheck.
    { destruct Hbad as [Ht| ->]; [|apply orb_true_r].
      destruct (String.eqb_spec (typeof roomid) "number"); done. }
    unfold Keep_constructor, Keep_connect, construct, Live_constructor.
    simpl. rewrite Hcheck. simpl. done.
Qed.

Lemma roomid_validation_witness :
  ((construct room_1 (BaseTCP default_host default_port) empty_world).1 = inr 0 ∧
   (Keep_constructor room_1 (BaseTCP default_host default_port) empty_world).1
   = None) ∧
  (construct (VString "1") (BaseWS default_address) empty_world
   = (inl (RoomidError (VString "1")), empty_world) ∧
   (Keep_constructor (VNumber S754_nan) (BaseWS default_address) empty_world).1
   = Some (RoomidError (VNumber S754_nan))).
Proof.
  split.
  - apply (roomid_validation room_1 (BaseTCP default_host default_port)
             empty_world).
    reflexivity.
  - split.
    + apply (roomid_validation (VString "1") (BaseWS default_address) empty_world).
      left. discriminate.
    + apply (roomid_validation (VNumber S754_nan) (BaseWS default_address)
               empty_world).
      right. reflexivity.
Defined.

(** ** The wrapper *)

(** Once the wrapper is closed, the close of a session schedules no
    retry. *)
Lemma closed_schedules_no_retry
    (encoder : operation → list byte) nested c args w k :
  keep w = Some k → Keep.closed k = true →
  run_listener encoder nested c args KeepReconnect w = w.
Proof. intros Hk Hc. simpl. by rewrite Hk, Hc. Qed.

(** A retry that is pending is a timer like any other, and [connect()]
    does not look at [closed]. *)
Lemma pending_retry_connects (encoder : operation → list byte) t ms w :
  timers w !! t = Some (CallConnect, ms) →
  fire encoder t w = (Keep_connect (set_timers (delete t) w)).2.
Proof. intros Ht. unfold fire. by rewrite Ht. Qed.

(** C1 fails on the code. The first session of a wrapper closes, which
    schedules a retry (timer 1); then [close()] is called on the wrapper;
    then the timer fires. The wrapper is closed, and yet a second session
    is constructed and its transport opened. *)
Theorem close_leaves_pending_retry :
  ∃ w1 w2 w3,
    run demo_encoder demo_decoder [TransportClose 0] demo_keep = Some w1 ∧
    timers w1 !! 1 = Some (CallConnect, 100%Z) ∧
    run demo_encoder demo_decoder [UserClose] w1 = Some w2 ∧
    Keep.closed <$> keep w2 = Some true ∧
    timers w2 !! 1 = Some (CallConnect, 100%Z) ∧
    session_count w2 = 1 ∧
    run demo_encoder demo_decoder [TimerFires 1] w2 = Some w3 ∧
    Keep.closed <$> keep w3 = Some true ∧
    session_count w3 = 2 ∧
    current w3 = Some 1 ∧
    log w3 = [ Connect 0 (BaseWS default_address);
               Emit (Session 0) (VString "close") [];
               Emit Supervisor (VString "close") [];
               Close 0;
               Connect 1 (BaseWS default_address) ].
Proof. eexists _, _, _. repeat split; reflexivity. Qed.

(** ** Decoding and the order of packets *)

Lemma keeps_decoding_same w w' :
  decoding w' = decoding w → decode_count w' = decode_count w →
  keeps_decoding w w'.
Proof.
  intros Hd Hc Hwf. unfold decoding_wf in *. rewrite Hd, Hc. auto.
Qed.

#[local] Instance keeps_decoding_respected : Respected keeps_decoding.
Proof.
  split; try (intros; by apply keeps_decoding_same).
  - intros w1 w2 w3 H12 H23 Hwf.
    destruct (H12 Hwf) as (Hwf2 & Hle2 & Hsame2).
    destruct (H23 Hwf2) as (Hwf3 & Hle3 & Hsame3).
    split; [done|]. split; [lia|].
    intros d Hd. rewrite Hsame3 by lia. auto.
  - intros c a w Hwf. unfold decoding_wf in *. simpl.
    split; [|split; [lia|]].
    + intros d Hd. rewrite lookup_insert_ne by lia. apply Hwf. lia.
    + intros d Hd. rewrite lookup_insert_ne by lia. done.
Qed.

Section Decoding.
Variable encoder : operation → list byte.
Variable decoder : arg → option (list pack).







Lemma foldl_relay_fields A (ls : list A) a w :
  sessions (foldl (λ w _, record a w) w ls) = sessions w ∧
  keep (foldl (λ w _, record a w) w ls) = keep w ∧
  decode_count (foldl (λ w _, record a w) w ls) = decode_count w ∧
  decoding (foldl (λ w _, record a w) w ls) = decoding w.
Proof.
  revert w. induction ls as [|l ls IH]; intros w; cbn [foldl]; [done|].
  destruct (IH (record a w)) as (-> & -> & -> & ->). done.
Qed.

Lemma emit_message c b w s :
  sessions w !! c = Some s →
  filter (λ l, selected (VString "message") l = true) (Live.listeners s)
  = [LiveMessage] →
  sessions (emit encoder c (VString "message") [ABuffer b] w) = sessions w ∧
  keep (emit encoder c (VString "message") [ABuffer b] w) = keep w ∧
  decode_count (emit encoder c (VString "message") [ABuffer b] w)
  = S (decode_count w) ∧
  decoding (emit encoder c (VString "message") [ABuffer b] w)
  = <[decode_count w := (c, ABuffer b)]> (decoding w).
Proof.
  intros Hs Hsel. unfold emit, emit_with.
  change (session_listeners c (record (Emit (Session c) (VString "message")
                                         [ABuffer b]) w))
    with (session_listeners c w).
  rewrite (session_listeners_lookup _ _ _ Hs), Hsel.
  cbn [foldl]. unfold call_listener. cbn [is_once run_listener first_arg].
  match goal with
  | |- context [foldl ?f ?w0 ?ls] =>
      destruct (foldl_relay_fields listener ls
                  (Emit Supervisor (VString "message") [ABuffer b]) w0)
        as (-> & -> & -> & ->)
  end.
  done.
Qed.

End Decoding.




(** With the decodes settling in the order of arrival, the events come
    out in the order of the wire. *)
Example packet_order_fifo :
  ∃ w',
    run demo_encoder demo_decoder
      [TransportMessage 0 [x01]; TransportMessage 0 [x02]; Decoded 0; Decoded 1]
      demo_session = Some w' ∧
    log w' = log demo_session
             ++ [ Emit (Session 0) (VString "message") [ABuffer [x01]];
                  Emit (Session 0) (VString "message") [ABuffer [x02]];
                  Emit (Session 0) (VString "heartbeat")
                    [AValue (VNumber (number_of_Z 1))];
                  Emit (Session 0) (VString "heartbeat")
                    [AValue (VNumber (number_of_Z 2))] ] ∧
    Live.online <$> sessions w' !! 0 = Some (VNumber (number_of_Z 2)).
Proof. eexists. repeat split; reflexivity. Qed.

(** ** The framer behind the socket *)

Section FramerFuel.
Import Buffer Framer.

(** A pass either shortens the buffer or leaves it as it is. *)
Lemma splitStep_shrinks (buffer pack buffer' : list byte) :
  splitStep buffer = Some (pack, buffer') →
  length buffer' < length buffer ∨ buffer' = buffer.
Proof.
  intros (_ & _ & ->)%splitStep_Some. unfold slice.
  set (s := adjustOffset (declared buffer) (Z.of_nat (length buffer))).
  assert (0 ≤ s ≤ Z.of_nat (length buffer))%Z as Hs.
  { unfold s, adjustOffset.
    destruct (Z.ltb_spec (declared buffer) 0); lia. }
  rewrite take_ge by (rewrite length_drop; lia).
  destruct (decide (s = 0%Z)) as [->|Hne].
  - right. done.
  - left. rewrite length_drop. lia.
Qed.

Lemma splitBuffer_stuck (fuel : nat) (buffer pack : list byte) :
  splitStep buffer = Some (pack, buffer) → splitBuffer fuel buffer = None.
Proof.
  intros Hs. induction fuel as [|fuel IH]; simpl; rewrite Hs; [done|].
  by rewrite IH.
Qed.

End FramerFuel.

(** Two chunks on the socket of a session over TCP: the first holds a
    frame and the start of the next, the second its end. Each frame is
    emitted as one ['message'] and goes to the decoder. *)
Example socket_data_frames :
  ∃ w',
    run demo_encoder demo_decoder
      [ TransportData 0 [x00; x00; x00; x05; xaa; x00; x00];
        TransportData 0 [x00; x04] ]
      (construct room_1 (BaseTCP default_host default_port) empty_world).2
    = Some w' ∧
    log w' = [ Connect 0 (BaseTCP default_host default_port);
               Emit (Session 0) (VString "message")
                 [ABuffer [x00; x00; x00; x05; xaa]];
               Emit (Session 0) (VString "message")
                 [ABuffer [x00; x00; x00; x04]] ] ∧
    decoding w' !! 0 = Some (0, ABuffer [x00; x00; x00; x05; xaa]) ∧
    decoding w' !! 1 = Some (0, ABuffer [x00; x00; x00; x04]) ∧
    Live.adapter <$> sessions w' !! 0
    = Some (LiveTCP default_host default_port []).
Proof. eexists. repeat split; reflexivity. Qed.

(** A header of zero on the socket: the turn never ends. *)
Example socket_data_stuck :
  run demo_encoder demo_decoder [TransportData 0 [x00; x00; x00; x00]]
    (construct room_1 (BaseTCP default_host default_port) empty_world).2
  = None.
Proof. reflexivity. Qed.

(** ** More on the framer *)

Section FramerMore.
Import Buffer Framer.

Implicit Types buffer rest pack tail : list byte.
Implicit Types packs fs chunks : list (list byte).

(** Whatever the header says, a pass cuts the buffer in two: the frame
    and the new buffer together are the old buffer. *)
Lemma splitStep_partition buffer pack rest :
  splitStep buffer = Some (pack, rest) → pack ++ rest = buffer.
Proof.
  intros (_ & -> & ->)%splitStep_Some. unfold slice.
  set (s := adjustOffset (declared buffer) (Z.of_nat (length buffer))).
  assert (0 ≤ s ≤ Z.of_nat (length buffer))%Z as Hs.
  { unfold s, adjustOffset.
    destruct (Z.ltb_spec (declared buffer) 0); lia. }
  assert (adjustOffset 0 (Z.of_nat (length buffer)) = 0%Z) as ->.
  { unfold adjustOffset. simpl. lia. }
  rewrite Z.sub_0_r. change (Z.to_nat 0) with 0. rewrite drop_0.
  rewrite (take_ge (drop _ _)) by (rewrite length_drop; lia).
  apply take_drop.
Qed.

(** A pass leaves the buffer as it is exactly when the declared length
    is zero or reaches back to the start of the buffer or beyond. *)
Lemma splitStep_fixed buffer pack rest :
  splitStep buffer = Some (pack, rest) →
  (rest = buffer ↔
   declared buffer = 0%Z ∨ (declared buffer + Z.of_nat (length buffer) ≤ 0)%Z).
Proof.
  intros Hs. pose proof Hs as (Ht & _ & ->)%splitStep_Some.
  apply loop_test_true in Ht as [H4 Hle]. unfold slice.
  set (s := adjustOffset (declared buffer) (Z.of_nat (length buffer))).
  assert (0 ≤ s ≤ Z.of_nat (length buffer))%Z as Hr.
  { unfold s, adjustOffset.
    destruct (Z.ltb_spec (declared buffer) 0); lia. }
  rewrite take_ge by (rewrite length_drop; lia).
  assert (s = 0%Z ↔
          declared buffer = 0%Z ∨
          (declared buffer + Z.of_nat (length buffer) ≤ 0)%Z) as <-.
  { unfold s, adjustOffset.
    destruct (Z.ltb_spec (declared buffer) 0); lia. }
  split.
  - intros Heq. apply (f_equal length) in Heq. rewrite length_drop in Heq. lia.
  - intros ->. reflexivity.
Qed.

Lemma splitBuffer_partition fuel buffer packs rest :
  splitBuffer fuel buffer = Some (packs, rest) →
  concat packs ++ rest = buffer.
Proof.
  revert buffer packs. induction fuel as [|fuel IH]; intros buffer packs;
    cbn [splitBuffer].
  - destruct (splitStep buffer) as [[? ?]|]; [done|]. by intros [= <- <-].
  - destruct (splitStep buffer) as [[pack buffer']|] eqn:E;
      [|by intros [= <- <-]].
    destruct (splitBuffer fuel buffer') as [[packs' rest']|] eqn:F; [|done].
    intros [= <- <-]. cbn [concat]. rewrite <- app_assoc, (IH _ _ F).
    by apply splitStep_partition.
Qed.

Lemma splitStep_framed f more :
  framed f → splitStep (f ++ more) = Some (f, more).
Proof.
  intros [H4 Hd].
  assert (declared (f ++ more) = Z.of_nat (length f)) as Hd'.
  { by rewrite declared_app. }
  rewrite splitStep_cut.
  - rewrite Hd', Nat2Z.id. by rewrite take_app_length, drop_app_length.
  - apply loop_test_true. rewrite Hd', length_app. lia.
  - lia.
Qed.

Lemma splitBuffer_framed fs tail :
  Forall framed fs → splitStep tail = None →
  splitBuffer (length fs) (concat fs ++ tail) = Some (fs, tail).
Proof.
  intros Hfs Htail. induction Hfs as [|f fs Hf _ IH]; cbn [concat length].
  - cbn [app]. by apply splitBuffer_idle.
  - rewrite <- app_assoc. cbn [splitBuffer].
    rewrite (splitStep_framed f _ Hf), IH. reflexivity.
Qed.

Lemma lengths_from_framed fs tail :
  Forall framed fs → splitStep tail = None →
  lengths_from 0 (concat fs ++ tail).
Proof.
  intros Hfs Htail. induction Hfs as [|f fs Hf _ IH]; cbn [concat].
  - cbn [app]. intros n packs b Hp Ht.
    destruct n as [|n]; cbn [passes] in Hp.
    + injection Hp as <- <-. apply splitStep_None in Htail. congruence.
    + by rewrite Htail in Hp.
  - rewrite <- app_assoc. intros n packs b Hp Ht.
    destruct n as [|n].
    + cbn [passes] in Hp. injection Hp as <- <-.
      destruct Hf as [H4 Hd]. rewrite declared_app by done. lia.
    + rewrite (passes_S _ _ _ _ (splitStep_framed f _ Hf)) in Hp.
      destruct (passes n (concat fs ++ tail)) as [[packs' b']|] eqn:E;
        [|done].
      injection Hp as <- <-. by apply (IH n packs' b').
Qed.

(** The loop that never ends reaches a pass that changes nothing. *)
Lemma splitBuffer_None_stuck n buffer :
  length buffer ≤ n → splitBuffer n buffer = None →
  ∃ k packs b pack, passes k buffer = Some (packs, b) ∧
                    splitStep b = Some (pack, b).
Proof.
  revert buffer. induction n as [|n IH]; intros buffer Hlen; cbn [splitBuffer].
  - destruct buffer; [|simpl in Hlen; lia]. done.
  - destruct (splitStep buffer) as [[pack buffer']|] eqn:E; [|done].
    destruct (splitBuffer n buffer') as [[? ?]|] eqn:F; [done|]. intros _.
    destruct (splitStep_shrinks _ _ _ E) as [Hlt| ->].
    + destruct (IH buffer' ltac:(lia) F) as (k & packs & b & p & Hp & Hs).
      exists (S k), (pack :: packs), b, p. split; [|done].
      by rewrite (passes_S _ _ _ _ E), Hp.
    + exists 0, [], buffer, pack. done.
Qed.

End FramerMore.

Import Buffer Framer.

(** X1: the framer neither drops nor repeats a byte, whatever the
    headers say: when a sequence of chunks has been fed, the frames
    emitted so far followed by the bytes still buffered are the buffer at
    the start followed by the chunks. *)
Theorem framer_conserves_bytes
    (fuel : nat) (buffer : list byte) (chunks : list (list byte))
    (packs : list (list byte)) (rest : list byte) :
  feed fuel buffer chunks = Some (packs, rest) →
  concat packs ++ rest = buffer ++ concat chunks.
Proof.
  revert buffer packs. induction chunks as [|chunk chunks IH];
    intros buffer packs; cbn [feed concat].
  - intros [= <- <-]. by rewrite app_nil_r.
  - unfold onData, concat2.
    destruct (splitBuffer fuel (buffer ++ chunk)) as [[packs1 buffer1]|] eqn:E;
      [|done].
    destruct (feed fuel buffer1 chunks) as [[packs2 rest2]|] eqn:F; [|done].
    intros [= <- <-]. rewrite concat_app, <- app_assoc, (IH _ _ F).
    rewrite app_assoc, (splitBuffer_partition _ _ _ _ E).
    by rewrite <- app_assoc.
Qed.

Lemma framer_conserves_bytes_witness :
  feed 5 [] [[xff; xff; xff; xff]; [x01]] = Some ([[xff; xff; xff]], [xff; x01]) ∧
  concat [[xff; xff; xff]] ++ [xff; x01] = [] ++ concat [[xff; xff; xff; xff]; [x01]].
Proof.
  split; [reflexivity|].
  apply (framer_conserves_bytes 5 [] [[xff; xff; xff; xff]; [x01]]).
  reflexivity.
Defined.

(** X2: a stream that is a sequence of complete frames, each of at least
    four bytes and declaring its own length, followed by bytes that do not
    make a frame yet, comes out as exactly these frames in their order,
    with exactly these bytes left in the buffer, however the stream is cut
    into chunks. *)
Theorem framed_stream_round_trip
    (chunks fs : list (list byte)) (tail : list byte) :
  Forall framed fs →
  splitStep tail = None →
  concat chunks = concat fs ++ tail →
  ∃ fuel, feed fuel [] chunks = Some (fs, tail).
Proof.
  intros Hfs Htail Hcut.
  apply (feed_whole chunks [] (fs, tail)).
  - reflexivity.
  - cbn [app]. rewrite Hcut. by apply lengths_from_framed.
  - exists (length fs). cbn [app]. rewrite Hcut. by apply splitBuffer_framed.
Qed.

Lemma framed_stream_round_trip_witness :
  ∃ fuel,
    feed fuel [] [[x00; x00; x00]; [x05; xaa; x00; x00]; [x00; x04; x00; x00]]
    = Some ([[x00; x00; x00; x05; xaa]; [x00; x00; x00; x04]], [x00; x00]).
Proof.
  apply (framed_stream_round_trip
           [[x00; x00; x00]; [x05; xaa; x00; x00]; [x00; x04; x00; x00]]
           [[x00; x00; x00; x05; xaa]; [x00; x00; x00; x04]] [x00; x00]).
  - repeat constructor; simpl; lia.
  - reflexivity.
  - reflexivity.
Defined.

(** X3: if the loop of [splitBuffer] ends at all, it ends within as many
    passes as the buffer has bytes, with the same frames and the same
    bytes left. *)
Theorem splitBuffer_ends_within_length
    (fuel : nat) (buffer : list byte) (r : list (list byte) * list byte) :
  splitBuffer fuel buffer = Some r →
  splitBuffer (length buffer) buffer = Some r.
Proof.
  enough (∀ n fuel (b : list byte) r,
            length b ≤ n → splitBuffer fuel b = Some r →
            splitBuffer n b = Some r) as H by (intros; by eapply H).
  clear. induction n as [|n IH]; intros fuel b r Hlen Hr.
  - destruct b; [|simpl in Hlen; lia]. by destruct fuel.
  - destruct fuel as [|fuel]; simpl in *;
      destruct (splitStep b) as [[pack b']|] eqn:Hs; try done.
    destruct (splitBuffer fuel b') as [[packs rest]|] eqn:Hb; [|done].
    destruct (splitStep_shrinks _ _ _ Hs) as [Hlt| ->].
    + rewrite (IH fuel b' _ ltac:(lia) Hb). done.
    + by rewrite (splitBuffer_stuck fuel b pack Hs) in Hb.
Qed.

Lemma splitBuffer_ends_within_length_witness :
  splitBuffer 100 [x00; x00; x00; x05; xaa; x00; x00; x00; x04; xbb]
  = Some ([[x00; x00; x00; x05; xaa]; [x00; x00; x00; x04]], [xbb]) ∧
  splitBuffer (length [x00; x00; x00; x05; xaa; x00; x00; x00; x04; xbb])
    [x00; x00; x00; x05; xaa; x00; x00; x00; x04; xbb]
  = Some ([[x00; x00; x00; x05; xaa]; [x00; x00; x00; x04]], [xbb]).
Proof.
  split; [reflexivity|].
  apply (splitBuffer_ends_within_length 100). reflexivity.
Defined.

(** X4: the loop of [splitBuffer] runs for ever exactly when it reaches,
    after some passes, a buffer of at least four bytes whose declared
    length is zero, or is negative and reaches back to the start of the
    buffer or beyond; such a pass emits an empty frame and changes
    nothing. *)
Theorem splitBuffer_hangs_iff (buffer : list byte) :
  (∀ fuel, splitBuffer fuel buffer = None) ↔
  ∃ n packs b,
    passes n buffer = Some (packs, b) ∧
    4 ≤ length b ∧
    (declared b = 0%Z ∨ (declared b + Z.of_nat (length b) ≤ 0)%Z) ∧
    splitStep b = Some ([], b).
Proof.
  split.
  - intros Hnone.
    destruct (splitBuffer_None_stuck (length buffer) buffer (le_n _) (Hnone _))
      as (k & packs & b & pack & Hp & Hs).
    pose proof (proj1 (splitStep_fixed _ _ _ Hs) eq_refl) as Hd.
    pose proof (splitStep_partition _ _ _ Hs) as Hpart.
    assert (pack = []) as ->.
    { apply (f_equal length) in Hpart. rewrite length_app in Hpart.
      destruct pack; [done|]. simpl in Hpart. lia. }
    pose proof Hs as (Ht & _)%splitStep_Some.
    apply loop_test_true in Ht as [H4 _].
    exists k, packs, b. done.
  - intros (n & packs & b & Hp & _ & _ & Hs) fuel.
    destruct (splitBuffer fuel buffer) as [r|] eqn:E; [|done].
    destruct (splitBuffer_passes _ _ _ _ _ _ Hp E) as (packs' & _ & Hb).
    by rewrite (splitBuffer_stuck fuel b [] Hs) in Hb.
Qed.

(** X5: the bytes that the loop leaves in the buffer do not make a frame:
    they are fewer than four, or they declare a length greater than their
    number. *)
Theorem framer_remainder_incomplete
    (fuel : nat) (buffer : list byte) (packs : list (list byte))
    (rest : list byte) :
  splitBuffer fuel buffer = Some (packs, rest) →
  length rest < 4 ∨ (Z.of_nat (length rest) < declared rest)%Z.
Proof.
  intros H. apply loop_test_false, splitStep_None.
  by apply (splitBuffer_settled fuel buffer packs).
Qed.

Lemma framer_remainder_incomplete_witness :
  splitBuffer 3 [x00; x00; x00; x04; x00; x00; x00; x09; xaa]
  = Some ([[x00; x00; x00; x04]], [x00; x00; x00; x09; xaa]) ∧
  (length [x00; x00; x00; x09; xaa] < 4 ∨
   (Z.of_nat (length [x00; x00; x00; x09; xaa])
    < declared [x00; x00; x00; x09; xaa])%Z).
Proof.
  split; [reflexivity|].
  apply (framer_remainder_incomplete 3
           [x00; x00; x00; x04; x00; x00; x00; x09; xaa] [[x00; x00; x00; x04]]).
  reflexivity.
Defined.

(** ** Which passes make progress *)

(** C10, as the design document states it, fails on the code: the loop
    makes progress on lengths that are not positive as well. The header
    [ff ff ff fe] reads -2; on a buffer of eight bytes the pass cuts the
    first six bytes as a frame and leaves the last two, and the loop ends.
    Nor does a length of at least 1 help when the header is read without
    its sign: [ff ff ff f0] is 4294967280 then, and on a buffer of five
    bytes the loop never ends. *)
Lemma splitBuffer_progress_counterexample :
  declared [xff; xff; xff; xfe; x01; x02; x03; x04] = (-2)%Z ∧
  splitStep [xff; xff; xff; xfe; x01; x02; x03; x04]
  = Some ([xff; xff; xff; xfe; x01; x02], [x03; x04]) ∧
  splitBuffer 8 [xff; xff; xff; xfe; x01; x02; x03; x04]
  = Some ([[xff; xff; xff; xfe; x01; x02]], [x03; x04]) ∧
  readUInt32BE [xff; xff; xff; xf0; x01] 0 = Some 4294967280%Z ∧
  (∀ fuel, splitBuffer fuel [xff; xff; xff; xf0; x01] = None).
Proof.
  split; [reflexivity|]. split; [reflexivity|]. split; [reflexivity|].
  split; [reflexivity|].
  intros fuel. by apply (splitBuffer_stuck fuel _ []).
Qed.

(** C10, amended: a pass of the loop runs on a buffer of at least four
    bytes whose signed length is at most the number of its bytes. It
    shortens the buffer exactly when this length is positive, or negative
    and greater than minus the number of bytes; it leaves the buffer as it
    is exactly when the length is zero or reaches back to the start of the
    buffer or beyond. On a buffer of at least four bytes whose header
    reads 0 a pass emits an empty frame and leaves the buffer as it was,
    so every number of passes can be made and no amount of fuel brings the
    loop to its end. On a buffer where every signed length that the loop
    reads is at least 1, the loop ends, within as many passes as the
    buffer has bytes. *)
Theorem splitBuffer_progress :
  (∀ buffer pack rest : list byte,
     splitStep buffer = Some (pack, rest) →
     (length rest < length buffer ↔
      (0 < declared buffer
       ∨ - Z.of_nat (length buffer) < declared buffer < 0)%Z) ∧
     (rest = buffer ↔
      (declared buffer = 0 ∨ declared buffer ≤ - Z.of_nat (length buffer))%Z)) ∧
  (∀ buffer : list byte,
     4 ≤ length buffer → readInt32BE buffer 0 = Some 0%Z →
     splitStep buffer = Some ([], buffer) ∧
     (∀ n, passes n buffer = Some (replicate n [], buffer)) ∧
     (∀ fuel, splitBuffer fuel buffer = None)) ∧
  (∀ buffer : list byte,
     lengths_from 1 buffer →
     ∃ packs rest, splitBuffer (length buffer) buffer = Some (packs, rest)).
Proof.
  split; [|split].
  - intros buffer pack rest Hs.
    pose proof (splitStep_fixed _ _ _ Hs) as Hfix.
    pose proof (splitStep_shrinks _ _ _ Hs) as Hsh.
    assert (rest = buffer ↔
            (declared buffer = 0
             ∨ declared buffer ≤ - Z.of_nat (length buffer))%Z) as Hsame.
    { rewrite Hfix. split; (intros [H|H]; [by left|right; lia]). }
    split; [|exact Hsame]. split.
    + intros Hlt.
      assert (rest ≠ buffer) as Hne by (intros ->; lia).
      rewrite Hsame in Hne. lia.
    + intros Hpos. destruct Hsh as [Hlt|Heq]; [exact Hlt|].
      apply Hsame in Heq. lia.
  - intros buffer H4 H0.
    assert (declared buffer = 0%Z) as Hd by (unfold declared; by rewrite H0).
    assert (splitStep buffer = Some ([], buffer)) as Hs.
    { rewrite splitStep_cut, Hd; [done| |lia].
      apply loop_test_true. lia. }
    split; [done|]. split.
    + induction n as [|n IH]; [done|].
      rewrite (passes_S _ _ _ _ Hs), IH. done.
    + induction fuel as [|fuel IH]; simpl; rewrite Hs; [done|].
      by rewrite IH.
  - intros buffer.
    assert (∀ n (b : list byte), length b ≤ n → lengths_from 1 b →
              ∃ packs rest, splitBuffer n b = Some (packs, rest)) as Hgen.
    { induction n as [|n IH]; intros b Hlen Hpos.
      - destruct b; [|simpl in Hlen; lia]. by exists [], [].
      - simpl. destruct (splitStep b) as [[pack b']|] eqn:Hs; [|eauto].
        destruct (splitStep_Some _ _ _ Hs) as (Ht & _ & _).
        pose proof (lengths_from_head _ _ Hpos Ht) as H1.
        pose proof Ht as [_ Hle]%loop_test_true.
        rewrite splitStep_cut in Hs by (assumption || lia). injection Hs as <- <-.
        destruct (IH (drop (Z.to_nat (declared b)) b)) as (packs & rest & ->).
        + rewrite length_drop. lia.
        + eapply lengths_from_step; [exact Hpos|]. apply splitStep_cut; [done|lia].
        + eauto. }
    intros Hpos. by apply Hgen.
Qed.

Lemma splitBuffer_progress_witness :
  ((length [x03; x04] < length [xff; xff; xff; xfe; x01; x02; x03; x04] ↔
    (0 < declared [xff; xff; xff; xfe; x01; x02; x03; x04]
     ∨ - Z.of_nat (length [xff; xff; xff; xfe; x01; x02; x03; x04])
       < declared [xff; xff; xff; xfe; x01; x02; x03; x04] < 0)%Z) ∧
   ([x03; x04] = [xff; xff; xff; xfe; x01; x02; x03; x04] ↔
    (declared [xff; xff; xff; xfe; x01; x02; x03; x04] = 0
     ∨ declared [xff; xff; xff; xfe; x01; x02; x03; x04]
       ≤ - Z.of_nat (length [xff; xff; xff; xfe; x01; x02; x03; x04]))%Z)) ∧
  (splitStep [x00; x00; x00; x00; xaa] = Some ([], [x00; x00; x00; x00; xaa]) ∧
   (∀ n, passes n [x00; x00; x00; x00; xaa]
         = Some (replicate n [], [x00; x00; x00; x00; xaa])) ∧
   (∀ fuel, splitBuffer fuel [x00; x00; x00; x00; xaa] = None)) ∧
  (∃ packs rest,
     splitBuffer (length [x00; x00; x00; x05; xaa; x00; x00; x00; x04; xbb])
       [x00; x00; x00; x05; xaa; x00; x00; x00; x04; xbb] = Some (packs, rest)).
Proof.
  split; [|split].
  - apply (proj1 splitBuffer_progress
             [xff; xff; xff; xfe; x01; x02; x03; x04]
             [xff; xff; xff; xfe; x01; x02]).
    reflexivity.
  - apply (proj1 (proj2 splitBuffer_progress) [x00; x00; x00; x00; xaa]).
    + simpl. lia.
    + reflexivity.
  - apply (proj2 (proj2 splitBuffer_progress)).
    apply (lengths_from_example 1). lia.
Defined.

(** ** Invariants of the event loop *)

Lemma tame_set_live b : tame (set_live b).
Proof. done. Qed.

Lemma tame_set_online v : tame (set_online v).
Proof. done. Qed.

Lemma tame_set_buffer b : tame (set_buffer b).
Proof. done. Qed.

Lemma tame_remove_once p : tame (set_listeners (remove_listener (OnceResolve p))).
Proof.
  intros s. split; [done|]. split; [done|]. cbn [set_listeners Live.listeners].
  apply standing_remove_once.
Qed.

Lemma standing_app ls ls' : standing (ls ++ ls') = standing ls ++ standing ls'.
Proof. unfold standing. apply filter_app. Qed.

Lemma tame_add_once p : tame (set_listeners (λ ls, ls ++ [OnceResolve p])).
Proof.
  intros s. split; [done|]. split; [done|]. cbn [set_listeners Live.listeners].
  rewrite standing_app. cbn. by rewrite app_nil_r.
Qed.

(** The packets by their type: the three tests of the handler exclude
    one another. *)
Lemma dispatch_cases encoder c p w :
  dispatch encoder c p w =
  if String.eqb (type p) "welcome" then
    Done (send c (encoder OpHeartbeat)
            (emit encoder c (VString "live") []
               (update_session c (set_live true) w)))
  else if String.eqb (type p) "heartbeat" then
    Done (emit encoder c (VString "heartbeat")
            [AValue (session_online c (beat c (data p) w))] (beat c (data p) w))
  else if String.eqb (type p) "message" then
    dispatch encoder c {| type := "message"; data := data p |} w
  else Done w.
Proof.
  destruct p as [ty d]. cbn [type data].
  destruct (String.eqb_spec ty "welcome") as [->|H1]; [reflexivity|].
  destruct (String.eqb_spec ty "heartbeat") as [->|H2]; [reflexivity|].
  destruct (String.eqb_spec ty "message") as [->|H3]; [reflexivity|].
  unfold dispatch. cbn [type data].
  rewrite (proj2 (String.eqb_neq _ _) H1), (proj2 (String.eqb_neq _ _) H2),
    (proj2 (String.eqb_neq _ _) H3).
  reflexivity.
Qed.

Lemma run_listener_heartbeat encoder nested c args w :
  run_listener encoder nested c args KeepHeartbeat w
  = match keep w with
    | Some k => watch k c w
    | None => w
    end.
Proof. reflexivity. Qed.

Lemma getOnline_next encoder c w :
  getOnline encoder c w
  = (promise_count w,
     update_session c (set_listeners (λ ls, ls ++ [OnceResolve (promise_count w)]))
       (next_promise (heartbeat encoder c w))).
Proof. reflexivity. Qed.

(** Sessions are never taken out of the heap. *)
Lemma steady_exists w w' c :
  steady w w' → is_Some (sessions w !! c) → is_Some (sessions w' !! c).
Proof.
  intros (_ & _ & H) [s Hs]. specialize (H c). rewrite Hs in H.
  destruct (sessions w' !! c); [eauto|done].
Qed.

Lemma update_session_exists c f w c' :
  is_Some (sessions w !! c') → is_Some (sessions (update_session c f w) !! c').
Proof.
  intros [s Hs]. cbn [update_session set_sessions sessions].
  destruct (decide (c = c')) as [->|Hne].
  - rewrite lookup_alter_eq, Hs. eauto.
  - rewrite lookup_alter_ne by done. eauto.
Qed.

Lemma beat_exists c v w c' :
  is_Some (sessions w !! c') → is_Some (sessions (beat c v w) !! c').
Proof.
  intros H. unfold beat. cbv zeta. apply update_session_exists.
  cbn [setTimeout snd sessions]. rewrite sessions_clearTimeout.
  by apply update_session_exists.
Qed.

Lemma emit_exists encoder c name args w c' :
  is_Some (sessions w !! c') →
  is_Some (sessions (emit encoder c name args w) !! c').
Proof. apply steady_exists. apply (emit_respects encoder steady). Qed.

Lemma dispatch_exists encoder c p w c' :
  is_Some (sessions w !! c') →
  is_Some (sessions (world_of (dispatch encoder c p w)) !! c').
Proof.
  intros H. rewrite dispatch_cases.
  destruct (String.eqb (type p) "welcome").
  { cbn [world_of]. unfold send. cbn [record sessions].
    by apply emit_exists, update_session_exists. }
  destruct (String.eqb (type p) "heartbeat").
  { cbn [world_of]. by apply emit_exists, beat_exists. }
  destruct (String.eqb (type p) "message"); [|exact H].
  rewrite dispatch_message. cbv zeta.
  pose proof (emit_exists encoder c (VString "msg") [AValue (data p)] w c' H) as H3.
  destruct (command (data p)) as [e|cmd]; [exact H3|].
  destruct (truthy cmd); [|exact H3].
  destruct (includes_DANMU_MSG cmd) as [e|[|]]; cbn [world_of];
    [exact H3| |]; by apply emit_exists.
Qed.

Section Invariants.
Variable encoder : operation → list byte.
Variable decoder : arg → option (list pack).
Context (I : world → Prop) `{!Invariant I}.

Lemma clearTimeout_inv h w : I w → I (clearTimeout h w).
Proof. destruct h; cbn [clearTimeout]; [apply inv_clear|done]. Qed.

Lemma resolve_inv p a w : I w → I (resolve p a w).
Proof.
  unfold resolve. destruct (promises w !! p) eqn:E; [done|].
  by apply inv_resolve.
Qed.

Lemma run_listener_inv nested c args l w :
  (∀ args w, is_Some (sessions w !! c) → I w → I (nested args w)) →
  is_Some (sessions w !! c) → I w →
  I (run_listener encoder nested c args l w).
Proof.
  intros Hn Hc Hw. destruct l.
  - by apply inv_await.
  - by apply inv_record.
  - by apply clearTimeout_inv.
  - cbn [run_listener]. apply Hn; [exact Hc|]. by apply inv_record.
  - by apply resolve_inv.
  - exact Hw.
  - by apply inv_record.
  - cbn [run_listener]. destruct (keep w) as [k|] eqn:Hk; [|exact Hw].
    destruct (Keep.closed k) eqn:Hcl; [exact Hw|]. by apply inv_retry.
  - rewrite run_listener_heartbeat.
    destruct (keep w) as [k|] eqn:Hk; [|exact Hw]. by apply inv_watch.
  - by apply clearTimeout_inv.
Qed.

Lemma call_listener_inv nested c args l w :
  (∀ args w, is_Some (sessions w !! c) → I w → I (nested args w)) →
  is_Some (sessions w !! c) → I w →
  I (call_listener encoder nested c args w l).
Proof.
  intros Hn Hc Hw. unfold call_listener.
  apply run_listener_inv; [exact Hn| |].
  - destruct (is_once l); [|exact Hc]. by apply update_session_exists.
  - destruct l; cbn [is_once]; try exact Hw.
    apply inv_update; [apply tame_remove_once|exact Hw].
Qed.

Lemma foldl_call_listener_inv nested c args ls w :
  (∀ args w, is_Some (sessions w !! c) → I w → I (nested args w)) →
  (∀ args w, steady w (nested args w)) →
  is_Some (sessions w !! c) → I w →
  I (foldl (call_listener encoder nested c args) w ls).
Proof.
  intros Hn Hst. revert w.
  induction ls as [|l ls IH]; intros w Hc Hw; cbn [foldl]; [exact Hw|].
  apply IH.
  - apply (steady_exists w); [|exact Hc].
    by apply (call_listener_respects encoder steady).
  - by apply call_listener_inv.
Qed.

Lemma foldl_relay_inv A (ls : list A) name args w :
  I w → I (foldl (λ w _, record (Emit Supervisor name args) w) w ls).
Proof.
  revert w. induction ls as [|l ls IH]; intros w Hw; cbn [foldl]; [exact Hw|].
  apply IH. by apply inv_record.
Qed.

Lemma emit_with_inv nested c name args w :
  (∀ args w, is_Some (sessions w !! c) → I w → I (nested args w)) →
  (∀ args w, steady w (nested args w)) →
  I w → I (emit_with encoder nested c name args w).
Proof.
  intros Hn Hst Hw. unfold emit_with. apply foldl_relay_inv.
  set (w1 := record (Emit (Session c) name args) w).
  assert (I w1) as H1 by (by apply inv_record).
  destruct (sessions w1 !! c) as [s|] eqn:Hs.
  - apply foldl_call_listener_inv; eauto.
  - unfold session_listeners. rewrite Hs. exact H1.
Qed.

Lemma emit_error_inv c args w : I w → I (emit_error encoder c args w).
Proof.
  apply emit_with_inv; [done|]. intros. apply (respects_refl (P := steady)).
Qed.

Lemma emit_inv c name args w : I w → I (emit encoder c name args w).
Proof.
  apply emit_with_inv.
  - intros. by apply emit_error_inv.
  - intros. apply (emit_error_respects encoder steady).
Qed.

Lemma dispatch_inv c p w :
  is_Some (sessions w !! c) → I w → I (world_of (dispatch encoder c p w)).
Proof.
  intros Hc Hw. rewrite dispatch_cases.
  destruct (String.eqb (type p) "welcome").
  { cbn [world_of]. unfold send. apply inv_record; [done|]. apply emit_inv.
    apply inv_update; [apply tame_set_live|exact Hw]. }
  destruct (String.eqb (type p) "heartbeat").
  { cbn [world_of]. apply emit_inv. by apply inv_beat. }
  destruct (String.eqb (type p) "message"); [|exact Hw].
  rewrite dispatch_message. cbv zeta.
  pose proof (emit_inv c (VString "msg") [AValue (data p)] w Hw) as H3.
  destruct (command (data p)) as [e|cmd]; [exact H3|].
  destruct (truthy cmd); [|exact H3].
  destruct (includes_DANMU_MSG cmd) as [e|[|]]; cbn [world_of];
    [exact H3| |]; by apply emit_inv.
Qed.

Lemma forEach_inv c packs w :
  is_Some (sessions w !! c) → I w → I (world_of (forEach encoder c packs w)).
Proof.
  revert w. induction packs as [|p packs IH]; intros w Hc Hw; cbn [forEach].
  - exact Hw.
  - pose proof (dispatch_inv c p w Hc Hw) as Hd.
    pose proof (dispatch_exists encoder c p w c Hc) as He.
    destruct (dispatch encoder c p w) as [w'|e w']; cbn [world_of] in *.
    + by apply IH.
    + exact Hd.
Qed.

Lemma resume_inv d w :
  grounded w → I w → I (world_of (resume encoder decoder d w)).
Proof.
  intros Hg Hw. unfold resume.
  destruct (decoding w !! d) as [[c a]|] eqn:Hd; [|exact Hw].
  pose proof (Hg d c a Hd) as Hc.
  pose proof (inv_decoded d w Hw) as H1.
  destruct (decoder a) as [packs|]; [|exact H1].
  by apply forEach_inv.
Qed.

Lemma getOnline_inv c w : I w → I (getOnline encoder c w).2.
Proof.
  intros Hw. rewrite getOnline_next. cbn [snd].
  apply inv_update; [apply tame_add_once|]. apply inv_promise.
  unfold heartbeat, send. by apply inv_record.
Qed.

Lemma foldl_emit_message_inv c packs w :
  I w →
  I (foldl (λ w pack, emit encoder c (VString "message") [ABuffer pack] w)
       w packs).
Proof.
  revert w. induction packs as [|p packs IH]; intros w Hw; cbn [foldl];
    [exact Hw|].
  apply IH. by apply emit_inv.
Qed.

Lemma LiveTCP_data_inv fuel c chunk w w' :
  I w → LiveTCP_data encoder fuel c chunk w = Some w' → I w'.
Proof.
  intros Hw. unfold LiveTCP_data.
  destruct (Live.adapter <$> sessions w !! c) as [[?|host port buffer]|];
    try (by intros [= <-]).
  destruct (Framer.onData fuel buffer chunk) as [[packs rest]|]; [|done].
  intros [= <-]. apply foldl_emit_message_inv.
  apply inv_update; [apply tame_set_buffer|exact Hw].
Qed.

Lemma Keep_close_inv w : I w → I (Keep_close w).
Proof.
  intros Hw. unfold Keep_close.
  destruct (keep w) as [k|] eqn:Hk; [|exact Hw].
  pose proof (inv_close k w Hk Hw) as H1.
  destruct (Keep.connection k); [|exact H1].
  unfold close. by apply inv_record.
Qed.

Lemma fire_inv t w : I w → I (fire encoder t w).
Proof.
  intros Hw. unfold fire.
  destruct (timers w !! t) as [[cb ms]|] eqn:Ht; [|exact Hw].
  destruct cb as [c|c|].
  - unfold heartbeat, send. apply inv_record; [done|]. by apply inv_clear.
  - apply emit_inv. unfold close. apply inv_record; [done|]. by apply inv_clear.
  - by apply (inv_connect t ms).
Qed.

Lemma step_inv i w w' :
  grounded w → I w → step encoder decoder i w = Some w' → I w'.
Proof.
  intros Hg Hw. destruct i; cbn [step].
  - intros [= <-]. by apply emit_inv.
  - intros [= <-]. by apply emit_inv.
  - by apply LiveTCP_data_inv.
  - intros [= <-]. by apply emit_inv.
  - intros [= <-]. by apply emit_inv.
  - intros [= <-]. by apply resume_inv.
  - intros [= <-]. by apply fire_inv.
  - intros [= <-]. by apply Keep_close_inv.
  - intros [= <-]. unfold Keep_heartbeat.
    destruct (current w); [|exact Hw]. unfold heartbeat, send.
    by apply inv_record.
  - intros [= <-]. unfold Keep_getOnline.
    destruct (current w) as [c|]; cbn; [|exact Hw].
    by apply getOnline_inv.
Qed.

End Invariants.

Lemma Keep_connect_spec w :
  Keep_connect w
  = match keep w with
    | None => (None, w)
    | Some k =>
        if valid_roomid (Keep.roomid k) then (None, connected k w)
        else (Some (RoomidError (Keep.roomid k)), w)
    end.
Proof.
  unfold Keep_connect. destruct (keep w) as [k|]; [|reflexivity].
  unfold construct, Live_constructor, valid_roomid.
  destruct (String.eqb (typeof (Keep.roomid k)) "number");
    destruct (Number_isNaN (Keep.roomid k)); cbn [negb orb andb]; try reflexivity.
  unfold connected. cbv zeta.
  cbn [setTimeout set_keep record set_liveness update_session set_sessions
       sessions session_count keep timers timer_count liveness decoding
       decode_count promises promise_count log fst snd].
  unfold update_session, set_liveness, set_sessions.
  cbn [sessions session_count keep timers timer_count liveness decoding
       decode_count promises promise_count log].
  rewrite alter_insert_eq. reflexivity.
Qed.

#[local] Instance grounded_invariant : Invariant grounded.
Proof.
  split; unfold grounded; try done.
  - intros c a w Hc Hg d c' a'. cbn [await_decoder decoding sessions].
    destruct (decide (decode_count w = d)) as [->|Hne].
    + rewrite lookup_insert_eq. by intros [= <- <-].
    + rewrite lookup_insert_ne by done. apply Hg.
  - intros d w Hg d' c a. cbn [set_decoding decoding sessions].
    intros [_ H]%lookup_delete_Some. by apply (Hg d' c a).
  - intros c v w Hc Hg d c' a Hd. apply beat_exists. apply (Hg d c' a).
    revert Hd. unfold beat. cbv zeta.
    by destruct (session_timeout c (update_session c (set_online v) w)).
  - intros k c w Hk Hc Hg d c' a. unfold watch. cbv zeta.
    destruct (liveness w !! c); apply Hg.
  - intros c f w _ Hg d c' a Hd. apply update_session_exists.
    by apply (Hg d c' a).
  - intros t ms w Ht Hg d c a. rewrite Keep_connect_spec.
    cbn [set_timers keep].
    destruct (keep w) as [k|]; [|apply Hg].
    destruct (valid_roomid (Keep.roomid k)); cbn [snd]; [|apply Hg].
    unfold connected. cbn [set_timers decoding sessions session_count].
    intros Hd. destruct (Hg d c a Hd) as [s Hs].
    destruct (decide (session_count w = c)) as [->|Hne].
    + rewrite lookup_insert_eq. eauto.
    + rewrite lookup_insert_ne by done. eauto.
Qed.

#[local] Instance and_invariant (I1 I2 : world → Prop)
    `{!Invariant I1} `{!Invariant I2} : Invariant (λ w, I1 w ∧ I2 w).
Proof.
  split.
  - intros a w Ha [H1 H2]. split; by apply inv_record.
  - intros c a w Hc [H1 H2]. split; by apply inv_await.
  - intros d w [H1 H2]. split; by apply inv_decoded.
  - intros t w [H1 H2]. split; by apply inv_clear.
  - intros c v w Hc [H1 H2]. split; by apply inv_beat.
  - intros k w Hk Hc [H1 H2]. split; by apply inv_retry.
  - intros k c w Hk Hc [H1 H2]. split; by apply inv_watch.
  - intros p a w Hp [H1 H2]. split; by apply inv_resolve.
  - intros w [H1 H2]. split; by apply inv_promise.
  - intros c f w Hf [H1 H2]. split; by apply inv_update.
  - intros k w Hk [H1 H2]. split; by apply inv_close.
  - intros t ms w Ht [H1 H2]. split; by apply (inv_connect t ms).
Qed.

Section Runs.
Variable encoder : operation → list byte.
Variable decoder : arg → option (list pack).
Context (I : world → Prop) `{!Invariant I}.

(** A property that every effect keeps holds after every run of the
    loop. *)
Lemma run_inv inputs w w' :
  grounded w → I w → run encoder decoder inputs w = Some w' →
  I w' ∧ grounded w'.
Proof.
  revert w. induction inputs as [|i inputs IH]; intros w Hg Hw; cbn [run].
  - by intros [= <-].
  - destruct (step encoder decoder i w) as [w1|] eqn:Hs; [|done].
    apply IH.
    + by apply (step_inv encoder decoder grounded i w w1).
    + by apply (step_inv encoder decoder I i w w1).
Qed.

End Runs.

Lemma grounded_empty w : decoding w = ∅ → grounded w.
Proof. intros H d c a. by rewrite H, lookup_empty. Qed.

#[local] Instance settled_invariant p a : Invariant (settled p a).
Proof.
  split; unfold settled; try done.
  - intros c v w _. unfold beat. cbv zeta.
    by destruct (session_timeout c (update_session c (set_online v) w)).
  - intros k c w _ _. unfold watch. cbv zeta. by destruct (liveness w !! c).
  - intros q b w Hq Hp. cbn [set_promises promises].
    rewrite lookup_insert_ne; [done|]. congruence.
  - intros t ms w _. rewrite Keep_connect_spec. cbn [set_timers keep].
    destruct (keep w) as [k|]; [|done].
    by destruct (valid_roomid (Keep.roomid k)).
Qed.

(** X6: a promise of [getOnline] that is settled keeps its value for
    good: whatever the transport, the codec, the clock and the caller do
    next, no later heartbeat, error or reconnect changes it. *)
Theorem settled_promise_is_final
    (encoder : operation → list byte) (decoder : arg → option (list pack))
    (inputs : list input) (w w' : world) (p : nat) (a : arg) :
  grounded w →
  promises w !! p = Some a →
  run encoder decoder inputs w = Some w' →
  promises w' !! p = Some a.
Proof.
  intros Hg Hp Hrun.
  by destruct (run_inv encoder decoder (settled p a) inputs w w' Hg Hp Hrun).
Qed.

Lemma settled_promise_is_final_witness :
  ∃ w',
    run demo_encoder demo_decoder
      [TransportMessage 0 [x09]; Decoded 0; TransportClose 0]
      (world_of (dispatch demo_encoder 0
                   {| type := "heartbeat"; data := VNumber (number_of_Z 7) |}
                   (getOnline demo_encoder 0 demo_session).2))
    = Some w' ∧
    Live.online <$> sessions w' !! 0 = Some (VNumber (number_of_Z 9)) ∧
    promises w' !! 0 = Some (AValue (VNumber (number_of_Z 7))).
Proof.
  eexists. split; [reflexivity|]. split; [reflexivity|].
  apply (settled_promise_is_final demo_encoder demo_decoder
           [TransportMessage 0 [x09]; Decoded 0; TransportClose 0]
           (world_of (dispatch demo_encoder 0
                        {| type := "heartbeat"; data := VNumber (number_of_Z 7) |}
                        (getOnline demo_encoder 0 demo_session).2))).
  - apply grounded_empty. reflexivity.
  - reflexivity.
  - reflexivity.
Defined.

#[local] Instance closed_for_good_invariant n opened :
  Invariant (closed_for_good n opened).
Proof.
  split; unfold closed_for_good.
  - intros a w Ha (Hk & Ht & Hn & Hl). repeat split; try done.
    cbn [record log]. rewrite filter_app, Hl, filter_cons, filter_nil.
    rewrite decide_False by (rewrite Ha; discriminate). apply app_nil_r.
  - done.
  - done.
  - intros t w (Hk & Ht & Hn & Hl). repeat split; try done.
    intros t' ms. cbn [set_timers timers].
    intros [_ H]%lookup_delete_Some. by apply (Ht t' ms).
  - intros c v w _ (Hk & Ht & Hn & Hl). unfold beat. cbv zeta.
    destruct (session_timeout c (update_session c (set_online v) w)) as [t0|];
      (repeat split; [exact Hk| |exact Hn|exact Hl]);
      intros t ms; cbn [update_session set_sessions setTimeout snd clearTimeout
                          set_timers timers timer_count].
    + destruct (decide (timer_count w = t)) as [->|Hne].
      * rewrite lookup_insert_eq. discriminate.
      * rewrite lookup_insert_ne by done.
        intros [_ H]%lookup_delete_Some. by apply (Ht t ms).
    + destruct (decide (timer_count w = t)) as [->|Hne].
      * rewrite lookup_insert_eq. discriminate.
      * rewrite lookup_insert_ne by done. apply Ht.
  - intros k w Hk Hc ([k' [Hk' Hc']] & _). congruence.
  - intros k c w _ _ (Hk & Ht & Hn & Hl). unfold watch. cbv zeta.
    destruct (liveness w !! c) as [t0|];
      (repeat split; [exact Hk| |exact Hn|exact Hl]);
      intros t ms; cbn [set_liveness setTimeout snd clearTimeout
                          set_timers timers timer_count].
    + destruct (decide (timer_count w = t)) as [->|Hne].
      * rewrite lookup_insert_eq. discriminate.
      * rewrite lookup_insert_ne by done.
        intros [_ H]%lookup_delete_Some. by apply (Ht t ms).
    + destruct (decide (timer_count w = t)) as [->|Hne].
      * rewrite lookup_insert_eq. discriminate.
      * rewrite lookup_insert_ne by done. apply Ht.
  - done.
  - done.
  - done.
  - intros k w Hk (_ & Ht & Hn & Hl). repeat split; try done.
    cbn [set_keep keep]. eauto.
  - intros t ms w Ht (_ & Hno & _). by destruct (Hno t ms).
Qed.

(** X7: [close()] on the wrapper is final when no retry is pending: from
    a world in which the wrapper is closed and no retry timer is set,
    whatever the transport, the codec, the clock and the caller do next,
    no session is constructed, no transport is opened, no retry is
    scheduled, and the wrapper stays closed. *)
Theorem close_is_final_without_pending_retry
    (encoder : operation → list byte) (decoder : arg → option (list pack))
    (inputs : list input) (w w' : world) (k : Keep.t) :
  grounded w →
  keep w = Some k → Keep.closed k = true →
  (∀ t ms, timers w !! t ≠ Some (CallConnect, ms)) →
  run encoder decoder inputs w = Some w' →
  session_count w' = session_count w ∧
  filter (λ a, is_Connect a = true) (log w')
  = filter (λ a, is_Connect a = true) (log w) ∧
  (∀ t ms, timers w' !! t ≠ Some (CallConnect, ms)) ∧
  Keep.closed <$> keep w' = Some true.
Proof.
  intros Hg Hk Hc Ht Hrun.
  destruct (run_inv encoder decoder
              (closed_for_good (session_count w)
                 (filter (λ a, is_Connect a = true) (log w)))
              inputs w w' Hg) as [((k' & Hk' & Hc') & Ht' & Hn & Hl) _].
  - unfold closed_for_good. eauto 10.
  - exact Hrun.
  - rewrite Hk'. cbn. by rewrite Hc'.
Qed.

Lemma close_is_final_without_pending_retry_witness :
  ∃ w',
    run demo_encoder demo_decoder
      [TransportClose 0; TimerFires 0; TimerFires 1; TransportError 0 "late";
       UserGetOnline; TransportMessage 0 [x05]; Decoded 0; UserClose]
      (Keep_close demo_keep)
    = Some w' ∧
    session_count w' = session_count (Keep_close demo_keep) ∧
    filter (λ a, is_Connect a = true) (log w')
    = filter (λ a, is_Connect a = true) (log (Keep_close demo_keep)) ∧
    (∀ t ms, timers w' !! t ≠ Some (CallConnect, ms)) ∧
    Keep.closed <$> keep w' = Some true.
Proof.
  eexists. split; [reflexivity|].
  eapply (close_is_final_without_pending_retry demo_encoder demo_decoder
            [TransportClose 0; TimerFires 0; TimerFires 1;
             TransportError 0 "late"; UserGetOnline;
             TransportMessage 0 [x05]; Decoded 0; UserClose]
            (Keep_close demo_keep) _
            (Keep.mk room_1 (BaseWS default_address) true 100 45000 (Some 0))).
  - apply grounded_empty. reflexivity.
  - reflexivity.
  - reflexivity.
  - intros t ms H.
    change (timers (Keep_close demo_keep))
      with ({[0 := (CallTimeout 0, 45000%Z)]} : gmap nat (callback * Z)) in H.
    apply lookup_singleton_Some in H as [_ H]. discriminate.
  - reflexivity.
Defined.

(** *** What a heartbeat packet and a heartbeat event change *)

Lemma session_timeout_set_online c v w :
  session_timeout c (update_session c (set_online v) w) = session_timeout c w.
Proof.
  unfold session_timeout. cbn [update_session set_sessions sessions].
  rewrite lookup_alter_eq. by destruct (sessions w !! c).
Qed.

Lemma beat_fields c v w :
  sessions (beat c v w)
  = alter (set_timeout (Some (timer_count w))) c
      (alter (set_online v) c (sessions w)) ∧
  timers (beat c v w)
  = <[timer_count w := (CallHeartbeat c, 30000%Z)]>
      (match session_timeout c w with
       | Some t => delete t (timers w)
       | None => timers w
       end) ∧
  timer_count (beat c v w) = S (timer_count w) ∧
  keep (beat c v w) = keep w ∧
  session_count (beat c v w) = session_count w ∧
  liveness (beat c v w) = liveness w ∧
  log (beat c v w) = log w.
Proof.
  unfold beat. cbv zeta. rewrite session_timeout_set_online.
  destruct (session_timeout c w); repeat split; reflexivity.
Qed.

Lemma watch_fields k c w :
  sessions (watch k c w) = sessions w ∧
  timers (watch k c w)
  = <[timer_count w := (CallTimeout c, Keep.timeout k)]>
      (match liveness w !! c with
       | Some t => delete t (timers w)
       | None => timers w
       end) ∧
  timer_count (watch k c w) = S (timer_count w) ∧
  liveness (watch k c w) = <[c := timer_count w]> (liveness w) ∧
  keep (watch k c w) = keep w ∧
  session_count (watch k c w) = session_count w ∧
  log (watch k c w) = log w.
Proof.
  unfold watch. cbv zeta.
  destruct (liveness w !! c); repeat split; reflexivity.
Qed.

Lemma lookup_alter_roomid (f : Live.t → Live.t) c (m : gmap nat Live.t) c' s :
  (∀ s, Live.roomid (f s) = Live.roomid s) →
  alter f c m !! c' = Some s →
  ∃ s0, m !! c' = Some s0 ∧ Live.roomid s = Live.roomid s0.
Proof.
  intros Hf. destruct (decide (c = c')) as [->|Hne].
  - rewrite lookup_alter_eq. destruct (m !! c') as [s0|]; [|done].
    intros [= <-]. eauto.
  - rewrite lookup_alter_ne by done. eauto.
Qed.

#[local] Instance same_room_invariant r b : Invariant (same_room r b).
Proof.
  split; unfold same_room.
  - intros a w Ha (Hk & Hs & Hl). repeat split; [exact Hk|exact Hs|].
    intros c b'. cbn [record log]. intros [H|H]%elem_of_app; [by eapply Hl|].
    apply list_elem_of_singleton in H as <-. discriminate.
  - intros c a w _ H. exact H.
  - intros d w H. exact H.
  - intros t w H. exact H.
  - intros c v w _ (Hk & Hs & Hl).
    destruct (beat_fields c v w) as (Hbs & _ & _ & Hbk & _ & _ & Hbl).
    rewrite Hbs, Hbk, Hbl. repeat split; [exact Hk| |exact Hl].
    intros c' s H.
    apply lookup_alter_roomid in H as (s1 & H & ->); [|done].
    apply lookup_alter_roomid in H as (s2 & H & ->); [|done].
    by eapply Hs.
  - intros k w _ _ H. exact H.
  - intros k c w _ _ (Hk & Hs & Hl).
    destruct (watch_fields k c w) as (Hws & _ & _ & _ & Hwk & _ & Hwl).
    rewrite Hws, Hwk, Hwl. done.
  - intros p a w _ H. exact H.
  - intros w H. exact H.
  - intros c f w Hf (Hk & Hs & Hl). repeat split; [exact Hk| |exact Hl].
    intros c' s. cbn [update_session set_sessions sessions]. intros H.
    apply lookup_alter_roomid in H as (s1 & H & ->); [|apply Hf].
    by eapply Hs.
  - intros k w Hk ((k' & Hk' & Hr & Hb) & Hs & Hl).
    repeat split; [|exact Hs|exact Hl].
    exists (set_closed true k). rewrite Hk in Hk'. injection Hk' as <-. done.
  - intros t ms w _ ((k & Hk & Hr & Hb) & Hs & Hl).
    rewrite Keep_connect_spec. cbn [set_timers keep]. rewrite Hk.
    destruct (valid_roomid (Keep.roomid k)); cbn [snd];
      [|repeat split; [by exists k|exact Hs|exact Hl]].
    unfold connected. cbn [set_timers keep sessions session_count log].
    repeat split.
    + exists (set_connection (session_count w) k). done.
    + intros c s. destruct (decide (session_count w = c)) as [->|Hne].
      * rewrite lookup_insert_eq. by intros [= <-].
      * rewrite lookup_insert_ne by done. apply Hs.
    + intros c b'. intros [H|H]%elem_of_app; [by eapply Hl|].
      apply list_elem_of_singleton in H. congruence.
Qed.

#[local] Instance wired_invariant : Invariant wired.
Proof.
  split; unfold wired; try done.
  - intros c v w _ Hw c' s.
    destruct (beat_fields c v w) as (-> & _).
    destruct (decide (c = c')) as [->|Hne].
    + rewrite !lookup_alter_eq. destruct (sessions w !! c') as [s0|] eqn:E;
        [|done].
      intros [= <-]. by apply (Hw c' s0).
    + rewrite !lookup_alter_ne by done. apply Hw.
  - intros k c w _ _ Hw c' s.
    destruct (watch_fields k c w) as (-> & _). apply Hw.
  - intros c f w Hf Hw c' s. cbn [update_session set_sessions sessions].
    destruct (decide (c = c')) as [->|Hne].
    + rewrite lookup_alter_eq. destruct (sessions w !! c') as [s0|] eqn:E;
        [|done].
      intros [= <-]. destruct (Hf s0) as (_ & _ & ->). by apply (Hw c' s0).
    + rewrite lookup_alter_ne by done. apply Hw.
  - intros t ms w _ Hw. rewrite Keep_connect_spec. cbn [set_timers keep].
    destruct (keep w) as [k|]; [|exact Hw].
    destruct (valid_roomid (Keep.roomid k)); cbn [snd]; [|exact Hw].
    unfold connected. cbn [set_timers sessions session_count].
    intros c s. destruct (decide (session_count w = c)) as [->|Hne].
    + rewrite lookup_insert_eq. by intros [= <-].
    + rewrite lookup_insert_ne by done. apply Hw.
Qed.

#[local] Instance holds_latest_invariant : Invariant holds_latest.
Proof.
  split; unfold holds_latest; try done.
  - intros c v w _ (Hs & Hk).
    destruct (beat_fields c v w) as (-> & _ & _ & -> & -> & _).
    split; [|exact Hk]. intros c' Hc'.
    rewrite !lookup_alter_None. by apply Hs.
  - intros k c w _ _ (Hs & Hk).
    destruct (watch_fields k c w) as (-> & _ & _ & _ & -> & -> & _). done.
  - intros c f w _ (Hs & Hk). split; [|exact Hk].
    intros c' Hc'. cbn [update_session set_sessions sessions session_count].
    rewrite lookup_alter_None. by apply Hs.
  - intros k w Hk (Hs & (k' & Hk' & Hc)). split; [exact Hs|].
    exists (set_closed true k). rewrite Hk in Hk'. injection Hk' as <-. done.
  - intros t ms w _ (Hs & (k & Hk & Hc)).
    rewrite Keep_connect_spec. cbn [set_timers keep]. rewrite Hk.
    destruct (valid_roomid (Keep.roomid k)); cbn [snd];
      [|split; [exact Hs|by exists k]].
    unfold connected. cbn [set_timers keep sessions session_count]. split.
    + intros c Hle. rewrite lookup_insert_ne by lia. apply Hs. lia.
    + exists (set_connection (session_count w) k). done.
Qed.

(** The world that the constructor of the wrapper leaves. *)
Lemma Keep_constructor_world r b :
  (Keep_constructor r b empty_world).2
  = if valid_roomid r
    then connected (Keep.mk r b false 100 45000 None)
           (set_keep (Some (Keep.mk r b false 100 45000 None)) empty_world)
    else set_keep (Some (Keep.mk r b false 100 45000 None)) empty_world.
Proof.
  unfold Keep_constructor. rewrite Keep_connect_spec.
  cbn [set_keep keep Keep.roomid].
  by destruct (valid_roomid r).
Qed.

Lemma Keep_constructor_grounded r b :
  grounded (Keep_constructor r b empty_world).2.
Proof.
  apply grounded_empty. rewrite Keep_constructor_world.
  by destruct (valid_roomid r).
Qed.

(** X8: the room and the endpoint of a wrapper never change. In every
    world that a run of the event loop reaches from the constructor, the
    wrapper still holds the room id and the endpoint it was constructed
    with, every session it ever made carries this room id, and every
    transport was opened to this endpoint. *)
Theorem room_is_kept_across_reconnects
    (encoder : operation → list byte) (decoder : arg → option (list pack))
    (r : value) (b : base) (inputs : list input) (w' : world) :
  run encoder decoder inputs (Keep_constructor r b empty_world).2 = Some w' →
  (∃ k, keep w' = Some k ∧ Keep.roomid k = r ∧ Keep.base k = b) ∧
  (∀ c s, sessions w' !! c = Some s → Live.roomid s = r) ∧
  (∀ c b', Connect c b' ∈ log w' → b' = b).
Proof.
  intros Hrun.
  destruct (run_inv encoder decoder (same_room r b) inputs _ w'
              (Keep_constructor_grounded r b)) as [H _]; [|exact Hrun|exact H].
  rewrite Keep_constructor_world. unfold same_room.
  destruct (valid_roomid r).
  - unfold connected.
    cbn [set_keep empty_world keep sessions session_count log app].
    repeat split.
    + eexists. split; [reflexivity|]. done.
    + intros c s. destruct (decide (0 = c)) as [<-|Hne].
      * rewrite lookup_insert_eq. by intros [= <-].
      * rewrite lookup_insert_ne by done. by rewrite lookup_empty.
    + intros c b' H. apply list_elem_of_singleton in H.
      injection H as _ ->. reflexivity.
  - cbn [set_keep empty_world keep sessions log]. repeat split.
    + eexists. split; [reflexivity|]. done.
    + intros c s. by rewrite lookup_empty.
    + intros c b' H. by apply elem_of_nil in H.
Qed.

Lemma room_is_kept_across_reconnects_witness :
  ∃ w',
    run demo_encoder demo_decoder
      [TransportClose 0; TimerFires 1; TimerFires 2; TransportClose 1; TimerFires 3]
      (Keep_constructor room_1 (BaseWS default_address) empty_world).2
    = Some w' ∧
    session_count w' = 3 ∧
    ((∃ k, keep w' = Some k ∧ Keep.roomid k = room_1 ∧
           Keep.base k = BaseWS default_address) ∧
     (∀ c s, sessions w' !! c = Some s → Live.roomid s = room_1) ∧
     (∀ c b', Connect c b' ∈ log w' → b' = BaseWS default_address)).
Proof.
  eexists. split; [reflexivity|]. split; [reflexivity|].
  eapply (room_is_kept_across_reconnects demo_encoder demo_decoder room_1
            (BaseWS default_address)
            [TransportClose 0; TimerFires 1; TimerFires 2; TransportClose 1;
             TimerFires 3]).
  reflexivity.
Defined.

(** X9: a wrapper registers its listeners once per session and never
    loses one. In every world that a run of the event loop reaches from
    the constructor, the listeners of every session that were registered
    with [on] are exactly the four of [Live] and the five of the wrapper,
    each once, in the order of registration. The one-shot listeners that
    [getOnline] registers with [once] are not counted here. *)
Theorem listeners_are_registered_once
    (encoder : operation → list byte) (decoder : arg → option (list pack))
    (r : value) (b : base) (inputs : list input) (w' : world)
    (c : nat) (s : Live.t) :
  run encoder decoder inputs (Keep_constructor r b empty_world).2 = Some w' →
  sessions w' !! c = Some s →
  filter (λ l, is_once l = false) (Live.listeners s)
  = [LiveMessage; LiveOpen; LiveClose; Live_error;
     KeepRelay; KeepError; KeepReconnect; KeepHeartbeat; KeepClear].
Proof.
  intros Hrun Hs.
  destruct (run_inv encoder decoder wired inputs _ w'
              (Keep_constructor_grounded r b)) as [H _]; [|exact Hrun|].
  - rewrite Keep_constructor_world. unfold wired.
    destruct (valid_roomid r).
    + unfold connected. cbn [set_keep empty_world sessions session_count].
      intros c0 s0. destruct (decide (0 = c0)) as [<-|Hne].
      * rewrite lookup_insert_eq. by intros [= <-].
      * rewrite lookup_insert_ne by done. by rewrite lookup_empty.
    + cbn [set_keep empty_world sessions]. intros c0 s0.
      by rewrite lookup_empty.
  - exact (H c s Hs).
Qed.

Lemma listeners_are_registered_once_witness :
  ∃ w' s,
    run demo_encoder demo_decoder
      [UserGetOnline; TransportClose 0; TimerFires 1; UserGetOnline;
       TransportMessage 1 [x03]; Decoded 0]
      (Keep_constructor room_1 (BaseWS default_address) empty_world).2
    = Some w' ∧
    sessions w' !! 0 = Some s ∧
    Live.listeners s
    = [LiveMessage; LiveOpen; LiveClose; Live_error;
       KeepRelay; KeepError; KeepReconnect; KeepHeartbeat; KeepClear;
       OnceResolve 0] ∧
    filter (λ l, is_once l = false) (Live.listeners s)
    = [LiveMessage; LiveOpen; LiveClose; Live_error;
       KeepRelay; KeepError; KeepReconnect; KeepHeartbeat; KeepClear].
Proof.
  eexists _,
    (Live.mk room_1 (VNumber (S754_zero false)) false None
       (Live_listeners ++ Keep_listeners ++ [OnceResolve 0])
       (LiveWS default_address)).
  split; [reflexivity|]. split; [vm_compute; reflexivity|].
  split; [reflexivity|].
  eapply (listeners_are_registered_once demo_encoder demo_decoder room_1
            (BaseWS default_address)
            [UserGetOnline; TransportClose 0; TimerFires 1; UserGetOnline;
             TransportMessage 1 [x03]; Decoded 0] _ 0).
  - reflexivity.
  - vm_compute. reflexivity.
Defined.

(** X10: a wrapper holds the session it constructed last. In every world
    that a run of the event loop reaches from the constructor, the sessions
    are numbered in the order of their construction, none is replaced, and
    the current session, to which [online], [roomid], [heartbeat],
    [getOnline], [send] and [close] go, is the last one. *)
Theorem wrapper_holds_latest_session
    (encoder : operation → list byte) (decoder : arg → option (list pack))
    (r : value) (b : base) (inputs : list input) (w' : world) :
  run encoder decoder inputs (Keep_constructor r b empty_world).2 = Some w' →
  (∀ c, session_count w' ≤ c → sessions w' !! c = None) ∧
  match current w' with
  | Some c => S c = session_count w'
  | None => session_count w' = 0
  end.
Proof.
  intros Hrun.
  destruct (run_inv encoder decoder holds_latest inputs _ w'
              (Keep_constructor_grounded r b)) as [[H1 (k & Hk & Hc)] _];
    [|exact Hrun|].
  - rewrite Keep_constructor_world. unfold holds_latest.
    destruct (valid_roomid r).
    + unfold connected. cbn [set_keep empty_world keep sessions session_count].
      split.
      * intros c Hc. rewrite lookup_insert_ne by lia. apply lookup_empty.
      * eexists. split; [reflexivity|]. done.
    + cbn [set_keep empty_world keep sessions session_count]. split.
      * intros c _. apply lookup_empty.
      * eexists. split; [reflexivity|]. done.
  - split; [exact H1|]. unfold current. rewrite Hk. exact Hc.
Qed.

Lemma wrapper_holds_latest_session_witness :
  ∃ w',
    run demo_encoder demo_decoder
      [TransportClose 0; TimerFires 1; TransportClose 1; TimerFires 3]
      (Keep_constructor room_1 (BaseWS default_address) empty_world).2
    = Some w' ∧
    current w' = Some 2 ∧
    ((∀ c, session_count w' ≤ c → sessions w' !! c = None) ∧
     match current w' with
     | Some c => S c = session_count w'
     | None => session_count w' = 0
     end).
Proof.
  eexists. split; [reflexivity|]. split; [reflexivity|].
  eapply (wrapper_holds_latest_session demo_encoder demo_decoder room_1
            (BaseWS default_address)
            [TransportClose 0; TimerFires 1; TransportClose 1; TimerFires 3]).
  reflexivity.
Defined.

(** *** The timers and the places that hold their handles *)

Lemma session_timeout_alter (f : Live.t → Live.t) c c' w :
  (∀ s, Live.timeout (f s) = Live.timeout s) →
  session_timeout c' (update_session c f w) = session_timeout c' w.
Proof.
  intros Hf. unfold session_timeout. cbn [update_session set_sessions sessions].
  destruct (decide (c = c')) as [->|Hne].
  - rewrite lookup_alter_eq. destruct (sessions w !! c'); [|done].
    cbn. apply Hf.
  - by rewrite lookup_alter_ne.
Qed.

(** A timer stays accounted for while the places that hold handles stay
    as they are. *)
Lemma accounted_same w w' t cb ms :
  (∀ c, session_timeout c w = Some t → session_timeout c w' = Some t) →
  (∀ c, liveness w !! c = Some t → liveness w' !! c = Some t) →
  (∀ c, is_Some (sessions w !! c) → is_Some (sessions w' !! c)) →
  accounted w t cb ms → accounted w' t cb ms.
Proof.
  intros Hs Hl He. destruct cb as [c|c|]; cbn [accounted].
  - intros [-> H]. auto.
  - intros (-> & H1 & H2). auto.
  - done.
Qed.

Lemma tracked_connected k w :
  keep w = Some k → tracked w → tracked (connected k w).
Proof.
  intros Hk (Hf & Hs & Hl & (k' & Hk' & Hto & Hiv) & Ht).
  rewrite Hk in Hk'. injection Hk' as <-.
  unfold tracked, connected.
  cbn [sessions session_count keep timers timer_count liveness].
  split; [|split; [|split; [|split]]].
  - intros t Hle. rewrite lookup_insert_ne by lia. apply Hf. lia.
  - intros c Hle. rewrite lookup_insert_ne by lia. apply Hs. lia.
  - intros c t. destruct (decide (session_count w = c)) as [->|Hne].
    + rewrite lookup_insert_eq. intros [= <-]. lia.
    + rewrite lookup_insert_ne by done. intros H%Hl. lia.
  - exists (set_connection (session_count w) k). done.
  - intros t cb ms. destruct (decide (timer_count w = t)) as [<-|Hne].
    + rewrite lookup_insert_eq. intros [= <- <-]. cbn [accounted].
      cbn [liveness sessions]. rewrite !lookup_insert_eq. eauto.
    + rewrite lookup_insert_ne by done. intros H%Ht. revert H.
      assert (∀ c, is_Some (sessions w !! c) → session_count w ≠ c) as Hold.
      { intros c [s Hc] <-. rewrite Hs in Hc by lia. done. }
      destruct cb as [c|c|]; cbn [accounted]; [| |done].
      * intros [-> H]. split; [done|]. revert H. unfold session_timeout.
        cbn [sessions]. destruct (sessions w !! c) as [s|] eqn:E; [|done].
        rewrite lookup_insert_ne by (apply Hold; rewrite E; eauto).
        by rewrite E.
      * intros (-> & H1 & H2). cbn [liveness sessions].
        rewrite !lookup_insert_ne by (by apply Hold). done.
Qed.

#[local] Instance tracked_invariant : Invariant tracked.
Proof.
  split.
  - intros a w _ H. exact H.
  - intros c a w _ H. exact H.
  - intros d w H. exact H.
  - intros t0 w (Hf & Hs & Hl & Hk & Ht). unfold tracked.
    cbn [set_timers sessions session_count keep timers timer_count liveness].
    split; [|split; [exact Hs|split; [exact Hl|split; [exact Hk|]]]].
    + intros t Hle. rewrite lookup_delete_None. right. by apply Hf.
    + intros t cb ms [_ H]%lookup_delete_Some. by apply Ht.
  - intros c v w Hc (Hf & Hs & Hl & Hk & Ht). unfold tracked.
    destruct (beat_fields c v w) as (Hbs & Hbt & Hbc & Hbk & Hbn & Hbl & _).
    rewrite Hbt, Hbc, Hbk, Hbn, Hbl.
    assert (∀ c', is_Some (sessions w !! c')
                  → is_Some (sessions (beat c v w) !! c')) as Hex.
    { intros c'. apply beat_exists. }
    assert (∀ t, timer_count w ≤ t →
              match session_timeout c w with
              | Some t0 => delete t0 (timers w)
              | None => timers w
              end !! t = None) as Hf'.
    { intros t Hle. destruct (session_timeout c w).
      - rewrite lookup_delete_None. right. by apply Hf.
      - by apply Hf. }
    split; [|split; [|split; [|split; [exact Hk|]]]].
    + intros t Hle. rewrite lookup_insert_ne by lia. apply Hf'. lia.
    + intros c' Hle. rewrite Hbs, !lookup_alter_None. by apply Hs.
    + intros c' t H%Hl. lia.
    + intros t cb ms. destruct (decide (timer_count w = t)) as [<-|Hne].
      * rewrite lookup_insert_eq. intros [= <- <-]. cbn [accounted].
        split; [done|]. unfold session_timeout. rewrite Hbs.
        rewrite !lookup_alter_eq. destruct Hc as [s ->]. reflexivity.
      * rewrite lookup_insert_ne by done. intros H.
        assert (timers w !! t = Some (cb, ms) ∧ session_timeout c w ≠ Some t)
          as [H0 Hnot].
        { destruct (session_timeout c w) as [t0|].
          - apply lookup_delete_Some in H as [Hne0 H]. split; [done|].
            congruence.
          - split; [done|discriminate]. }
        apply Ht in H0. revert H0. apply accounted_same.
        -- intros c' Hc'. destruct (decide (c = c')) as [->|Hcc]; [done|].
           unfold session_timeout. rewrite Hbs.
           by rewrite !lookup_alter_ne.
        -- by rewrite Hbl.
        -- exact Hex.
  - intros k w Hk Hcl (Hf & Hs & Hl & Hkk & Ht). unfold tracked.
    cbn [setTimeout snd sessions session_count keep timers timer_count liveness].
    destruct Hkk as (k' & Hk' & Hto & Hiv).
    rewrite Hk in Hk'. injection Hk' as <-.
    split; [|split; [exact Hs|split; [|split; [by exists k|]]]].
    + intros t Hle. rewrite lookup_insert_ne by lia. apply Hf. lia.
    + intros c t H%Hl. lia.
    + intros t cb ms. destruct (decide (timer_count w = t)) as [<-|Hne].
      * rewrite lookup_insert_eq. intros [= <- <-]. exact Hiv.
      * rewrite lookup_insert_ne by done. intros H%Ht. revert H.
        by apply accounted_same.
  - intros k c w Hk Hc (Hf & Hs & Hl & Hkk & Ht). unfold tracked.
    destruct (watch_fields k c w) as (Hws & Hwt & Hwc & Hwl & Hwk & Hwn & _).
    rewrite Hws, Hwt, Hwc, Hwl, Hwk, Hwn.
    destruct Hkk as (k' & Hk' & Hto & Hiv).
    rewrite Hk in Hk'. injection Hk' as <-.
    split; [|split; [exact Hs|split; [|split; [by exists k|]]]].
    + intros t Hle. rewrite lookup_insert_ne by lia.
      destruct (liveness w !! c).
      * rewrite lookup_delete_None. right. apply Hf. lia.
      * apply Hf. lia.
    + intros c' t. destruct (decide (c = c')) as [->|Hne].
      * rewrite lookup_insert_eq. intros [= <-]. lia.
      * rewrite lookup_insert_ne by done. intros H%Hl. lia.
    + intros t cb ms. destruct (decide (timer_count w = t)) as [<-|Hne].
      * rewrite lookup_insert_eq. intros [= <- <-]. cbn [accounted].
        rewrite Hws, Hwl, lookup_insert_eq. done.
      * rewrite lookup_insert_ne by done. intros H.
        assert (timers w !! t = Some (cb, ms) ∧ liveness w !! c ≠ Some t)
          as [H0 Hnot].
        { destruct (liveness w !! c) as [t0|].
          - apply lookup_delete_Some in H as [Hne0 H]. split; [done|].
            congruence.
          - split; [done|discriminate]. }
        apply Ht in H0. revert H0. apply accounted_same.
        -- unfold session_timeout. by rewrite Hws.
        -- intros c' Hc'. rewrite Hwl.
           destruct (decide (c = c')) as [->|Hcc]; [done|].
           by rewrite lookup_insert_ne.
        -- by rewrite Hws.
  - intros p a w _ H. exact H.
  - intros w H. exact H.
  - intros c f w Hf (Hfr & Hs & Hl & Hk & Ht). unfold tracked.
    cbn [update_session set_sessions sessions session_count keep timers
         timer_count liveness].
    split; [exact Hfr|split; [|split; [exact Hl|split; [exact Hk|]]]].
    + intros c' Hle. rewrite lookup_alter_None. by apply Hs.
    + intros t cb ms H%Ht. revert H. apply accounted_same.
      * intros c' <-. apply (session_timeout_alter f c c' w).
        intros s. by destruct (Hf s) as (_ & ? & _).
      * done.
      * intros c'. apply update_session_exists.
  - intros k w Hk (Hf & Hs & Hl & (k' & Hk' & Hto & Hiv) & Ht).
    rewrite Hk in Hk'. injection Hk' as <-.
    unfold tracked. cbn [set_keep sessions session_count keep timers
                          timer_count liveness].
    split; [exact Hf|split; [exact Hs|split; [exact Hl|split; [|exact Ht]]]].
    exists (set_closed true k). done.
  - intros t ms w Hp Hw. rewrite Keep_connect_spec.
    assert (tracked (set_timers (delete t) w)) as Hd.
    { destruct Hw as (Hf & Hs & Hl & Hk & Ht). unfold tracked.
      cbn [set_timers sessions session_count keep timers timer_count liveness].
      split; [|split; [exact Hs|split; [exact Hl|split; [exact Hk|]]]].
      + intros t' Hle. rewrite lookup_delete_None. right. by apply Hf.
      + intros t' cb ms' [_ H]%lookup_delete_Some. by apply Ht. }
    destruct (keep (set_timers (delete t) w)) as [k|] eqn:Hk; [|exact Hd].
    destruct (valid_roomid (Keep.roomid k)); cbn [snd]; [|exact Hd].
    by apply tracked_connected.
Qed.

Lemma tracked_constructor r b :
  tracked (Keep_constructor r b empty_world).2.
Proof.
  rewrite Keep_constructor_world.
  assert (tracked (set_keep (Some (Keep.mk r b false 100 45000 None))
                     empty_world)) as H0.
  { unfold tracked. cbn [set_keep empty_world sessions session_count keep
                           timers timer_count liveness].
    split; [|split; [|split; [|split]]].
    - intros t _. apply lookup_empty.
    - intros c _. apply lookup_empty.
    - intros c t. by rewrite lookup_empty.
    - eexists. split; [reflexivity|]. done.
    - intros t cb ms. by rewrite lookup_empty. }
  destruct (valid_roomid r); [|exact H0].
  by apply tracked_connected.
Qed.

(** X11: every pending timer of a wrapper is accounted for. In every
    world that a run of the event loop reaches from the constructor, a
    pending timer is one of three: the heartbeat timer of a session, set
    for 30 s, whose handle is in [this.timeout] of that session; the
    liveness timer of a session that exists, set for 45 s, whose handle is
    in the [timeout] variable of the [connect()] that made the session; or
    a retry, set for 100 ms. *)
Theorem timers_are_accounted_for
    (encoder : operation → list byte) (decoder : arg → option (list pack))
    (r : value) (b : base) (inputs : list input) (w' : world)
    (t : nat) (cb : callback) (ms : Z) :
  run encoder decoder inputs (Keep_constructor r b empty_world).2 = Some w' →
  timers w' !! t = Some (cb, ms) →
  match cb with
  | CallHeartbeat c => ms = 30000%Z ∧ session_timeout c w' = Some t
  | CallTimeout c =>
      ms = 45000%Z ∧ liveness w' !! c = Some t ∧ is_Some (sessions w' !! c)
  | CallConnect => ms = 100%Z
  end.
Proof.
  intros Hrun Ht.
  destruct (run_inv encoder decoder tracked inputs _ w'
              (Keep_constructor_grounded r b) (tracked_constructor r b) Hrun)
    as [(_ & _ & _ & _ & H) _].
  exact (H t cb ms Ht).
Qed.

Lemma timers_are_accounted_for_witness :
  ∃ w',
    run demo_encoder demo_decoder
      [TransportMessage 0 [x05]; Decoded 0; TransportMessage 0 [x06]; Decoded 1]
      (Keep_constructor room_1 (BaseWS default_address) empty_world).2
    = Some w' ∧
    timers w' !! 3 = Some (CallHeartbeat 0, 30000%Z) ∧
    ((30000 = 30000)%Z ∧ session_timeout 0 w' = Some 3).
Proof.
  eexists. split; [reflexivity|]. split; [vm_compute; reflexivity|].
  eapply (timers_are_accounted_for demo_encoder demo_decoder room_1
            (BaseWS default_address)
            [TransportMessage 0 [x05]; Decoded 0; TransportMessage 0 [x06];
             Decoded 1] _ 3 (CallHeartbeat 0) 30000).
  - reflexivity.
  - vm_compute. reflexivity.
Defined.

(** X12: a session never has two heartbeat timers or two liveness timers
    pending. In every world that a run of the event loop reaches from the
    constructor of a wrapper, two pending timers with the same callback,
    other than a retry, are one and the same timer. *)
Theorem one_timer_of_a_kind_per_session
    (encoder : operation → list byte) (decoder : arg → option (list pack))
    (r : value) (b : base) (inputs : list input) (w' : world)
    (t1 t2 : nat) (cb : callback) (ms1 ms2 : Z) :
  run encoder decoder inputs (Keep_constructor r b empty_world).2 = Some w' →
  cb ≠ CallConnect →
  timers w' !! t1 = Some (cb, ms1) →
  timers w' !! t2 = Some (cb, ms2) →
  t1 = t2.
Proof.
  intros Hrun Hcb H1 H2.
  destruct (run_inv encoder decoder tracked inputs _ w'
              (Keep_constructor_grounded r b) (tracked_constructor r b) Hrun)
    as [(_ & _ & _ & _ & H) _].
  apply H in H1, H2. destruct cb as [c|c|]; cbn [accounted] in *; [| |done].
  - destruct H1 as [_ H1], H2 as [_ H2]. congruence.
  - destruct H1 as (_ & H1 & _), H2 as (_ & H2 & _). congruence.
Qed.

Lemma one_timer_of_a_kind_per_session_witness :
  ∃ w',
    run demo_encoder demo_decoder
      [TransportMessage 0 [x05]; Decoded 0; TransportMessage 0 [x06]; Decoded 1]
      (Keep_constructor room_1 (BaseWS default_address) empty_world).2
    = Some w' ∧
    timers w' !! 4 = Some (CallTimeout 0, 45000%Z) ∧
    4 = 4.
Proof.
  eexists. split; [reflexivity|]. split; [vm_compute; reflexivity|].
  eapply (one_timer_of_a_kind_per_session demo_encoder demo_decoder room_1
            (BaseWS default_address)
            [TransportMessage 0 [x05]; Decoded 0; TransportMessage 0 [x06];
             Decoded 1] _ 4 4 (CallTimeout 0) 45000 45000).
  - reflexivity.
  - discriminate.
  - vm_compute. reflexivity.
  - vm_compute. reflexivity.
Defined.

(** Retries are not held anywhere: two ['close'] events of one session
    leave two of them pending. *)
Example two_retries_pending :
  ∃ w',
    run demo_encoder demo_decoder [TransportClose 0; TransportClose 0]
      (Keep_constructor room_1 (BaseWS default_address) empty_world).2
    = Some w' ∧
    timers w' !! 1 = Some (CallConnect, 100%Z) ∧
    timers w' !! 2 = Some (CallConnect, 100%Z).
Proof. eexists. repeat split; vm_compute; reflexivity. Qed.

(** *** The worlds of a wrapper *)

Lemma same_room_constructor r b :
  same_room r b (Keep_constructor r b empty_world).2.
Proof.
  rewrite Keep_constructor_world. unfold same_room.
  destruct (valid_roomid r).
  - unfold connected.
    cbn [set_keep empty_world keep sessions session_count log app].
    split; [|split].
    + eexists. split; [reflexivity|]. done.
    + intros c s. destruct (decide (0 = c)) as [<-|Hne].
      * rewrite lookup_insert_eq. by intros [= <-].
      * rewrite lookup_insert_ne by done. by rewrite lookup_empty.
    + intros c b' H. apply list_elem_of_singleton in H.
      injection H as _ ->. reflexivity.
  - cbn [set_keep empty_world keep sessions log]. split; [|split].
    + eexists. split; [reflexivity|]. done.
    + intros c s. by rewrite lookup_empty.
    + intros c b' H. by apply elem_of_nil in H.
Qed.

Lemma wired_constructor r b : wired (Keep_constructor r b empty_world).2.
Proof.
  rewrite Keep_constructor_world. unfold wired.
  destruct (valid_roomid r).
  - unfold connected. cbn [set_keep empty_world sessions session_count].
    intros c s. destruct (decide (0 = c)) as [<-|Hne].
    + rewrite lookup_insert_eq. by intros [= <-].
    + rewrite lookup_insert_ne by done. by rewrite lookup_empty.
  - cbn [set_keep empty_world sessions]. intros c s. by rewrite lookup_empty.
Qed.

Lemma holds_latest_constructor r b :
  holds_latest (Keep_constructor r b empty_world).2.
Proof.
  rewrite Keep_constructor_world. unfold holds_latest.
  destruct (valid_roomid r).
  - unfold connected. cbn [set_keep empty_world keep sessions session_count].
    split.
    + intros c Hc. rewrite lookup_insert_ne by lia. apply lookup_empty.
    + eexists. split; [reflexivity|]. done.
  - cbn [set_keep empty_world keep sessions session_count]. split.
    + intros c _. apply lookup_empty.
    + eexists. split; [reflexivity|]. done.
Qed.

(** Every world that the event loop reaches from the constructor of a
    wrapper is sound. *)
Lemma reachable_sound
    (encoder : operation → list byte) (decoder : arg → option (list pack))
    r b inputs w :
  run encoder decoder inputs (Keep_constructor r b empty_world).2 = Some w →
  sound r b w ∧ grounded w.
Proof.
  intros Hrun. unfold sound.
  pose proof (Keep_constructor_grounded r b) as Hg.
  destruct (run_inv encoder decoder tracked inputs _ w Hg
              (tracked_constructor r b) Hrun) as [H1 Hg'].
  destruct (run_inv encoder decoder (same_room r b) inputs _ w Hg
              (same_room_constructor r b) Hrun) as [H2 _].
  destruct (run_inv encoder decoder wired inputs _ w Hg
              (wired_constructor r b) Hrun) as [H3 _].
  destruct (run_inv encoder decoder holds_latest inputs _ w Hg
              (holds_latest_constructor r b) Hrun) as [H4 _].
  done.
Qed.

Section Wired.
Variable encoder : operation → list byte.

(** An emission under a name that no one-shot listener hears, on a
    session whose standing listeners are known. *)
Lemma emit_with_standing nested c name args w s :
  (∀ args w, steady w (nested args w)) →
  sessions w !! c = Some s →
  (∀ l, selected name l = true → is_once l = false) →
  emit_with encoder nested c name args w
  = foldl (λ w _, record (Emit Supervisor name args) w)
      (foldl (call_listener encoder nested c args)
         (record (Emit (Session c) name args) w)
         (filter (λ l, selected name l = true) (standing (Live.listeners s))))
      (filter (λ l, on_relay l = true) (standing (Live.listeners s))).
Proof.
  intros Hn Hs Hsel. unfold emit_with.
  change (session_listeners c (record (Emit (Session c) name args) w))
    with (session_listeners c w).
  rewrite (selected_standing name w c s Hs Hsel).
  f_equal.
  rewrite <- (on_relay_standing (session_listeners c _)).
  rewrite (steady_listeners w).
  - by rewrite (session_listeners_lookup _ _ _ Hs).
  - eapply respects_trans;
      [apply (respects_record (Emit (Session c) name args))|].
    apply (foldl_call_listener_respects encoder steady). exact Hn.
Qed.

Lemma emit_wired c name args w s :
  sessions w !! c = Some s →
  standing (Live.listeners s) = Live_listeners ++ Keep_listeners →
  (∀ l, selected name l = true → is_once l = false) →
  emit encoder c name args w
  = record (Emit Supervisor name args)
      (foldl (call_listener encoder (emit_error encoder c) c args)
         (record (Emit (Session c) name args) w)
         (filter (λ l, selected name l = true)
            (Live_listeners ++ Keep_listeners))).
Proof.
  intros Hs Hst Hsel. unfold emit.
  rewrite (emit_with_standing _ c name args w s); [|
    intros; apply (emit_error_respects encoder steady)|exact Hs|exact Hsel].
  rewrite Hst. reflexivity.
Qed.

Lemma selected_open_standing l :
  selected (VString "open") l = true → is_once l = false.
Proof. by destruct l. Qed.

Lemma selected_close_standing l :
  selected (VString "close") l = true → is_once l = false.
Proof. by destruct l. Qed.

Lemma selected_timeout_standing l :
  selected (VString "timeout") l = true → is_once l = false.
Proof. by destruct l. Qed.

End Wired.

(** X13: whenever the transport of a session of a wrapper opens, the
    session sends one join, for the room the wrapper was constructed with,
    and the wrapper passes the event on; nothing else happens. This holds
    in every world that a run of the event loop reaches from the
    constructor, so after any number of reconnects. *)
Theorem open_sends_join
    (encoder : operation → list byte) (decoder : arg → option (list pack))
    (r : value) (b : base) (inputs : list input) (w : world) (c : nat) :
  run encoder decoder inputs (Keep_constructor r b empty_world).2 = Some w →
  is_Some (sessions w !! c) →
  step encoder decoder (TransportOpen c) w
  = Some (records [ Emit (Session c) (VString "open") [];
                    Send c (encoder (OpJoin r));
                    Emit Supervisor (VString "open") [] ] w).
Proof.
  intros Hrun [s Hs].
  destruct (reachable_sound encoder decoder r b inputs w Hrun)
    as [(_ & (_ & Hroom & _) & Hwired & _) _].
  cbn [step]. f_equal.
  rewrite (emit_wired encoder c _ _ w s Hs (Hwired c s Hs)
             selected_open_standing).
  replace (filter (λ l, selected (VString "open") l = true)
             (Live_listeners ++ Keep_listeners)) with [LiveOpen]
    by reflexivity.
  cbn [foldl]. unfold call_listener. cbn [is_once run_listener].
  unfold session_roomid. cbn [record sessions]. rewrite Hs.
  cbn [fmap option_fmap option_map default]. rewrite (Hroom c s Hs).
  reflexivity.
Qed.

Lemma open_sends_join_witness :
  ∃ w,
    run demo_encoder demo_decoder [TransportClose 0; TimerFires 1]
      (Keep_constructor room_1 (BaseWS default_address) empty_world).2
    = Some w ∧
    is_Some (sessions w !! 1) ∧
    step demo_encoder demo_decoder (TransportOpen 1) w
    = Some (records [ Emit (Session 1) (VString "open") [];
                      Send 1 [x07];
                      Emit Supervisor (VString "open") [] ] w).
Proof.
  eexists. split; [reflexivity|].
  split; [eexists; vm_compute; reflexivity|].
  eapply (open_sends_join demo_encoder demo_decoder room_1
            (BaseWS default_address) [TransportClose 0; TimerFires 1] _ 1).
  - reflexivity.
  - eexists. vm_compute. reflexivity.
Defined.

(** *** The holders of handles *)

Lemma lookup_clearTimeout h w t x :
  timers (clearTimeout h w) !! t = Some x ↔ h ≠ Some t ∧ timers w !! t = Some x.
Proof.
  destruct h as [t0|]; cbn [clearTimeout set_timers timers].
  - rewrite lookup_delete_Some. split; intros [H1 H2]; (split; [congruence|done]).
  - split; [by intros H|by intros [_ H]].
Qed.

Lemma session_timeout_beat c v w c' :
  is_Some (sessions w !! c) →
  session_timeout c' (beat c v w)
  = if decide (c = c') then Some (timer_count w) else session_timeout c' w.
Proof.
  intros [s Hs]. unfold session_timeout.
  destruct (beat_fields c v w) as (-> & _).
  destruct (decide (c = c')) as [<-|Hne].
  - rewrite !lookup_alter_eq, Hs. reflexivity.
  - by rewrite !lookup_alter_ne.
Qed.

#[local] Instance owned_invariant : Invariant owned.
Proof.
  split.
  - intros a w _ H. exact H.
  - intros c a w _ H. exact H.
  - intros d w H. exact H.
  - intros t0 w (Hs & Hl & Hos & Hol). unfold owned.
    split; [exact Hs|split; [exact Hl|split]].
    + intros c t cb ms H Ht. cbn [set_timers timers] in Ht.
      apply lookup_delete_Some in Ht as [_ Ht]. by eapply Hos.
    + intros c t cb ms H Ht. cbn [set_timers timers] in Ht.
      apply lookup_delete_Some in Ht as [_ Ht]. by eapply Hol.
  - intros c v w Hc (Hs & Hl & Hos & Hol). unfold owned.
    destruct (beat_fields c v w) as (_ & Hbt & Hbc & _ & _ & Hbl & _).
    rewrite Hbt, Hbc, Hbl.
    assert (∀ t x, t ≠ timer_count w →
              <[timer_count w := (CallHeartbeat c, 30000%Z)]>
                (match session_timeout c w with
                 | Some t0 => delete t0 (timers w)
                 | None => timers w
                 end) !! t = Some x → timers w !! t = Some x) as Hold.
    { intros t x Hne. rewrite lookup_insert_ne by done.
      destruct (session_timeout c w); [|done].
      by intros [_ H]%lookup_delete_Some. }
    split; [|split; [|split]].
    + intros c' t. rewrite (session_timeout_beat c v w c' Hc).
      destruct (decide (c = c')); [intros [= <-]; lia|]. intros H%Hs. lia.
    + intros c' t H%Hl. lia.
    + intros c' t cb ms. rewrite (session_timeout_beat c v w c' Hc).
      destruct (decide (c = c')) as [<-|Hne].
      * intros [= <-]. rewrite lookup_insert_eq. by intros [= <- <-].
      * intros H Ht. apply (Hos c' t cb ms H). apply Hold; [|exact Ht].
        apply Hs in H. lia.
    + intros c' t cb ms H Ht. apply (Hol c' t cb ms H). apply Hold; [|exact Ht].
      apply Hl in H. lia.
  - intros k w _ _ (Hs & Hl & Hos & Hol). unfold owned.
    cbn [setTimeout snd timers timer_count liveness].
    change (session_timeout ?c (World _ _ _ _ _ _ _ _ _ _ _))
      with (session_timeout c w).
    split; [|split; [|split]].
    + intros c t H%Hs. lia.
    + intros c t H%Hl. lia.
    + intros c t cb ms H. pose proof (Hs c t H).
      rewrite lookup_insert_ne by lia. by apply Hos.
    + intros c t cb ms H. pose proof (Hl c t H).
      rewrite lookup_insert_ne by lia. by apply Hol.
  - intros k c w _ _ (Hs & Hl & Hos & Hol). unfold owned.
    destruct (watch_fields k c w) as (Hws & Hwt & Hwc & Hwl & _).
    rewrite Hwt, Hwc, Hwl.
    assert (∀ c', session_timeout c' (watch k c w) = session_timeout c' w)
      as Hst.
    { intros c'. unfold session_timeout. by rewrite Hws. }
    assert (∀ t x, t ≠ timer_count w →
              <[timer_count w := (CallTimeout c, Keep.timeout k)]>
                (match liveness w !! c with
                 | Some t0 => delete t0 (timers w)
                 | None => timers w
                 end) !! t = Some x → timers w !! t = Some x) as Hold.
    { intros t x Hne. rewrite lookup_insert_ne by done.
      destruct (liveness w !! c); [|done].
      by intros [_ H]%lookup_delete_Some. }
    split; [|split; [|split]].
    + intros c' t. rewrite Hst. intros H%Hs. lia.
    + intros c' t. destruct (decide (c = c')) as [<-|Hne].
      * rewrite lookup_insert_eq. intros [= <-]. lia.
      * rewrite lookup_insert_ne by done. intros H%Hl. lia.
    + intros c' t cb ms. rewrite Hst. intros H Ht.
      apply (Hos c' t cb ms H). apply Hold; [|exact Ht]. apply Hs in H. lia.
    + intros c' t cb ms. destruct (decide (c = c')) as [<-|Hne].
      * rewrite lookup_insert_eq. intros [= <-]. rewrite lookup_insert_eq.
        by intros [= <- <-].
      * rewrite lookup_insert_ne by done. intros H Ht.
        apply (Hol c' t cb ms H). apply Hold; [|exact Ht]. apply Hl in H. lia.
  - intros p a w _ H. exact H.
  - intros w H. exact H.
  - intros c f w Hf (Hs & Hl & Hos & Hol). unfold owned.
    assert (∀ c', session_timeout c' (update_session c f w)
                  = session_timeout c' w) as Hst.
    { intros c'. apply session_timeout_alter. intros s.
      by destruct (Hf s) as (_ & ? & _). }
    split; [|split; [exact Hl|split; [|exact Hol]]].
    + intros c' t. rewrite Hst. apply Hs.
    + intros c' t cb ms. rewrite Hst. apply Hos.
  - intros k w _ H. exact H.
  - intros t0 ms0 w _ (Hs & Hl & Hos & Hol). rewrite Keep_connect_spec.
    assert (owned (set_timers (delete t0) w)) as Hd.
    { unfold owned. split; [exact Hs|split; [exact Hl|split]].
      - intros c t cb ms H Ht. cbn [set_timers timers] in Ht.
        apply lookup_delete_Some in Ht as [_ Ht]. by eapply Hos.
      - intros c t cb ms H Ht. cbn [set_timers timers] in Ht.
        apply lookup_delete_Some in Ht as [_ Ht]. by eapply Hol. }
    destruct (keep (set_timers (delete t0) w)) as [k|]; [|exact Hd].
    destruct (valid_roomid (Keep.roomid k)); cbn [snd]; [|exact Hd].
    clear Hd. unfold owned, connected.
    cbn [set_timers timers timer_count liveness sessions session_count].
    assert (∀ c t,
              session_timeout c
                (World
                   (<[session_count w :=
                        Live.mk (Keep.roomid k) (VNumber (S754_zero false)) false
                          None (Live_listeners ++ Keep_listeners)
                          (adapter_of (Keep.base k))]> (sessions w))
                   (S (session_count w)) (Some (set_connection (session_count w) k))
                   (<[timer_count w := (CallTimeout (session_count w),
                                        Keep.timeout k)]> (delete t0 (timers w)))
                   (S (timer_count w))
                   (<[session_count w := timer_count w]> (liveness w))
                   (decoding w) (decode_count w) (promises w) (promise_count w)
                   (log w ++ [Connect (session_count w) (Keep.base k)]))
              = Some t → session_timeout c w = Some t) as Hst.
    { intros c t. unfold session_timeout. cbn [sessions].
      destruct (decide (session_count w = c)) as [<-|Hne].
      - by rewrite lookup_insert_eq.
      - by rewrite lookup_insert_ne. }
    split; [|split; [|split]].
    + intros c t H%Hst%Hs. lia.
    + intros c t. destruct (decide (session_count w = c)) as [<-|Hne].
      * rewrite lookup_insert_eq. intros [= <-]. lia.
      * rewrite lookup_insert_ne by done. intros H%Hl. lia.
    + intros c t cb ms H%Hst. pose proof (Hs c t H).
      rewrite lookup_insert_ne by lia.
      intros [_ Ht]%lookup_delete_Some. by eapply Hos.
    + intros c t cb ms. destruct (decide (session_count w = c)) as [<-|Hne].
      * rewrite lookup_insert_eq. intros [= <-]. rewrite lookup_insert_eq.
        by intros [= <- <-].
      * rewrite lookup_insert_ne by done. intros H. pose proof (Hl c t H).
        rewrite lookup_insert_ne by lia.
        intros [_ Ht]%lookup_delete_Some. by eapply Hol.
Qed.

Lemma owned_constructor r b : owned (Keep_constructor r b empty_world).2.
Proof.
  rewrite Keep_constructor_world. unfold owned.
  destruct (valid_roomid r).
  - unfold connected, session_timeout.
    cbn [set_keep empty_world sessions session_count timers timer_count
         liveness].
    split; [|split; [|split]].
    + intros c t. destruct (decide (0 = c)) as [<-|Hne].
      * by rewrite lookup_insert_eq.
      * by rewrite lookup_insert_ne, lookup_empty.
    + intros c t. destruct (decide (0 = c)) as [<-|Hne].
      * rewrite lookup_insert_eq. intros [= <-]. lia.
      * by rewrite lookup_insert_ne, lookup_empty.
    + intros c t cb ms. destruct (decide (0 = c)) as [<-|Hne].
      * by rewrite lookup_insert_eq.
      * by rewrite lookup_insert_ne, lookup_empty.
    + intros c t cb ms. destruct (decide (0 = c)) as [<-|Hne].
      * rewrite lookup_insert_eq. intros [= <-]. rewrite lookup_insert_eq.
        by intros [= <- <-].
      * by rewrite lookup_insert_ne, lookup_empty.
  - unfold session_timeout. cbn [set_keep empty_world sessions liveness].
    split; [|split; [|split]]; intros c t; intros; by rewrite lookup_empty in *.
Qed.

Lemma reachable_owned
    (encoder : operation → list byte) (decoder : arg → option (list pack))
    r b inputs w :
  run encoder decoder inputs (Keep_constructor r b empty_world).2 = Some w →
  owned w.
Proof.
  intros Hrun.
  by destruct (run_inv encoder decoder owned inputs _ w
                 (Keep_constructor_grounded r b) (owned_constructor r b) Hrun).
Qed.

(** *** The ['close'] event of a session of a wrapper *)

Lemma lookup_retry k w t x :
  timers (retry k w) !! t = Some x ↔
  (Keep.closed k = false ∧ t = timer_count w ∧ x = (CallConnect, Keep.interval k))
  ∨ (t ≠ timer_count w ∨ Keep.closed k = true) ∧ timers w !! t = Some x ∧
    (Keep.closed k = false → t ≠ timer_count w).
Proof.
  unfold retry. destruct (Keep.closed k).
  - split; [intros H; right; eauto|]. intros [(? & _)|(_ & H & _)]; done.
  - cbn [setTimeout snd timers].
    destruct (decide (timer_count w = t)) as [<-|Hne].
    + rewrite lookup_insert_eq. split.
      * intros [= <-]. left. done.
      * intros [(_ & _ & ->)|(_ & _ & H)]; [done|]. by destruct H.
    + rewrite lookup_insert_ne by done. split.
      * intros H. right. split; [left; congruence|]. split; [done|congruence].
      * intros [(_ & -> & _)|(_ & H & _)]; done.
Qed.

Section CloseEvent.
Variable encoder : operation → list byte.

(** The world after an emission of ['close']: the listeners run in the
    order of their registration, and none of them reads the arguments. *)
Lemma close_event_world c args w s k :
  sessions w !! c = Some s →
  standing (Live.listeners s) = Live_listeners ++ Keep_listeners →
  keep w = Some k →
  emit encoder c (VString "close") args w
  = record (Emit Supervisor (VString "close") args)
      (clearTimeout (liveness w !! c)
         (retry k
            (clearTimeout (Live.timeout s)
               (record (Emit (Session c) (VString "close") args) w)))).
Proof.
  intros Hs Hst Hk.
  rewrite (emit_wired encoder c _ _ w s Hs Hst selected_close_standing).
  replace (filter (λ l, selected (VString "close") l = true)
             (Live_listeners ++ Keep_listeners))
    with [LiveClose; KeepReconnect; KeepClear] by reflexivity.
  cbn [foldl]. unfold call_listener. cbn [is_once].
  set (w1 := record (Emit (Session c) (VString "close") args) w).
  assert (run_listener encoder (emit_error encoder c) c args LiveClose w1
          = clearTimeout (Live.timeout s) w1) as ->.
  { cbn [run_listener]. unfold session_timeout. unfold w1 at 1.
    cbn [record sessions]. rewrite Hs. reflexivity. }
  set (w2 := clearTimeout (Live.timeout s) w1).
  assert (keep w2 = Some k ∧ liveness w2 = liveness w) as [Hk2 Hl2].
  { unfold w2, w1. by destruct (Live.timeout s). }
  assert (run_listener encoder (emit_error encoder c) c args KeepReconnect w2
          = retry k w2) as ->.
  { cbn [run_listener]. rewrite Hk2. reflexivity. }
  assert (liveness (retry k w2) = liveness w) as Hl3.
  { unfold retry. by destruct (Keep.closed k). }
  cbn [run_listener]. rewrite Hl3. reflexivity.
Qed.

(** What the listeners of ['close'] leave of a world in which the timers
    are accounted for and the handles owned. *)
Lemma close_event_fields c args w s k :
  tracked w → owned w →
  sessions w !! c = Some s → keep w = Some k →
  let w' := record (Emit Supervisor (VString "close") args)
              (clearTimeout (liveness w !! c)
                 (retry k
                    (clearTimeout (Live.timeout s)
                       (record (Emit (Session c) (VString "close") args) w)))) in
  keep w' = Some k ∧ sessions w' = sessions w ∧
  log w' = log w ++ [ Emit (Session c) (VString "close") args;
                      Emit Supervisor (VString "close") args ] ∧
  stops c k w w'.
Proof.
  intros (Hfresh & _ & Hbound & (k' & Hk' & Hto & Hiv) & Hacc)
         (Hsb & _ & Hos & Hol) Hs Hk.
  rewrite Hk in Hk'. injection Hk' as <-.
  assert (session_timeout c w = Live.timeout s) as Hst.
  { unfold session_timeout. by rewrite Hs. }
  set (w1 := record (Emit (Session c) (VString "close") args) w).
  assert (timers w1 = timers w ∧ timer_count w1 = timer_count w) as [Ht1 Hc1]
    by done.
  set (w2 := clearTimeout (Live.timeout s) w1).
  assert (timer_count w2 = timer_count w) as Hc2.
  { unfold w2. by destruct (Live.timeout s). }
  assert (∀ t x,
            timers (record (Emit Supervisor (VString "close") args)
                      (clearTimeout (liveness w !! c) (retry k w2))) !! t
            = Some x ↔
            liveness w !! c ≠ Some t ∧
            ((Keep.closed k = false ∧ t = timer_count w ∧
              x = (CallConnect, 100%Z))
             ∨ (t ≠ timer_count w ∨ Keep.closed k = true) ∧
               (Live.timeout s ≠ Some t ∧ timers w !! t = Some x) ∧
               (Keep.closed k = false → t ≠ timer_count w))) as Hlook.
  { intros t x. cbn [record timers].
    rewrite lookup_clearTimeout, lookup_retry, Hc2, Hiv.
    unfold w2. rewrite lookup_clearTimeout, Ht1. reflexivity. }
  cbv zeta. split; [|split; [|split]].
  - cbn [record keep]. destruct (liveness w !! c); unfold retry;
      destruct (Keep.closed k); unfold w2; destruct (Live.timeout s); exact Hk.
  - cbn [record sessions]. rewrite sessions_clearTimeout. unfold retry.
    destruct (Keep.closed k); cbn [setTimeout snd sessions]; unfold w2;
      by rewrite sessions_clearTimeout.
  - cbn [record log]. rewrite log_clearTimeout. unfold retry.
    destruct (Keep.closed k); cbn [setTimeout snd log]; unfold w2;
      rewrite log_clearTimeout; cbn [w1 record log];
      by rewrite <- app_assoc.
  - unfold stops. split; [|split; [|split; [|split]]].
    + intros t ms [_ H]%Hlook.
      destruct H as [(_ & _ & [=])|(_ & (Hne & H) & _)].
      apply Hacc in H as [_ H]. congruence.
    + intros t ms [Hne H]%Hlook.
      destruct H as [(_ & _ & [=])|(_ & (_ & H) & _)].
      apply Hacc in H as (_ & H & _). congruence.
    + intros t cb ms Ht Hn1 Hn2. apply Hlook.
      assert (t < timer_count w) as Hlt.
      { destruct (decide (t < timer_count w)); [done|].
        rewrite Hfresh in Ht by lia. done. }
      split.
      * intros Hl. apply Hn2. by apply (Hol c t cb ms).
      * right. split; [left; lia|]. split; [|lia]. split; [|exact Ht].
        rewrite <- Hst. intros Hh. apply Hn1. by apply (Hos c t cb ms).
    + destruct (Keep.closed k) eqn:Hcl.
      * destruct (timers _ !! timer_count w) as [x|] eqn:E; [|done].
        apply Hlook in E as [_ [(? & _)|(_ & (_ & H) & _)]]; [done|].
        rewrite Hfresh in H by lia. done.
      * apply Hlook. split.
        -- intros H%Hbound. lia.
        -- left. done.
    + intros t Hlt. destruct (timers _ !! t) as [x|] eqn:E; [|done].
      apply Hlook in E as [_ [(_ & -> & _)|(_ & (_ & H) & _)]]; [lia|].
      rewrite Hfresh in H by lia. done.
Qed.

End CloseEvent.

(** X14: the ['close'] event of a session of a wrapper stops the session
    and nothing else. In every world that a run of the event loop reaches
    from the constructor, when the transport of a session reports its
    close: the event is passed on; no heartbeat timer and no liveness timer
    of the session remains pending; every other pending timer stays; and
    one retry after 100 ms is scheduled when the wrapper is not closed,
    none when it is. The sessions and the wrapper are left as they are. *)
Theorem close_event_stops_the_session
    (encoder : operation → list byte) (decoder : arg → option (list pack))
    (r : value) (b : base) (inputs : list input) (w : world) (c : nat) :
  run encoder decoder inputs (Keep_constructor r b empty_world).2 = Some w →
  is_Some (sessions w !! c) →
  ∃ w' k,
    step encoder decoder (TransportClose c) w = Some w' ∧
    keep w = Some k ∧ keep w' = Some k ∧ sessions w' = sessions w ∧
    log w' = log w ++ [ Emit (Session c) (VString "close") [];
                        Emit Supervisor (VString "close") [] ] ∧
    (∀ t ms, timers w' !! t ≠ Some (CallHeartbeat c, ms)) ∧
    (∀ t ms, timers w' !! t ≠ Some (CallTimeout c, ms)) ∧
    (∀ t cb ms, timers w !! t = Some (cb, ms) →
                cb ≠ CallHeartbeat c → cb ≠ CallTimeout c →
                timers w' !! t = Some (cb, ms)) ∧
    timers w' !! timer_count w
    = (if Keep.closed k then None else Some (CallConnect, 100%Z)) ∧
    (∀ t, timer_count w < t → timers w' !! t = None).
Proof.
  intros Hrun [s Hs].
  destruct (reachable_sound encoder decoder r b inputs w Hrun)
    as [(Htracked & _ & Hwired & _) _].
  pose proof (reachable_owned encoder decoder r b inputs w Hrun) as Howned.
  destruct Htracked as (Hfresh & Hsf & Hbound & (k & Hk & Hto & Hiv) & Hacc).
  eexists _, k. split; [reflexivity|].
  rewrite (close_event_world encoder c [] w s k Hs (Hwired c s Hs) Hk).
  destruct (close_event_fields c [] w s k) as (H1 & H2 & H3 & H4);
    [unfold tracked; eauto 10|exact Howned|exact Hs|exact Hk|].
  split; [exact Hk|]. split; [exact H1|]. split; [exact H2|].
  split; [exact H3|]. exact H4.
Qed.

Lemma close_event_stops_the_session_witness :
  ∃ w,
    run demo_encoder demo_decoder [TransportMessage 0 [x05]; Decoded 0]
      (Keep_constructor room_1 (BaseWS default_address) empty_world).2
    = Some w ∧
    timers w !! 1 = Some (CallHeartbeat 0, 30000%Z) ∧
    timers w !! 2 = Some (CallTimeout 0, 45000%Z) ∧
    ∃ w' k,
      step demo_encoder demo_decoder (TransportClose 0) w = Some w' ∧
      keep w = Some k ∧ keep w' = Some k ∧ sessions w' = sessions w ∧
      log w' = log w ++ [ Emit (Session 0) (VString "close") [];
                          Emit Supervisor (VString "close") [] ] ∧
      (∀ t ms, timers w' !! t ≠ Some (CallHeartbeat 0, ms)) ∧
      (∀ t ms, timers w' !! t ≠ Some (CallTimeout 0, ms)) ∧
      (∀ t cb ms, timers w !! t = Some (cb, ms) →
                  cb ≠ CallHeartbeat 0 → cb ≠ CallTimeout 0 →
                  timers w' !! t = Some (cb, ms)) ∧
      timers w' !! timer_count w
      = (if Keep.closed k then None else Some (CallConnect, 100%Z)) ∧
      (∀ t, timer_count w < t → timers w' !! t = None).
Proof.
  eexists. split; [reflexivity|].
  split; [vm_compute; reflexivity|]. split; [vm_compute; reflexivity|].
  eapply (close_event_stops_the_session demo_encoder demo_decoder room_1
            (BaseWS default_address) [TransportMessage 0 [x05]; Decoded 0] _ 0).
  - reflexivity.
  - eexists. vm_compute. reflexivity.
Defined.

(** *** The liveness timeout and the retry *)

(** X15: when the liveness timer of a session of a wrapper fires, the
    session closes its transport and emits [timeout], which the wrapper
    passes on; nothing else happens. In particular the timeout itself
    constructs no session and schedules no retry: the reconnect waits for
    the ['close'] event of the transport. *)
Theorem liveness_timeout_closes_only
    (encoder : operation → list byte) (decoder : arg → option (list pack))
    (r : value) (b : base) (inputs : list input) (w : world)
    (t c : nat) (ms : Z) :
  run encoder decoder inputs (Keep_constructor r b empty_world).2 = Some w →
  timers w !! t = Some (CallTimeout c, ms) →
  step encoder decoder (TimerFires t) w
  = Some (records [ Close c;
                    Emit (Session c) (VString "timeout") [];
                    Emit Supervisor (VString "timeout") [] ]
            (set_timers (delete t) w)).
Proof.
  intros Hrun Ht.
  destruct (reachable_sound encoder decoder r b inputs w Hrun)
    as [((_ & _ & _ & _ & Hacc) & _ & Hwired & _) _].
  destruct (Hacc t _ ms Ht) as (_ & _ & [s Hs]).
  cbn [step]. unfold fire. rewrite Ht. f_equal.
  rewrite (emit_wired encoder c _ _ _ s); [reflexivity|exact Hs| |].
  - exact (Hwired c s Hs).
  - exact selected_timeout_standing.
Qed.

Lemma liveness_timeout_closes_only_witness :
  ∃ w,
    run demo_encoder demo_decoder [TransportMessage 0 [x05]; Decoded 0]
      (Keep_constructor room_1 (BaseWS default_address) empty_world).2
    = Some w ∧
    timers w !! 2 = Some (CallTimeout 0, 45000%Z) ∧
    step demo_encoder demo_decoder (TimerFires 2) w
    = Some (records [ Close 0;
                      Emit (Session 0) (VString "timeout") [];
                      Emit Supervisor (VString "timeout") [] ]
              (set_timers (delete 2) w)).
Proof.
  eexists. split; [reflexivity|]. split; [vm_compute; reflexivity|].
  eapply (liveness_timeout_closes_only demo_encoder demo_decoder room_1
            (BaseWS default_address) [TransportMessage 0 [x05]; Decoded 0]
            _ 2 0 45000).
  - reflexivity.
  - vm_compute. reflexivity.
Defined.

(** X16: a retry gives the wrapper a session of its own. In every world
    that a run of the event loop reaches from a constructor that went
    through, a retry timer that fires constructs one new session for the
    same room at the same endpoint: not live, with no heartbeat timer,
    with the listeners of [Live] and of the wrapper, and with a liveness
    timer of 45 s. The wrapper holds it from then on, so that its [online]
    reads 0 again and its [roomid] the room; the older sessions are left as
    they are. *)
Theorem retry_makes_fresh_session
    (encoder : operation → list byte) (decoder : arg → option (list pack))
    (r : value) (b : base) (inputs : list input) (w : world)
    (t : nat) (ms : Z) :
  valid_roomid r = true →
  run encoder decoder inputs (Keep_constructor r b empty_world).2 = Some w →
  timers w !! t = Some (CallConnect, ms) →
  ∃ w',
    step encoder decoder (TimerFires t) w = Some w' ∧
    current w' = Some (session_count w) ∧
    sessions w' !! session_count w
    = Some (Live.mk r (VNumber (S754_zero false)) false None
              (Live_listeners ++ Keep_listeners) (adapter_of b)) ∧
    Keep_online w' = Some (VNumber (S754_zero false)) ∧
    Keep_roomid w' = Some r ∧
    (∀ c, c ≠ session_count w → sessions w' !! c = sessions w !! c) ∧
    log w' = log w ++ [Connect (session_count w) b] ∧
    timers w' !! timer_count w = Some (CallTimeout (session_count w), 45000%Z) ∧
    liveness w' !! session_count w = Some (timer_count w) ∧
    (∀ t', t' ≠ t → t' ≠ timer_count w → timers w' !! t' = timers w !! t').
Proof.
  intros Hr Hrun Ht.
  destruct (reachable_sound encoder decoder r b inputs w Hrun)
    as [((_ & _ & _ & (k & Hk & Hto & _) & _) & ((k' & Hk' & Hkr & Hkb) & _) & _)
          _].
  rewrite Hk in Hk'. injection Hk' as <-.
  eexists. split.
  { cbn [step]. unfold fire. rewrite Ht. rewrite Keep_connect_spec.
    cbn [set_timers keep]. rewrite Hk, Hkr, Hr. reflexivity. }
  cbn [snd]. unfold connected, current, Keep_online, Keep_roomid, current.
  cbn [set_timers keep sessions session_count timers timer_count liveness log
       mbind option_bind set_connection Keep.connection].
  rewrite !lookup_insert_eq, Hkr, Hkb, Hto.
  repeat split.
  - intros c Hne. by rewrite lookup_insert_ne.
  - intros t' Hne1 Hne2. rewrite lookup_insert_ne by done.
    by rewrite lookup_delete_ne.
Qed.

Lemma retry_makes_fresh_session_witness :
  ∃ w,
    run demo_encoder demo_decoder
      [TransportMessage 0 [x05]; Decoded 0; TransportClose 0]
      (Keep_constructor room_1 (BaseWS default_address) empty_world).2
    = Some w ∧
    Keep_online w = Some (VNumber (number_of_Z 5)) ∧
    timers w !! 3 = Some (CallConnect, 100%Z) ∧
    ∃ w',
      step demo_encoder demo_decoder (TimerFires 3) w = Some w' ∧
      current w' = Some (session_count w) ∧
      sessions w' !! session_count w
      = Some (Live.mk room_1 (VNumber (S754_zero false)) false None
                (Live_listeners ++ Keep_listeners)
                (adapter_of (BaseWS default_address))) ∧
      Keep_online w' = Some (VNumber (S754_zero false)) ∧
      Keep_roomid w' = Some room_1 ∧
      (∀ c, c ≠ session_count w → sessions w' !! c = sessions w !! c) ∧
      log w' = log w ++ [Connect (session_count w) (BaseWS default_address)] ∧
      timers w' !! timer_count w
      = Some (CallTimeout (session_count w), 45000%Z) ∧
      liveness w' !! session_count w = Some (timer_count w) ∧
      (∀ t', t' ≠ 3 → t' ≠ timer_count w → timers w' !! t' = timers w !! t').
Proof.
  eexists. split; [reflexivity|].
  split; [vm_compute; reflexivity|]. split; [vm_compute; reflexivity|].
  eapply (retry_makes_fresh_session demo_encoder demo_decoder room_1
            (BaseWS default_address)
            [TransportMessage 0 [x05]; Decoded 0; TransportClose 0] _ 3 100).
  - reflexivity.
  - reflexivity.
  - vm_compute. reflexivity.
Defined.

(** *** A batch of packets *)

Section Batch.
Variable encoder : operation → list byte.

Lemma emit_online c name args w s :
  sessions w !! c = Some s →
  ∃ s', sessions (emit encoder c name args w) !! c = Some s' ∧
        Live.online s' = Live.online s.
Proof.
  intros Hs.
  destruct (steady_lookup w (emit encoder c name args w) c s
              (emit_respects encoder steady c name args w) Hs) as (s' & Hs' & Hf).
  exists s'. split; [exact Hs'|]. unfold frame in Hf. congruence.
Qed.

Lemma getProp_throws v k e : getProp v k = inl e → e = TypeError.
Proof. destruct v; cbn; congruence. Qed.

Lemma command_throws data e : command data = inl e → e = TypeError.
Proof.
  unfold command.
  destruct (getProp data "cmd") as [e1|direct] eqn:H1.
  { intros [= <-]. by apply getProp_throws in H1. }
  destruct (truthy direct); [done|].
  destruct (getProp data "msg") as [e2|wrapper] eqn:H2.
  { intros [= <-]. by apply getProp_throws in H2. }
  destruct (truthy wrapper); [apply getProp_throws|done].
Qed.

Lemma includes_throws cmd e : includes_DANMU_MSG cmd = inl e → e = TypeError.
Proof. destruct cmd; cbn; congruence. Qed.

(** What one packet leaves in [online], and the only way the handler
    raises. *)
Lemma dispatch_online c p w s :
  sessions w !! c = Some s →
  (∃ s', sessions (world_of (dispatch encoder c p w)) !! c = Some s' ∧
         Live.online s'
         = if String.eqb (type p) "heartbeat" then data p else Live.online s) ∧
  (∀ e w', dispatch encoder c p w = Thrown e w' →
           e = TypeError ∧ type p = "message").
Proof.
  intros Hs. rewrite dispatch_cases.
  destruct (String.eqb_spec (type p) "welcome") as [Hw|Hw].
  { rewrite Hw. change (String.eqb "welcome" "heartbeat") with false.
    cbn [world_of]. split; [|done].
    unfold send. cbn [record sessions].
    destruct (emit_online c (VString "live") []
                (update_session c (set_live true) w) (set_live true s))
      as (s' & H1 & H2).
    { cbn [update_session set_sessions sessions].
      rewrite lookup_alter_eq, Hs. reflexivity. }
    exists s'. split; [exact H1|exact H2]. }
  destruct (String.eqb_spec (type p) "heartbeat") as [Hh|Hh].
  { cbn [world_of]. split; [|done].
    destruct (beat_spec c (data p) w s Hs) as (Hb & _).
    destruct (emit_online c (VString "heartbeat")
                [AValue (session_online c (beat c (data p) w))] _ _ Hb)
      as (s' & Hs' & Ho).
    exists s'. split; [exact Hs'|]. exact Ho. }
  destruct (String.eqb_spec (type p) "message") as [Hm|Hm];
    [|split; [exists s; split; [exact Hs|reflexivity]|done]].
  rewrite dispatch_message. cbv zeta.
  destruct (emit_online c (VString "msg") [AValue (data p)] w s Hs)
    as (s3 & Hs3 & Ho3).
  set (w3 := emit encoder c (VString "msg") [AValue (data p)] w) in *.
  clearbody w3.
  assert (∀ name, ∃ s', sessions (emit encoder c name [AValue (data p)] w3) !! c
                        = Some s' ∧ Live.online s' = Live.online s) as Hnext.
  { intros name.
    destruct (emit_online c name [AValue (data p)] w3 s3 Hs3) as (s' & H1 & H2).
    exists s'. split; [exact H1|congruence]. }
  assert (∃ s', sessions w3 !! c = Some s' ∧ Live.online s' = Live.online s)
    as Hhere by eauto.
  destruct (command (data p)) as [e|cmd] eqn:Hc.
  - split; [exact Hhere|]. intros e' w' [= <- _]. split; [|exact Hm].
    by apply command_throws in Hc.
  - destruct (truthy cmd); [|split; [exact Hhere|done]].
    destruct (includes_DANMU_MSG cmd) as [e|[|]] eqn:Hi; cbn [world_of].
    + split; [exact Hhere|]. intros e' w' [= <- _]. split; [|exact Hm].
      by apply includes_throws in Hi.
    + split; [apply Hnext|done].
    + split; [apply Hnext|done].
Qed.

End Batch.

(** X17: what a batch of decoded packets leaves in [online], for a batch
    in which no message packet carries the command [error] or [_error].
    When the handler runs to its end, [online] holds the data of the last
    heartbeat packet of the batch, whatever its type, and what it held
    before when the batch has no heartbeat packet. The handler raises only
    a [TypeError], and only at a message packet; the packets after that
    one are dropped, and [online] holds what the packets before it left. *)
Theorem batch_sets_online
    (encoder : operation → list byte) (c : nat) (packs : list pack)
    (w : world) (s : Live.t) :
  forallb plain packs = true →
  sessions w !! c = Some s →
  match forEach encoder c packs w with
  | Done w' =>
      Live.online <$> sessions w' !! c
      = Some (last_count packs (Live.online s))
  | Thrown e w' =>
      e = TypeError ∧
      ∃ before p after,
        packs = before ++ p :: after ∧ type p = "message" ∧
        Live.online <$> sessions w' !! c
        = Some (last_count before (Live.online s))
  end.
Proof.
  intros _. revert w s. induction packs as [|p packs IH]; intros w s Hs.
  - cbn [forEach last_count foldl]. by rewrite Hs.
  - cbn [forEach].
    destruct (dispatch_online encoder c p w s Hs) as [(s1 & Hs1 & Ho1) Hthrow].
    destruct (dispatch encoder c p w) as [w1|e w1] eqn:Hd; cbn [world_of] in Hs1.
    + specialize (IH w1 s1 Hs1). rewrite Ho1 in IH.
      destruct (forEach encoder c packs w1) as [w'|e w'].
      * exact IH.
      * destruct IH as (He & before & q & after & -> & Hq & Ho).
        split; [exact He|]. exists (p :: before), q, after.
        split; [reflexivity|]. split; [exact Hq|exact Ho].
    + destruct (Hthrow e w1 eq_refl) as [-> Hp]. split; [reflexivity|].
      exists [], p, packs. split; [reflexivity|]. split; [exact Hp|].
      rewrite Hs1. cbn. rewrite Ho1, Hp. reflexivity.
Qed.

Lemma batch_sets_online_witness :
  is_Some (sessions demo_keep !! 0) ∧
  (∃ w',
     forEach demo_encoder 0
       [ {| type := "heartbeat"; data := VNumber (number_of_Z 3) |};
         {| type := "message"; data := VObject [("cmd", VString "GIFT")] |};
         {| type := "heartbeat"; data := VString "many" |} ] demo_keep
     = Done w' ∧
     Live.online <$> sessions w' !! 0 = Some (VString "many")) ∧
  (∃ w',
     forEach demo_encoder 0
       [ {| type := "heartbeat"; data := VNumber (number_of_Z 3) |};
         {| type := "message"; data := VNull |};
         {| type := "heartbeat"; data := VNumber (number_of_Z 4) |} ] demo_keep
     = Thrown TypeError w' ∧
     Live.online <$> sessions w' !! 0 = Some (VNumber (number_of_Z 3))).
Proof.
  assert (sessions demo_keep !! 0
          = Some (Live.mk room_1 (VNumber (S754_zero false)) false None
                    (Live_listeners ++ Keep_listeners)
                    (LiveWS default_address))) as Hs by reflexivity.
  split; [by rewrite Hs|]. split.
  - pose proof (batch_sets_online demo_encoder 0
                  [ {| type := "heartbeat"; data := VNumber (number_of_Z 3) |};
                    {| type := "message";
                       data := VObject [("cmd", VString "GIFT")] |};
                    {| type := "heartbeat"; data := VString "many" |} ]
                  demo_keep _ eq_refl Hs) as H.
    destruct (forEach _ _ _ _) as [w'|e w'] eqn:E.
    + exists w'. split; [reflexivity|exact H].
    + exfalso. vm_compute in E. discriminate.
  - pose proof (batch_sets_online demo_encoder 0
                  [ {| type := "heartbeat"; data := VNumber (number_of_Z 3) |};
                    {| type := "message"; data := VNull |};
                    {| type := "heartbeat"; data := VNumber (number_of_Z 4) |} ]
                  demo_keep _ eq_refl Hs) as H.
    destruct (forEach _ _ _ _) as [w'|e w'] eqn:E.
    + exfalso. vm_compute in E. discriminate.
    + exists w'. destruct H as [-> _]. split; [reflexivity|].
      vm_compute in E. injection E as <-. vm_compute. reflexivity.
Defined.

(** *** From the socket to the decoder *)

Section SocketToDecoder.
Variable encoder : operation → list byte.

(** Frames emitted as ['message'] events one after the other: each starts
    one decode call, in the order of the frames. *)
Lemma foldl_emit_message c s packs w :
  sessions w !! c = Some s →
  filter (λ l, selected (VString "message") l = true) (Live.listeners s)
  = [LiveMessage] →
  let w' := foldl (λ w pack, emit encoder c (VString "message") [ABuffer pack] w)
              w packs in
  sessions w' = sessions w ∧ keep w' = keep w ∧
  decode_count w' = decode_count w + length packs ∧
  (∀ i pack, packs !! i = Some pack →
             decoding w' !! (decode_count w + i) = Some (c, ABuffer pack)) ∧
  (∀ d, d < decode_count w → decoding w' !! d = decoding w !! d).
Proof.
  intros Hs Hsel. revert w Hs.
  induction packs as [|p packs IH]; intros w Hs; cbn [foldl length].
  - split; [done|]. split; [done|]. split; [lia|]. split; [|done].
    intros i pack. by rewrite lookup_nil.
  - destruct (emit_message encoder c p w s Hs Hsel) as (H1 & H2 & H3 & H4).
    set (w1 := emit encoder c (VString "message") [ABuffer p] w) in *.
    clearbody w1.
    assert (sessions w1 !! c = Some s) as Hs1 by (by rewrite H1).
    destruct (IH w1 Hs1) as (I1 & I2 & I3 & I4 & I5).
    split; [by rewrite I1|]. split; [by rewrite I2|]. split; [lia|]. split.
    + intros [|i] pack; cbn [lookup list_lookup].
      * intros [= <-]. rewrite Nat.add_0_r, I5 by lia.
        rewrite H4. apply lookup_insert_eq.
      * intros Hi. replace (decode_count w + S i) with (decode_count w1 + i)
          by lia. by apply I4.
    + intros d Hd. rewrite I5 by lia. rewrite H4.
      apply lookup_insert_ne. lia.
Qed.

End SocketToDecoder.

(** X18: every frame that the framer cuts from the socket is handed to
    the decoder once, in the order of the stream. When a chunk arrives on
    the socket of a session over TCP and the loop of [splitBuffer] ends,
    one decode call is started for each frame, numbered in the order of
    the frames; the decode calls that were pending stay pending; and the
    session keeps the bytes that make no frame yet. *)
Theorem socket_frames_reach_decoder
    (encoder : operation → list byte) (decoder : arg → option (list pack))
    (c : nat) (s : Live.t) (w : world)
    (host : string) (port : Z) (buffer chunk : list byte)
    (packs : list (list byte)) (rest : list byte) :
  sessions w !! c = Some s →
  Live.adapter s = LiveTCP host port buffer →
  filter (λ l, selected (VString "message") l = true) (Live.listeners s)
  = [LiveMessage] →
  Framer.onData (length buffer + length chunk) buffer chunk = Some (packs, rest) →
  ∃ w',
    step encoder decoder (TransportData c chunk) w = Some w' ∧
    Live.adapter <$> sessions w' !! c = Some (LiveTCP host port rest) ∧
    decode_count w' = decode_count w + length packs ∧
    (∀ i pack, packs !! i = Some pack →
               decoding w' !! (decode_count w + i) = Some (c, ABuffer pack)) ∧
    (∀ d, d < decode_count w → decoding w' !! d = decoding w !! d).
Proof.
  intros Hs Ha Hsel Hdata.
  eexists. split.
  { cbn [step]. unfold buffered, LiveTCP_data. rewrite Hs.
    cbn [fmap option_fmap option_map]. rewrite Ha, Hdata. reflexivity. }
  set (w0 := update_session c (set_buffer rest) w).
  assert (sessions w0 !! c = Some (set_buffer rest s)) as Hs0.
  { unfold w0. cbn [update_session set_sessions sessions].
    rewrite lookup_alter_eq, Hs. reflexivity. }
  destruct (foldl_emit_message encoder c (set_buffer rest s) packs w0 Hs0 Hsel)
    as (H1 & _ & H3 & H4 & H5).
  split; [|split; [exact H3|split; [exact H4|exact H5]]].
  rewrite H1, Hs0. cbn [fmap option_fmap option_map set_buffer Live.adapter].
  rewrite Ha. reflexivity.
Qed.

Lemma socket_frames_reach_decoder_witness :
  ∃ w',
    step demo_encoder demo_decoder
      (TransportData 0 [x00; x00; x00; x05; xaa; x00; x00; x00; x04; x00])
      (construct room_1 (BaseTCP default_host default_port) empty_world).2
    = Some w' ∧
    Live.adapter <$> sessions w' !! 0
    = Some (LiveTCP default_host default_port [x00]) ∧
    decode_count w' = 0 + length [[x00; x00; x00; x05; xaa]; [x00; x00; x00; x04]] ∧
    (∀ i pack,
       [[x00; x00; x00; x05; xaa]; [x00; x00; x00; x04]] !! i = Some pack →
       decoding w' !! (0 + i) = Some (0, ABuffer pack)) ∧
    (∀ d, d < 0 → decoding w' !! d = (∅ : gmap nat (nat * arg)) !! d).
Proof.
  eapply (socket_frames_reach_decoder demo_encoder demo_decoder 0
            (Live.mk room_1 (VNumber (S754_zero false)) false None
               Live_listeners (LiveTCP default_host default_port []))
            (construct room_1 (BaseTCP default_host default_port) empty_world).2
            default_host default_port []
            [x00; x00; x00; x05; xaa; x00; x00; x00; x04; x00]
            [[x00; x00; x00; x05; xaa]; [x00; x00; x00; x04]] [x00]).
  - reflexivity.
  - reflexivity.
  - reflexivity.
  - vm_compute. reflexivity.
Defined.

(** *** The relay channel *)

(** X19: the wrapper passes on the events of its sessions. Whatever the
    arguments of an event that a session of a wrapper emits, under
    whatever name other than [error] and [_error], and whatever the
    listeners of the session do with it, the call is followed, after the
    listeners of the session have run, by one emission of the wrapper
    under the same name with the same arguments. *)
Theorem relay_follows_every_event
    (encoder : operation → list byte) (c : nat) (name : value)
    (args : list arg) (w : world) (s : Live.t) :
  names name "error" = false → names name "_error" = false →
  sessions w !! c = Some s →
  standing (Live.listeners s) = Live_listeners ++ Keep_listeners →
  ∃ middle,
    log (emit encoder c name args w)
    = log w ++ Emit (Session c) name args :: middle
        ++ [Emit Supervisor name args].
Proof.
  intros _ _ Hs Hst. unfold emit.
  rewrite log_emit_with by (intros; apply (emit_error_respects encoder steady)).
  rewrite (session_listeners_lookup _ _ _ Hs), relayed_standing, Hst.
  destruct (foldl_call_listener_respects encoder extends
              (emit_error encoder c) c args
              (filter (λ l, selected name l = true) (Live.listeners s))
              (record (Emit (Session c) name args) w)) as [middle Hm].
  { intros. apply (emit_error_respects encoder extends). }
  exists middle. rewrite Hm. cbn [record log]. rewrite <- !app_assoc.
  reflexivity.
Qed.

Lemma relay_follows_every_event_witness :
  ∃ middle,
    log (emit demo_encoder 0 (VString "heartbeat")
           [AValue (VNumber (number_of_Z 5))] demo_keep)
    = log demo_keep
      ++ Emit (Session 0) (VString "heartbeat")
           [AValue (VNumber (number_of_Z 5))] :: middle
      ++ [Emit Supervisor (VString "heartbeat")
            [AValue (VNumber (number_of_Z 5))]].
Proof.
  eapply (relay_follows_every_event demo_encoder 0 (VString "heartbeat")
            [AValue (VNumber (number_of_Z 5))] demo_keep).
  - reflexivity.
  - reflexivity.
  - reflexivity.
  - reflexivity.
Defined.

(** *** The test for [DANMU_MSG] *)





(** *** Commands named like the events of the session *)

Lemma selected_msg_standing l :
  selected (VString "msg") l = true → is_once l = false.
Proof. by destruct l. Qed.

(** X21: a command named [close] is taken for the close of the transport.
    The session emits a command under its own name on the emitter that
    carries its own listeners. So for a message packet with the command
    [close], in every world that a run of the event loop reaches from the
    constructor of a wrapper, the listeners of ['close'] run: the
    heartbeat timer and the liveness timer of the session are cancelled and
    the wrapper schedules a retry unless it is closed; and the transport
    has not been closed, for no call of [close()] is made. *)
Theorem close_command_acts_as_close_event
    (encoder : operation → list byte) (decoder : arg → option (list pack))
    (r : value) (b : base) (inputs : list input) (w : world) (c : nat)
    (data : value) :
  run encoder decoder inputs (Keep_constructor r b empty_world).2 = Some w →
  is_Some (sessions w !! c) →
  command data = inr (VString "close") →
  ∃ w' k,
    dispatch encoder c {| type := "message"; data := data |} w = Done w' ∧
    keep w = Some k ∧
    log w' = log w ++ [ Emit (Session c) (VString "msg") [AValue data];
                        Emit Supervisor (VString "msg") [AValue data];
                        Emit (Session c) (VString "close") [AValue data];
                        Emit Supervisor (VString "close") [AValue data] ] ∧
    (∀ t ms, timers w' !! t ≠ Some (CallHeartbeat c, ms)) ∧
    (∀ t ms, timers w' !! t ≠ Some (CallTimeout c, ms)) ∧
    timers w' !! timer_count w
    = (if Keep.closed k then None else Some (CallConnect, 100%Z)).
Proof.
  intros Hrun [s Hs] Hc.
  destruct (reachable_sound encoder decoder r b inputs w Hrun)
    as [(Htracked & _ & Hwired & _) _].
  pose proof (reachable_owned encoder decoder r b inputs w Hrun) as Howned.
  pose proof Htracked as (_ & _ & _ & (k & Hk & _) & _).
  rewrite (dispatch_command encoder c data "close" w Hc) by done.
  change (routed_name "close") with (VString "close").
  rewrite (emit_wired encoder c (VString "msg") _ w s Hs (Hwired c s Hs)
             selected_msg_standing).
  replace (filter (λ l, selected (VString "msg") l = true)
             (Live_listeners ++ Keep_listeners)) with (@nil listener)
    by reflexivity.
  cbn [foldl].
  set (w3 := record (Emit Supervisor (VString "msg") [AValue data])
               (record (Emit (Session c) (VString "msg") [AValue data]) w)).
  assert (sessions w3 !! c = Some s) as Hs3 by exact Hs.
  assert (keep w3 = Some k) as Hk3 by exact Hk.
  assert (tracked w3) as Ht3 by exact Htracked.
  assert (owned w3) as Ho3 by exact Howned.
  assert (log w3 = log w ++ [ Emit (Session c) (VString "msg") [AValue data];
                              Emit Supervisor (VString "msg") [AValue data] ])
    as Hl3.
  { unfold w3. cbn [record log]. by rewrite <- app_assoc. }
  assert (timer_count w3 = timer_count w) as Hc3 by reflexivity.
  clearbody w3.
  rewrite (close_event_world encoder c [AValue data] w3 s k Hs3
             (Hwired c s Hs) Hk3).
  destruct (close_event_fields c [AValue data] w3 s k Ht3 Ho3 Hs3 Hk3)
    as (_ & _ & Hlog & Ha & Hb & _ & Hr & _).
  eexists _, k. split; [reflexivity|]. split; [exact Hk|].
  split; [|split; [exact Ha|split; [exact Hb|by rewrite <- Hc3]]].
  rewrite Hlog, Hl3, <- app_assoc. reflexivity.
Qed.

Lemma close_command_acts_as_close_event_witness :
  ∃ w' k,
    dispatch demo_encoder 0
      {| type := "message"; data := VObject [("cmd", VString "close")] |}
      (Keep_constructor room_1 (BaseWS default_address) empty_world).2
    = Done w' ∧
    keep (Keep_constructor room_1 (BaseWS default_address) empty_world).2
    = Some k ∧
    log w'
    = log (Keep_constructor room_1 (BaseWS default_address) empty_world).2
      ++ [ Emit (Session 0) (VString "msg")
             [AValue (VObject [("cmd", VString "close")])];
           Emit Supervisor (VString "msg")
             [AValue (VObject [("cmd", VString "close")])];
           Emit (Session 0) (VString "close")
             [AValue (VObject [("cmd", VString "close")])];
           Emit Supervisor (VString "close")
             [AValue (VObject [("cmd", VString "close")])] ] ∧
    (∀ t ms, timers w' !! t ≠ Some (CallHeartbeat 0, ms)) ∧
    (∀ t ms, timers w' !! t ≠ Some (CallTimeout 0, ms)) ∧
    timers w'
    !! timer_count (Keep_constructor room_1 (BaseWS default_address)
                      empty_world).2
    = (if Keep.closed k then None else Some (CallConnect, 100%Z)).
Proof.
  eapply (close_command_acts_as_close_event demo_encoder demo_decoder room_1
            (BaseWS default_address) [] _ 0
            (VObject [("cmd", VString "close")])).
  - reflexivity.
  - eexists. vm_compute. reflexivity.
  - reflexivity.
Defined.

(** *** A heartbeat packet that is decoded late *)

Lemma run_app (encoder : operation → list byte)
    (decoder : arg → option (list pack)) i1 i2 w w1 :
  run encoder decoder i1 w = Some w1 →
  run encoder decoder (i1 ++ i2) w = run encoder decoder i2 w1.
Proof.
  revert w. induction i1 as [|i i1 IH]; intros w; cbn [run app].
  - by intros [= <-].
  - destruct (step encoder decoder i w) as [w'|]; [apply IH|done].
Qed.

Lemma clock_timers w w' : clock w = clock w' → timers w = timers w'.
Proof. unfold clock. congruence. Qed.

Section HeartbeatEvent.
Variable encoder : operation → list byte.

Lemma clock_watch k c w w' :
  clock w = clock w' → clock (watch k c w) = clock (watch k c w').
Proof.
  unfold clock. intros [= H1 H2 H3 H4].
  destruct (watch_fields k c w) as (_ & -> & -> & -> & -> & _).
  destruct (watch_fields k c w') as (_ & -> & -> & -> & -> & _).
  by rewrite H1, H2, H3, H4.
Qed.

Lemma clock_call_once nested c args w l :
  is_once l = true → clock (call_listener encoder nested c args w l) = clock w.
Proof.
  destruct l; try discriminate. intros _. unfold call_listener.
  cbn [is_once run_listener]. unfold resolve.
  by destruct (promises _ !! p).
Qed.

Lemma clock_call_heartbeat nested c args w w' :
  clock w = clock w' →
  clock (call_listener encoder nested c args w KeepHeartbeat)
  = clock (call_listener encoder nested c args w' KeepHeartbeat).
Proof.
  intros H. unfold call_listener. cbn [is_once].
  rewrite !run_listener_heartbeat.
  assert (keep w = keep w') as <- by (unfold clock in H; congruence).
  destruct (keep w); [by apply clock_watch|exact H].
Qed.

Lemma clock_foldl nested c args ls w w' :
  Forall (λ l, l = KeepHeartbeat ∨ is_once l = true) ls →
  clock w = clock w' →
  clock (foldl (call_listener encoder nested c args) w ls)
  = clock (foldl (call_listener encoder nested c args) w' (standing ls)).
Proof.
  intros Hall. revert w w'.
  induction Hall as [|l ls Hl _ IH]; intros w w' H; [exact H|].
  cbn [foldl]. unfold standing. rewrite filter_cons.
  destruct Hl as [->|Hl].
  - rewrite decide_True by reflexivity. cbn [foldl].
    apply IH. by apply clock_call_heartbeat.
  - rewrite decide_False by (rewrite Hl; discriminate).
    apply IH. by rewrite clock_call_once.
Qed.

Lemma clock_foldl_relay A (ls : list A) a w :
  clock (foldl (λ w _, record a w) w ls) = clock w.
Proof.
  revert w. induction ls as [|l ls IH]; intros w; cbn [foldl]; [done|].
  by rewrite IH.
Qed.

Lemma standing_filter (f : listener → bool) ls :
  standing (filter (λ l, f l = true) ls)
  = filter (λ l, f l = true) (standing ls).
Proof.
  unfold standing. induction ls as [|l ls IH]; [done|].
  rewrite !filter_cons.
  destruct (decide (f l = true)) as [Hf|Hf];
    destruct (decide (is_once l = false)) as [Ho|Ho];
    rewrite ?filter_cons, ?decide_True, ?decide_False by done;
    by rewrite IH.
Qed.

(** The ['heartbeat'] event of a session of a wrapper replaces the
    liveness timer, whatever one-shot listeners are waiting. *)
Lemma emit_heartbeat_clock c args w s k :
  sessions w !! c = Some s →
  standing (Live.listeners s) = Live_listeners ++ Keep_listeners →
  keep w = Some k →
  clock (emit encoder c (VString "heartbeat") args w) = clock (watch k c w).
Proof.
  intros Hs Hst Hk. unfold emit, emit_with. rewrite clock_foldl_relay.
  change (session_listeners c (record (Emit (Session c) (VString "heartbeat")
                                         args) w))
    with (session_listeners c w).
  rewrite (session_listeners_lookup _ _ _ Hs).
  rewrite (clock_foldl _ c args _ _
             (record (Emit (Session c) (VString "heartbeat") args) w)).
  - rewrite standing_filter, Hst.
    replace (filter (λ l, selected (VString "heartbeat") l = true)
               (Live_listeners ++ Keep_listeners)) with [KeepHeartbeat]
      by reflexivity.
    cbn [foldl]. unfold call_listener. cbn [is_once].
    rewrite run_listener_heartbeat. cbn [record keep]. rewrite Hk.
    by apply clock_watch.
  - apply Forall_forall. intros l [Hl _]%list_elem_of_filter.
    destruct l; try discriminate; auto.
  - reflexivity.
Qed.

End HeartbeatEvent.

(** X22: the ['close'] event does not stop the decodes that are under
    way. In every world that a run of the event loop reaches from the
    constructor of a wrapper, let the transport of a session report its
    close while a buffer of that session is still being decoded: the
    timers of the session are cancelled. When the decode then settles on a
    heartbeat packet, [online] is set, and the heartbeat timer of 30 s and
    the liveness timer of 45 s of the closed session are pending again. *)
Theorem late_heartbeat_rearms_timers
    (encoder : operation → list byte) (decoder : arg → option (list pack))
    (r : value) (b : base) (inputs : list input) (w : world)
    (c d : nat) (a : arg) (v : value) :
  run encoder decoder inputs (Keep_constructor r b empty_world).2 = Some w →
  decoding w !! d = Some (c, a) →
  decoder a = Some [ {| type := "heartbeat"; data := v |} ] →
  ∃ w1 w2,
    step encoder decoder (TransportClose c) w = Some w1 ∧
    (∀ t ms, timers w1 !! t ≠ Some (CallHeartbeat c, ms)) ∧
    (∀ t ms, timers w1 !! t ≠ Some (CallTimeout c, ms)) ∧
    step encoder decoder (Decoded d) w1 = Some w2 ∧
    Live.online <$> sessions w2 !! c = Some v ∧
    timers w2 !! timer_count w1 = Some (CallHeartbeat c, 30000%Z) ∧
    timers w2 !! S (timer_count w1) = Some (CallTimeout c, 45000%Z).
Proof.
  intros Hrun Hd Ha.
  destruct (reachable_sound encoder decoder r b inputs w Hrun)
    as [(Htracked & _ & Hwired & _) Hg].
  pose proof (reachable_owned encoder decoder r b inputs w Hrun) as Howned.
  destruct (Hg d c a Hd) as [s Hs].
  pose proof Htracked as (_ & _ & _ & (k & Hk & _) & _).
  assert (run encoder decoder (inputs ++ [TransportClose c])
            (Keep_constructor r b empty_world).2
          = Some (emit encoder c (VString "close") [] w)) as Hrun1.
  { by rewrite (run_app encoder decoder inputs _ _ w Hrun). }
  destruct (reachable_sound encoder decoder r b _ _ Hrun1)
    as [((_ & _ & Hbound1 & (k1 & Hk1 & Hto1 & _) & _) & _ & Hwired1 & _) _].
  assert (decoding (emit encoder c (VString "close") [] w) !! d = Some (c, a)
          ∧ sessions (emit encoder c (VString "close") [] w) !! c = Some s
          ∧ (∀ t ms, timers (emit encoder c (VString "close") [] w) !! t
                     ≠ Some (CallHeartbeat c, ms))
          ∧ (∀ t ms, timers (emit encoder c (VString "close") [] w) !! t
                     ≠ Some (CallTimeout c, ms)))
    as (Hd1 & Hs1 & Hno1 & Hno2).
  { rewrite (close_event_world encoder c [] w s k Hs (Hwired c s Hs) Hk).
    destruct (close_event_fields c [] w s k Htracked Howned Hs Hk)
      as (_ & H2 & _ & H4 & H5 & _).
    split; [|split; [by rewrite H2|split; [exact H4|exact H5]]].
    cbn [record decoding]. destruct (liveness w !! c); unfold retry;
      destruct (Keep.closed k); destruct (Live.timeout s); exact Hd. }
  set (w1 := emit encoder c (VString "close") [] w) in *.
  assert (step encoder decoder (TransportClose c) w = Some w1) as Hstep
    by reflexivity.
  clearbody w1.
  exists w1. eexists. split; [exact Hstep|].
  split; [exact Hno1|]. split; [exact Hno2|].
  split.
  { cbn [step]. unfold resume. rewrite Hd1, Ha. cbn [forEach].
    rewrite dispatch_heartbeat. reflexivity. }
  cbn [world_of].
  set (w0 := set_decoding (delete d) w1).
  assert (sessions w0 !! c = Some s) as Hs0 by exact Hs1.
  destruct (beat_spec c v w0 s Hs0) as (Hb & Hon & _).
  destruct (beat_fields c v w0) as (_ & Hbt & Hbc & Hbk & _ & Hbl & _).
  rewrite Hon.
  split.
  { destruct (emit_online encoder c (VString "heartbeat") [AValue v] _ _ Hb)
      as (s' & -> & Ho). cbn [fmap option_fmap option_map]. by rewrite Ho. }
  assert (standing (Live.listeners
                      (set_timeout (Some (timer_count w0)) (set_online v s)))
          = Live_listeners ++ Keep_listeners) as Hst.
  { exact (Hwired1 c s Hs1). }
  assert (keep (beat c v w0) = Some k1) as Hkb by (by rewrite Hbk).
  rewrite (clock_timers _ _
             (emit_heartbeat_clock encoder c [AValue v] (beat c v w0) _ k1
                Hb Hst Hkb)).
  destruct (watch_fields k1 c (beat c v w0)) as (_ & -> & _).
  rewrite Hbc, Hbl, Hbt, Hto1.
  change (timer_count w0) with (timer_count w1).
  change (liveness w0) with (liveness w1).
  split.
  - rewrite lookup_insert_ne by lia.
    destruct (liveness w1 !! c) as [tl|] eqn:Hl.
    + apply Hbound1 in Hl. rewrite lookup_delete_ne by lia.
      apply lookup_insert_eq.
    + apply lookup_insert_eq.
  - apply lookup_insert_eq.
Qed.

Lemma late_heartbeat_rearms_timers_witness :
  ∃ w,
    run demo_encoder demo_decoder [TransportMessage 0 [x07]]
      (Keep_constructor room_1 (BaseWS default_address) empty_world).2
    = Some w ∧
    decoding w !! 0 = Some (0, ABuffer [x07]) ∧
    ∃ w1 w2,
      step demo_encoder demo_decoder (TransportClose 0) w = Some w1 ∧
      (∀ t ms, timers w1 !! t ≠ Some (CallHeartbeat 0, ms)) ∧
      (∀ t ms, timers w1 !! t ≠ Some (CallTimeout 0, ms)) ∧
      step demo_encoder demo_decoder (Decoded 0) w1 = Some w2 ∧
      Live.online <$> sessions w2 !! 0 = Some (VNumber (number_of_Z 7)) ∧
      timers w2 !! timer_count w1 = Some (CallHeartbeat 0, 30000%Z) ∧
      timers w2 !! S (timer_count w1) = Some (CallTimeout 0, 45000%Z).
Proof.
  eexists. split; [reflexivity|]. split; [vm_compute; reflexivity|].
  eapply (late_heartbeat_rearms_timers demo_encoder demo_decoder room_1
            (BaseWS default_address) [TransportMessage 0 [x07]] _ 0 0
            (ABuffer [x07]) (VNumber (number_of_Z 7))).
  - reflexivity.
  - vm_compute. reflexivity.
  - reflexivity.
Defined.

(** *** Turns that never end *)

(** X23: a turn of the event loop ends, except when the framer stalls.
    Whatever the world, every event of a transport, of the codec, of the
    clock and of the caller is handled in finitely many steps, with one
    exception: a chunk on the socket of a session over TCP for which the
    loop of [splitBuffer], run on the buffer followed by the chunk, never
    ends. *)
Theorem only_a_stalled_framer_hangs
    (encoder : operation → list byte) (decoder : arg → option (list pack))
    (i : input) (w : world) :
  step encoder decoder i w = None ↔
  ∃ c chunk host port buffer,
    i = TransportData c chunk ∧
    Live.adapter <$> sessions w !! c = Some (LiveTCP host port buffer) ∧
    ∀ fuel, splitBuffer fuel (buffer ++ chunk) = None.
Proof.
  split.
  - destruct i; cbn [step]; try discriminate.
    unfold LiveTCP_data, buffered.
    destruct (Live.adapter <$> sessions w !! c)
      as [[address|host port buffer]|] eqn:Ha; try discriminate.
    unfold onData, concat2.
    destruct (splitBuffer (length buffer + length chunk) (buffer ++ chunk))
      as [[packs rest]|] eqn:E; [discriminate|]. intros _.
    exists c, chunk, host, port, buffer. split; [reflexivity|].
    split; [exact Ha|]. intros fuel.
    assert (length (buffer ++ chunk) ≤ length buffer + length chunk) as Hlen
      by (rewrite length_app; lia).
    destruct (splitBuffer_None_stuck _ (buffer ++ chunk) Hlen E)
      as (k & packs & b & pack & Hp & Hs).
    destruct (splitBuffer fuel (buffer ++ chunk)) as [r|] eqn:F; [|done].
    destruct (splitBuffer_passes _ _ _ _ _ _ Hp F) as (packs' & _ & Hb).
    by rewrite (splitBuffer_stuck _ b pack Hs) in Hb.
  - intros (c & chunk & host & port & buffer & -> & Ha & Hnone).
    cbn [step]. unfold LiveTCP_data, buffered. rewrite Ha.
    unfold onData, concat2. by rewrite Hnone.
Qed.

(** *** A promise and the session it waits on *)

Section PromiseAndSession.
Variable encoder : operation → list byte.

Lemma sheds_absent w w' c p :
  sheds w w' →
  OnceResolve p ∉ session_listeners c w → OnceResolve p ∉ session_listeners c w'.
Proof. intros Hsh Hno Hin. apply Hno. by apply (Hsh c). Qed.

Lemma call_listener_leaves_promise nested c args w l p :
  (∀ args w, promises (nested args w) !! p = promises w !! p) →
  l ≠ OnceResolve p →
  promises (call_listener encoder nested c args w l) !! p = promises w !! p.
Proof.
  intros Hn Hne. destruct l; unfold call_listener; cbn [is_once run_listener];
    rewrite ?promises_clearTimeout; try reflexivity.
  - by rewrite Hn.
  - unfold resolve. cbn [update_session set_sessions promises].
    destruct (promises w !! p0); [reflexivity|].
    cbn [set_promises promises]. rewrite lookup_insert_ne; [done|congruence].
  - destruct (keep w) as [k|]; [|reflexivity].
    by destruct (Keep.closed k).
  - destruct (keep w) as [k|]; [|reflexivity].
    by destruct (liveness w !! c).
Qed.

Lemma foldl_leaves_promise nested c args ls w p :
  (∀ args w, promises (nested args w) !! p = promises w !! p) →
  OnceResolve p ∉ ls →
  promises (foldl (call_listener encoder nested c args) w ls) !! p
  = promises w !! p.
Proof.
  intros Hn. revert w. induction ls as [|l ls IH]; intros w Hno; [done|].
  cbn [foldl]. rewrite IH.
  - apply call_listener_leaves_promise; [exact Hn|].
    intros ->. apply Hno. by left.
  - intros H. apply Hno. by right.
Qed.

Lemma promises_foldl_relay A (ls : list A) a w :
  promises (foldl (λ w _, record a w) w ls) = promises w.
Proof.
  revert w. induction ls as [|l ls IH]; intros w; cbn [foldl]; [done|].
  by rewrite IH.
Qed.

Lemma emit_with_leaves_promise nested c name args w p :
  (∀ args w, promises (nested args w) !! p = promises w !! p) →
  OnceResolve p ∉ session_listeners c w →
  promises (emit_with encoder nested c name args w) !! p = promises w !! p.
Proof.
  intros Hn Hno. unfold emit_with. rewrite promises_foldl_relay.
  rewrite foldl_leaves_promise; [reflexivity|exact Hn|].
  intros [_ H]%list_elem_of_filter. by apply Hno.
Qed.

(** An event of a session settles no promise that waits on another
    session. *)
Lemma emit_leaves_promise c name args w p :
  OnceResolve p ∉ session_listeners c w →
  promises (emit encoder c name args w) !! p = promises w !! p.
Proof.
  intros Hno. unfold emit. apply emit_with_leaves_promise; [|exact Hno].
  intros args' w'. unfold emit_error, emit_with.
  rewrite promises_foldl_relay.
  rewrite foldl_leaves_promise; [reflexivity|done|].
  intros [H _]%list_elem_of_filter. discriminate.
Qed.

End PromiseAndSession.

(** X24: a promise of [getOnline] waits on the session that the wrapper
    held when the call was made. In every world that a run of the event
    loop reaches from a constructor that went through, let [getOnline] be
    called on the wrapper and a retry fire after that: the wrapper holds a
    new session, and a heartbeat packet of the new session sets [online]
    and leaves the promise as it was. *)
Theorem promise_waits_on_its_session
    (encoder : operation → list byte) (decoder : arg → option (list pack))
    (r : value) (b : base) (inputs : list input) (w w1 : world)
    (p t : nat) (ms : Z) :
  valid_roomid r = true →
  run encoder decoder inputs (Keep_constructor r b empty_world).2 = Some w →
  Keep_getOnline encoder w = Some (p, w1) →
  timers w1 !! t = Some (CallConnect, ms) →
  ∃ w2,
    step encoder decoder (TimerFires t) w1 = Some w2 ∧
    current w2 = Some (session_count w1) ∧
    current w1 ≠ current w2 ∧
    ∀ v, ∃ w3,
      dispatch encoder (session_count w1)
        {| type := "heartbeat"; data := v |} w2 = Done w3 ∧
      Keep_online w3 = Some v ∧
      promises w3 !! p = promises w1 !! p.
Proof.
  intros Hr Hrun Hget Ht.
  assert (run encoder decoder (inputs ++ [UserGetOnline])
            (Keep_constructor r b empty_world).2 = Some w1) as Hrun1.
  { rewrite (run_app encoder decoder inputs _ _ w Hrun). cbn [run step].
    by rewrite Hget. }
  destruct (reachable_sound encoder decoder r b _ w1 Hrun1)
    as [(_ & ((k & Hk & Hkr & Hkb) & _) & _ & (Hfresh & (k' & Hk' & Hcur))) _].
  rewrite Hk in Hk'. injection Hk' as <-.
  assert (step encoder decoder (TimerFires t) w1
          = Some (connected k (set_timers (delete t) w1))) as Hstep.
  { cbn [step]. unfold fire. rewrite Ht, Keep_connect_spec.
    cbn [set_timers keep]. by rewrite Hk, Hkr, Hr. }
  exists (connected k (set_timers (delete t) w1)).
  split; [exact Hstep|].
  assert (current (connected k (set_timers (delete t) w1))
          = Some (session_count w1)) as Hc2 by reflexivity.
  split; [exact Hc2|]. split.
  { rewrite Hc2. unfold current. rewrite Hk. cbn [mbind option_bind].
    destruct (Keep.connection k) as [c|]; [|discriminate].
    intros [= ->]. lia. }
  intros v. eexists. split; [apply dispatch_heartbeat|].
  set (c2 := session_count w1).
  set (w2 := connected k (set_timers (delete t) w1)).
  assert (sessions w2 !! c2
          = Some (Live.mk (Keep.roomid k) (VNumber (S754_zero false)) false None
                    (Live_listeners ++ Keep_listeners)
                    (adapter_of (Keep.base k)))) as Hs2.
  { unfold w2, c2, connected. cbn [set_timers sessions session_count].
    apply lookup_insert_eq. }
  destruct (beat_spec c2 v w2 _ Hs2) as (Hb & Hon & Hls & Hpr & _).
  rewrite Hon. split.
  - unfold Keep_online.
    assert (current (emit encoder c2 (VString "heartbeat") [AValue v]
                       (beat c2 v w2)) = Some c2) as ->.
    { unfold current.
      destruct (emit_respects encoder steady c2 (VString "heartbeat")
                  [AValue v] (beat c2 v w2)) as (-> & _).
      destruct (beat_fields c2 v w2) as (_ & _ & _ & -> & _). exact Hc2. }
    cbn [mbind option_bind].
    destruct (emit_online encoder c2 (VString "heartbeat") [AValue v] _ _ Hb)
      as (s' & -> & Ho).
    cbn [fmap option_fmap option_map]. by rewrite Ho.
  - rewrite emit_leaves_promise.
    + by rewrite Hpr.
    + rewrite Hls. cbn [Live.listeners]. intros H.
      repeat (apply elem_of_cons in H as [H|H]; [discriminate|]).
      by apply elem_of_nil in H.
Qed.

Lemma promise_waits_on_its_session_witness :
  run demo_encoder demo_decoder [TransportClose 0]
    (Keep_constructor room_1 (BaseWS default_address) empty_world).2
  = Some (emit demo_encoder 0 (VString "close") [] demo_keep) ∧
  Keep_getOnline demo_encoder (emit demo_encoder 0 (VString "close") [] demo_keep)
  = Some (getOnline demo_encoder 0
            (emit demo_encoder 0 (VString "close") [] demo_keep)) ∧
  ∃ w2,
    step demo_encoder demo_decoder (TimerFires 1)
      (getOnline demo_encoder 0
         (emit demo_encoder 0 (VString "close") [] demo_keep)).2 = Some w2 ∧
    current w2
    = Some (session_count
              (getOnline demo_encoder 0
                 (emit demo_encoder 0 (VString "close") [] demo_keep)).2) ∧
    current (getOnline demo_encoder 0
               (emit demo_encoder 0 (VString "close") [] demo_keep)).2
    ≠ current w2 ∧
    ∀ v, ∃ w3,
      dispatch demo_encoder
        (session_count
           (getOnline demo_encoder 0
              (emit demo_encoder 0 (VString "close") [] demo_keep)).2)
        {| type := "heartbeat"; data := v |} w2 = Done w3 ∧
      Keep_online w3 = Some v ∧
      promises w3 !! 0
      = promises (getOnline demo_encoder 0
                    (emit demo_encoder 0 (VString "close") [] demo_keep)).2 !! 0.
Proof.
  split; [reflexivity|]. split; [vm_compute; reflexivity|].
  apply (promise_waits_on_its_session demo_encoder demo_decoder room_1
           (BaseWS default_address) [TransportClose 0]
           (emit demo_encoder 0 (VString "close") [] demo_keep)
           (getOnline demo_encoder 0
              (emit demo_encoder 0 (VString "close") [] demo_keep)).2
           0 1 100).
  - reflexivity.
  - reflexivity.
  - vm_compute. reflexivity.
  - vm_compute. reflexivity.
Defined.

(** ** The caller's listeners for ['error'] *)

Arguments emit_with_guarded : simpl never.
Arguments emit_error_guarded : simpl never.
Arguments emit_guarded : simpl never.
Arguments dispatch_guarded : simpl never.

Section GuardedFacts.
Variable encoder : operation → list byte.
Variable heard : emitter → bool.

Lemma run_listeners_foldl f g w ls :
  (∀ w l, l ∈ ls → f w l = Finished (g w l)) →
  run_listeners f w ls = Finished (foldl g w ls).
Proof.
  revert w. induction ls as [|l ls IH]; intros w Hf; [done|].
  cbn [run_listeners foldl]. rewrite Hf by (by left).
  apply IH. intros w' l' Hl'. apply Hf. by right.
Qed.

Lemma is_error_names name : is_error name = true → names name "error" = true.
Proof. by destruct name. Qed.

(** Where the caller listens, or the name is not [error], the emission
    is the one that the program makes without looking at the caller. *)
Lemma emit_with_guarded_agrees nested nested' c name args w :
  (heard (Session c) = true ∧ heard Supervisor = true) ∨ is_error name = false →
  (names name "_error" = true →
   ∀ args w, nested args w = Finished (nested' args w)) →
  emit_with_guarded encoder heard nested c name args w
  = Finished (emit_with encoder nested' c name args w).
Proof.
  intros Hsafe Hn. unfold emit_with_guarded, emit_with.
  assert (∀ who ls, who = Session c ∨ who = Supervisor →
                    unheard heard who name ls = false) as Hun.
  { intros who ls Hwho. unfold unheard.
    destruct Hsafe as [[H1 H2]| ->]; [|done].
    destruct Hwho as [-> | ->]; rewrite ?H1, ?H2;
      by destruct (is_error name). }
  rewrite Hun by (by left). cbv zeta.
  rewrite (run_listeners_foldl _ (call_listener encoder nested' c args)).
  - cbn [and_then]. apply run_listeners_foldl.
    intros w' l _. unfold relay_guarded. rewrite Hun by (by right). done.
  - intros w' l [Hl _]%list_elem_of_filter.
    destruct l; try reflexivity.
    unfold call_listener_guarded, call_listener. cbn [is_once run_listener].
    apply Hn. exact Hl.
Qed.

Lemma emit_error_guarded_agrees c args w :
  heard (Session c) = true → heard Supervisor = true →
  emit_error_guarded encoder heard c args w
  = Finished (emit_error encoder c args w).
Proof.
  intros H1 H2. unfold emit_error_guarded, emit_error.
  apply emit_with_guarded_agrees; [by left|]. discriminate.
Qed.

Lemma emit_guarded_agrees c name args w :
  (heard (Session c) = true ∧ heard Supervisor = true)
  ∨ (names name "error" = false ∧ names name "_error" = false) →
  emit_guarded encoder heard c name args w
  = Finished (emit encoder c name args w).
Proof.
  intros Hsafe. unfold emit_guarded, emit.
  apply emit_with_guarded_agrees.
  - destruct Hsafe as [H|[H _]]; [by left|right].
    destruct (is_error name) eqn:E; [|done].
    apply is_error_names in E. congruence.
  - intros Hn args' w'. destruct Hsafe as [[H1 H2]|[_ H]]; [|congruence].
    by apply emit_error_guarded_agrees.
Qed.

(** The packets by their type, as for [dispatch]. *)
Lemma dispatch_guarded_cases c p w :
  dispatch_guarded encoder heard c p w =
  if String.eqb (type p) "welcome" then
    and_then
      (emit_guarded encoder heard c (VString "live") []
         (update_session c (set_live true) w))
      (λ w, Finished (send c (encoder OpHeartbeat) w))
  else if String.eqb (type p) "heartbeat" then
    emit_guarded encoder heard c (VString "heartbeat")
      [AValue (session_online c (beat c (data p) w))] (beat c (data p) w)
  else if String.eqb (type p) "message" then
    and_then
      (emit_guarded encoder heard c (VString "msg") [AValue (data p)] w)
      (λ w3,
         match command (data p) with
         | inl e => Aborted (Raised e) w3
         | inr cmd =>
             if truthy cmd then
               match includes_DANMU_MSG cmd with
               | inl e => Aborted (Raised e) w3
               | inr true =>
                   emit_guarded encoder heard c (VString "DANMU_MSG")
                     [AValue (data p)] w3
               | inr false =>
                   emit_guarded encoder heard c cmd [AValue (data p)] w3
               end
             else Finished w3
         end)
  else Finished w.
Proof.
  destruct p as [ty d]. unfold dispatch_guarded. cbn [type data].
  destruct (String.eqb_spec ty "welcome") as [->|H1].
  { change (String.eqb "welcome" "heartbeat") with false.
    change (String.eqb "welcome" "message") with false.
    by destruct (emit_guarded _ _ _ _ _ _). }
  cbn [and_then].
  destruct (String.eqb_spec ty "heartbeat") as [->|H2].
  { change (String.eqb "heartbeat" "message") with false.
    by destruct (emit_guarded _ _ _ _ _ _). }
  cbn [and_then]. reflexivity.
Qed.

Lemma plain_command p cmd :
  plain p = true → String.eqb (type p) "message" = true →
  command (data p) = inr cmd →
  names cmd "error" = false ∧ names cmd "_error" = false.
Proof.
  unfold plain. intros H Ht Hc. rewrite Ht, Hc in H. cbn [negb orb] in H.
  apply andb_true_iff in H as [H1 H2].
  by destruct (names cmd "error"), (names cmd "_error").
Qed.

Lemma dispatch_guarded_agrees c p w :
  (heard (Session c) = true ∧ heard Supervisor = true) ∨ plain p = true →
  dispatch_guarded encoder heard c p w = result_of (dispatch encoder c p w).
Proof.
  intros Hsafe. rewrite dispatch_guarded_cases, dispatch_cases.
  assert (∀ name args w,
            names name "error" = false → names name "_error" = false →
            emit_guarded encoder heard c name args w
            = Finished (emit encoder c name args w)) as Hplain.
  { intros. apply emit_guarded_agrees. by right. }
  destruct (String.eqb (type p) "welcome").
  { by rewrite Hplain. }
  destruct (String.eqb (type p) "heartbeat").
  { by rewrite Hplain. }
  destruct (String.eqb (type p) "message") eqn:Hm; [|done].
  rewrite dispatch_message. cbv zeta. rewrite Hplain by reflexivity.
  cbn [and_then].
  destruct (command (data p)) as [e|cmd] eqn:Hc; [done|].
  destruct (truthy cmd); [|done].
  destruct (includes_DANMU_MSG cmd) as [e|[|]]; [done| |].
  - by rewrite Hplain.
  - rewrite emit_guarded_agrees; [done|].
    destruct Hsafe as [H|H]; [by left|right].
    by apply (plain_command p).
Qed.

Lemma forEach_guarded_agrees c packs w :
  (heard (Session c) = true ∧ heard Supervisor = true)
  ∨ forallb plain packs = true →
  forEach_guarded encoder heard c packs w
  = result_of (forEach encoder c packs w).
Proof.
  revert w. induction packs as [|p packs IH]; intros w Hsafe; [done|].
  cbn [forEach_guarded forEach]. rewrite dispatch_guarded_agrees.
  - destruct (dispatch encoder c p w) as [w1|e w1]; cbn [result_of and_then];
      [|done].
    apply IH. destruct Hsafe as [H|H]; [by left|right].
    cbn [forallb] in H. by apply andb_true_iff in H as [_ H].
  - destruct Hsafe as [H|H]; [by left|right].
    cbn [forallb] in H. by apply andb_true_iff in H as [H _].
Qed.

(** *** What an emission can change, whoever listens *)

Section GuardedEmission.
Context (P : world → world → Prop) `{!Respected P}.

Lemma run_listeners_respects f w ls :
  (∀ w l, P w (world_after (f w l))) →
  P w (world_after (run_listeners f w ls)).
Proof.
  intros Hf. revert w.
  induction ls as [|l ls IH]; intros w; cbn [run_listeners].
  - apply respects_refl.
  - pose proof (Hf w l) as H. destruct (f w l) as [w1|e w1]; cbn [world_after] in *.
    + eapply respects_trans; [exact H|apply IH].
    + exact H.
Qed.

Lemma emit_with_guarded_respects nested c name args w :
  (∀ args w, P w (world_after (nested args w))) →
  P w (world_after (emit_with_guarded encoder heard nested c name args w)).
Proof.
  intros Hn. unfold emit_with_guarded. cbv zeta.
  destruct (unheard heard (Session c) name _); cbn [world_after].
  { apply respects_record. }
  eapply respects_trans; [apply (respects_record (Emit (Session c) name args))|].
  set (w1 := record (Emit (Session c) name args) w). clearbody w1.
  pose proof (run_listeners_respects
                (call_listener_guarded encoder nested c args) w1
                (filter (λ l, selected name l = true) (session_listeners c w1)))
    as H1.
  destruct (run_listeners _ w1 _) as [w2|e w2]; cbn [and_then world_after] in *.
  - eapply respects_trans.
    + apply H1. intros w' l. destruct l; cbn [call_listener_guarded world_after];
        try (apply (call_listener_respects encoder P); intros;
             apply respects_refl).
      eapply respects_trans; [apply (respects_record (Close c))|apply Hn].
    + apply run_listeners_respects. intros w' l. unfold relay_guarded.
      destruct (unheard heard Supervisor name []); apply respects_record.
  - apply H1. intros w' l. destruct l; cbn [call_listener_guarded world_after];
      try (apply (call_listener_respects encoder P); intros;
           apply respects_refl).
    eapply respects_trans; [apply (respects_record (Close c))|apply Hn].
Qed.

Lemma emit_guarded_respects c name args w :
  P w (world_after (emit_guarded encoder heard c name args w)).
Proof.
  apply emit_with_guarded_respects. intros args' w'.
  apply emit_with_guarded_respects. intros. apply respects_refl.
Qed.

End GuardedEmission.

(** *** Where an emission raises *)

Lemma run_listeners_aborted (Q : failure → Prop) f w ls e w' :
  (∀ w l e w', f w l = Aborted e w' → Q e) →
  run_listeners f w ls = Aborted e w' → Q e.
Proof.
  intros Hf. revert w. induction ls as [|l ls IH]; intros w; [done|].
  cbn [run_listeners]. destruct (f w l) as [w1|e1 w1] eqn:E.
  - apply IH.
  - intros [= <- <-]. by eapply Hf.
Qed.

Lemma unheard_silent who name ls :
  unheard heard who name ls = true → heard who = false.
Proof.
  unfold unheard. intros [[_ H]%andb_true_iff _]%andb_true_iff.
  by destruct (heard who).
Qed.

Lemma emit_with_guarded_aborted nested c name args w e w' :
  (∀ args w e w', nested args w = Aborted e w' → silent heard e) →
  emit_with_guarded encoder heard nested c name args w = Aborted e w' →
  silent heard e.
Proof.
  intros Hn. unfold emit_with_guarded. cbv zeta.
  destruct (unheard heard (Session c) name _) eqn:U.
  { intros [= <- <-]. exists (Session c), args. split; [done|].
    by apply unheard_silent in U. }
  destruct (run_listeners (call_listener_guarded encoder nested c args) _ _)
    as [w2|e2 w2] eqn:E; cbn [and_then].
  - apply run_listeners_aborted. intros w0 l e0 w0'. unfold relay_guarded.
    destruct (unheard heard Supervisor name []) eqn:U2; [|done].
    intros [= <- <-]. exists Supervisor, args. split; [done|].
    by apply unheard_silent in U2.
  - intros [= <- <-]. revert E. apply run_listeners_aborted.
    intros w0 l e0 w0'. destruct l; cbn [call_listener_guarded]; try done.
    apply Hn.
Qed.

Lemma emit_guarded_aborted c name args w e w' :
  emit_guarded encoder heard c name args w = Aborted e w' →
  silent heard e ∧ (names name "error" = true ∨ names name "_error" = true).
Proof.
  intros H. split.
  - revert H. apply emit_with_guarded_aborted. intros args' w0 e0 w0'.
    apply emit_with_guarded_aborted. done.
  - destruct (names name "error") eqn:E1; [by left|].
    destruct (names name "_error") eqn:E2; [by right|].
    rewrite emit_guarded_agrees in H by (by right). done.
Qed.

Lemma emit_guarded_online c name args w s :
  sessions w !! c = Some s →
  ∃ s', sessions (world_after (emit_guarded encoder heard c name args w)) !! c
        = Some s' ∧ Live.online s' = Live.online s.
Proof.
  intros Hs.
  destruct (steady_lookup w _ c s
              (emit_guarded_respects steady c name args w) Hs) as (s' & Hs' & Hf).
  exists s'. split; [exact Hs'|]. unfold frame in Hf. congruence.
Qed.

(** What one packet leaves in [online], and the ways the handler is
    left by an exception. *)
Lemma dispatch_guarded_online c p w s :
  sessions w !! c = Some s →
  (∃ s', sessions (world_after (dispatch_guarded encoder heard c p w)) !! c
         = Some s' ∧
         Live.online s'
         = if String.eqb (type p) "heartbeat" then data p else Live.online s) ∧
  (∀ e w', dispatch_guarded encoder heard c p w = Aborted e w' →
           type p = "message" ∧
           (e = Raised TypeError
            ∨ silent heard e ∧
              ∃ cmd, command (data p) = inr cmd ∧
                     (names cmd "error" = true ∨ names cmd "_error" = true))).
Proof.
  intros Hs. rewrite dispatch_guarded_cases.
  assert (∀ name args w,
            names name "error" = false → names name "_error" = false →
            emit_guarded encoder heard c name args w
            = Finished (emit encoder c name args w)) as Hplain.
  { intros. apply emit_guarded_agrees. by right. }
  destruct (String.eqb_spec (type p) "welcome") as [Hw|Hw].
  { rewrite Hw. change (String.eqb "welcome" "heartbeat") with false.
    rewrite Hplain by reflexivity. cbn [and_then world_after].
    split; [|done]. unfold send. cbn [record sessions].
    destruct (emit_online encoder c (VString "live") []
                (update_session c (set_live true) w) (set_live true s))
      as (s' & H1 & H2).
    { cbn [update_session set_sessions sessions].
      rewrite lookup_alter_eq, Hs. reflexivity. }
    exists s'. split; [exact H1|exact H2]. }
  destruct (String.eqb_spec (type p) "heartbeat") as [Hh|Hh].
  { rewrite Hplain by reflexivity. cbn [world_after]. split; [|done].
    destruct (beat_spec c (data p) w s Hs) as (Hb & _).
    destruct (emit_online encoder c (VString "heartbeat")
                [AValue (session_online c (beat c (data p) w))] _ _ Hb)
      as (s' & Hs' & Ho).
    exists s'. split; [exact Hs'|exact Ho]. }
  destruct (String.eqb_spec (type p) "message") as [Hm|Hm];
    [|split; [exists s; split; [exact Hs|reflexivity]|done]].
  rewrite Hplain by reflexivity. cbn [and_then].
  destruct (emit_online encoder c (VString "msg") [AValue (data p)] w s Hs)
    as (s3 & Hs3 & Ho3).
  set (w3 := emit encoder c (VString "msg") [AValue (data p)] w) in *.
  clearbody w3.
  assert (∃ s', sessions w3 !! c = Some s' ∧ Live.online s' = Live.online s)
    as Hhere by eauto.
  assert (∀ name, ∃ s',
            sessions (world_after
                        (emit_guarded encoder heard c name [AValue (data p)] w3))
            !! c = Some s' ∧ Live.online s' = Live.online s) as Hnext.
  { intros name.
    destruct (emit_guarded_online c name [AValue (data p)] w3 s3 Hs3)
      as (s' & H1 & H2).
    exists s'. split; [exact H1|congruence]. }
  destruct (command (data p)) as [e|cmd] eqn:Hc.
  - split; [exact Hhere|]. intros e' w' [= <- _]. split; [exact Hm|]. left.
    f_equal. by apply command_throws in Hc.
  - destruct (truthy cmd); [|split; [exact Hhere|done]].
    destruct (includes_DANMU_MSG cmd) as [e|[|]] eqn:Hi.
    + split; [exact Hhere|]. intros e' w' [= <- _]. split; [exact Hm|]. left.
      f_equal. by apply includes_throws in Hi.
    + split; [apply Hnext|]. by rewrite Hplain.
    + split; [apply Hnext|]. intros e' w' Ha. split; [exact Hm|]. right.
      apply emit_guarded_aborted in Ha as [Hsilent Hnames].
      split; [exact Hsilent|]. by exists cmd.
Qed.

End GuardedFacts.

(** X25: the listeners of the caller for [error] matter for the events
    named [error] and [_error] only. Let the caller have registered what
    listeners it will. An emission of a session under any other name, and
    the handling of a batch of packets none of which carries one of these
    two names as its command, run as they do for a caller who listens for
    [error] on the session and on the wrapper; and for such a caller every
    emission and every batch runs to its end or raises what the handler
    itself raises. *)
Theorem caller_matters_for_error_only
    (encoder : operation → list byte) (heard : emitter → bool) (c : nat) :
  (∀ name args w,
     (heard (Session c) = true ∧ heard Supervisor = true)
     ∨ (names name "error" = false ∧ names name "_error" = false) →
     emit_guarded encoder heard c name args w
     = Finished (emit encoder c name args w)) ∧
  (∀ packs w,
     (heard (Session c) = true ∧ heard Supervisor = true)
     ∨ forallb plain packs = true →
     forEach_guarded encoder heard c packs w
     = result_of (forEach encoder c packs w)).
Proof.
  split.
  - intros name args w Hsafe. by apply emit_guarded_agrees.
  - intros packs w Hsafe. by apply forEach_guarded_agrees.
Qed.

Lemma caller_matters_for_error_only_witness :
  emit_guarded demo_encoder (λ _, false) 0 (VString "close") [] demo_keep
  = Finished (emit demo_encoder 0 (VString "close") [] demo_keep) ∧
  forEach_guarded demo_encoder (λ _, true) 0
    [ {| type := "message"; data := VObject [("cmd", VString "error")] |} ]
    demo_keep
  = result_of
      (forEach demo_encoder 0
         [ {| type := "message"; data := VObject [("cmd", VString "error")] |} ]
         demo_keep).
Proof.
  split.
  - apply (proj1 (caller_matters_for_error_only demo_encoder (λ _, false) 0)).
    right. split; reflexivity.
  - apply (proj2 (caller_matters_for_error_only demo_encoder (λ _, true) 0)).
    left. split; reflexivity.
Defined.

Section UnheardError.
Variable encoder : operation → list byte.
Variable heard : emitter → bool.

Lemma unheard_other who name ls :
  is_error name = false → unheard heard who name ls = false.
Proof. unfold unheard. by intros ->. Qed.

Lemma selected_listeners name s :
  (∀ l, selected name l = true → is_once l = false) →
  filter (λ l, selected name l = true) (Live.listeners s)
  = filter (λ l, selected name l = true) (standing (Live.listeners s)).
Proof. intros H. symmetry. by apply (filter_standing (selected name)). Qed.

(** [this.emit('error', ...)] inside the ['_error'] handler of a session
    alone, when the caller does not listen on the session. *)
Lemma emit_error_guarded_alone c args w s :
  sessions w !! c = Some s →
  standing (Live.listeners s) = Live_listeners →
  heard (Session c) = false →
  emit_error_guarded encoder heard c args w
  = Aborted (Unhandled (Session c) args)
      (record (Emit (Session c) (VString "error") args) w).
Proof.
  intros Hs Hst Hh. unfold emit_error_guarded, emit_with_guarded. cbv zeta.
  change (session_listeners c (record (Emit (Session c) (VString "error") args) w))
    with (session_listeners c w).
  rewrite (session_listeners_lookup _ _ _ Hs).
  unfold unheard.
  rewrite (selected_listeners _ s selected_error_standing), Hst, Hh.
  reflexivity.
Qed.

(** The same under a wrapper, when the caller does not listen on the
    wrapper. *)
Lemma emit_error_guarded_wrapped c args w s :
  sessions w !! c = Some s →
  standing (Live.listeners s) = Live_listeners ++ Keep_listeners →
  heard Supervisor = false →
  emit_error_guarded encoder heard c args w
  = Aborted (Unhandled Supervisor args)
      (records [ Emit (Session c) (VString "error") args;
                 Emit Supervisor (VString "e") [first_arg args];
                 Emit Supervisor (VString "error") args ] w).
Proof.
  intros Hs Hst Hh. unfold emit_error_guarded, emit_with_guarded. cbv zeta.
  change (session_listeners c (record (Emit (Session c) (VString "error") args) w))
    with (session_listeners c w).
  rewrite (session_listeners_lookup _ _ _ Hs).
  unfold unheard at 1.
  rewrite (selected_listeners _ s selected_error_standing), Hst.
  replace (filter (λ l, selected (VString "error") l = true)
             (Live_listeners ++ Keep_listeners)) with [KeepError]
    by reflexivity.
  rewrite andb_false_r.
  cbn [run_listeners call_listener_guarded and_then].
  unfold call_listener. cbn [is_once run_listener].
  change (session_listeners c
            (record (Emit Supervisor (VString "e") [first_arg args])
               (record (Emit (Session c) (VString "error") args) w)))
    with (session_listeners c w).
  rewrite (session_listeners_lookup _ _ _ Hs).
  rewrite <- (filter_standing on_relay (Live.listeners s) on_relay_not_once), Hst.
  replace (filter (λ l, on_relay l = true) (Live_listeners ++ Keep_listeners))
    with [KeepRelay] by reflexivity.
  cbn [run_listeners]. unfold relay_guarded, unheard. rewrite Hh.
  reflexivity.
Qed.

End UnheardError.

(** X26: an error of the transport that nobody hears leaves the handler
    by an exception. The session closes its transport and emits [error].
    On a session alone, when the caller has no listener for [error] on it,
    this emission raises. Under a wrapper the wrapper emits [e] and then
    [error]; when the caller has no listener for [error] on the wrapper,
    this last emission raises, and the [_error] event of the session is
    not passed on. *)
Theorem unheard_error_raises
    (encoder : operation → list byte) (heard : emitter → bool)
    (c : nat) (s : Live.t) (w : world) (cause : string) :
  sessions w !! c = Some s →
  (standing (Live.listeners s) = Live_listeners →
   heard (Session c) = false →
   ∃ w',
     emit_guarded encoder heard c (VString "_error") [AError cause] w
     = Aborted (Unhandled (Session c) [AError cause]) w' ∧
     log w' = log w
              ++ [ Emit (Session c) (VString "_error") [AError cause];
                   Close c;
                   Emit (Session c) (VString "error") [AError cause] ]) ∧
  (standing (Live.listeners s) = Live_listeners ++ Keep_listeners →
   heard Supervisor = false →
   ∃ w',
     emit_guarded encoder heard c (VString "_error") [AError cause] w
     = Aborted (Unhandled Supervisor [AError cause]) w' ∧
     log w' = log w
              ++ [ Emit (Session c) (VString "_error") [AError cause];
                   Close c;
                   Emit (Session c) (VString "error") [AError cause];
                   Emit Supervisor (VString "e") [AError cause];
                   Emit Supervisor (VString "error") [AError cause] ]).
Proof.
  intros Hs.
  assert (∀ ls,
            standing (Live.listeners s) = ls →
            filter (λ l, selected (VString "_error") l = true) ls = [Live_error] →
            emit_guarded encoder heard c (VString "_error") [AError cause] w
            = and_then
                (and_then
                   (emit_error_guarded encoder heard c [AError cause]
                      (close c (record (Emit (Session c) (VString "_error")
                                          [AError cause]) w)))
                   Finished)
                (λ w2,
                   run_listeners
                     (relay_guarded heard (VString "_error") [AError cause]) w2
                     (filter (λ l, on_relay l = true) (session_listeners c w2))))
    as Hshape.
  { intros ls Hst Hsel. unfold emit_guarded, emit_with_guarded. cbv zeta.
    rewrite unheard_other by reflexivity.
    change (session_listeners c (record (Emit (Session c) (VString "_error")
                                           [AError cause]) w))
      with (session_listeners c w).
    rewrite (session_listeners_lookup _ _ _ Hs).
    rewrite (selected_listeners _ s selected__error_standing), Hst, Hsel.
    cbn [run_listeners call_listener_guarded].
    by destruct (emit_error_guarded _ _ _ _ _). }
  assert (sessions (close c (record (Emit (Session c) (VString "_error")
                                       [AError cause]) w)) !! c = Some s)
    as Hs' by exact Hs.
  split; intros Hst Hh.
  - rewrite (Hshape _ Hst eq_refl).
    rewrite (emit_error_guarded_alone encoder heard c _ _ s Hs' Hst Hh).
    cbn [and_then]. eexists. split; [reflexivity|].
    unfold close. cbn [record log]. rewrite <- !app_assoc. reflexivity.
  - rewrite (Hshape _ Hst eq_refl).
    rewrite (emit_error_guarded_wrapped encoder heard c _ _ s Hs' Hst Hh).
    cbn [and_then]. eexists. split; [reflexivity|].
    unfold close, records. cbn [foldl record log first_arg].
    rewrite <- !app_assoc. reflexivity.
Qed.

Lemma unheard_error_raises_witness :
  (∃ w',
     emit_guarded demo_encoder (λ _, false) 0 (VString "_error")
       [AError "ECONNRESET"] demo_session
     = Aborted (Unhandled (Session 0) [AError "ECONNRESET"]) w' ∧
     log w' = log demo_session
              ++ [ Emit (Session 0) (VString "_error") [AError "ECONNRESET"];
                   Close 0;
                   Emit (Session 0) (VString "error") [AError "ECONNRESET"] ]) ∧
  (∃ w',
     emit_guarded demo_encoder (λ _, false) 0 (VString "_error")
       [AError "ECONNRESET"] demo_keep
     = Aborted (Unhandled Supervisor [AError "ECONNRESET"]) w' ∧
     log w' = log demo_keep
              ++ [ Emit (Session 0) (VString "_error") [AError "ECONNRESET"];
                   Close 0;
                   Emit (Session 0) (VString "error") [AError "ECONNRESET"];
                   Emit Supervisor (VString "e") [AError "ECONNRESET"];
                   Emit Supervisor (VString "error") [AError "ECONNRESET"] ]).
Proof.
  split.
  - eapply (proj1 (unheard_error_raises demo_encoder (λ _, false) 0 _
                     demo_session "ECONNRESET" eq_refl)).
    + reflexivity.
    + reflexivity.
  - eapply (proj2 (unheard_error_raises demo_encoder (λ _, false) 0 _
                     demo_keep "ECONNRESET" eq_refl)).
    + reflexivity.
    + reflexivity.
Defined.

(** X27: what a batch of decoded packets leaves in [online], whatever
    the caller listens to. When the handler runs to its end, [online]
    holds the data of the last heartbeat packet of the batch, and what it
    held before when the batch has none. The handler is left by an
    exception only at a message packet: by a [TypeError] of its own, or,
    when the command of the packet is [error] or [_error], by the
    exception that Node raises for an [error] event on an emitter where the
    caller does not listen. The packets after that one are dropped, and
    [online] holds what the packets before it left. *)
Theorem batch_under_any_caller
    (encoder : operation → list byte) (heard : emitter → bool)
    (c : nat) (packs : list pack) (w : world) (s : Live.t) :
  sessions w !! c = Some s →
  match forEach_guarded encoder heard c packs w with
  | Finished w' =>
      Live.online <$> sessions w' !! c
      = Some (last_count packs (Live.online s))
  | Aborted e w' =>
      ∃ before p after,
        packs = before ++ p :: after ∧ type p = "message" ∧
        Live.online <$> sessions w' !! c
        = Some (last_count before (Live.online s)) ∧
        (e = Raised TypeError
         ∨ silent heard e ∧
           ∃ cmd, command (data p) = inr cmd ∧
                  (names cmd "error" = true ∨ names cmd "_error" = true))
  end.
Proof.
  revert w s. induction packs as [|p packs IH]; intros w s Hs.
  - cbn [forEach_guarded last_count foldl]. by rewrite Hs.
  - cbn [forEach_guarded].
    destruct (dispatch_guarded_online encoder heard c p w s Hs)
      as [(s1 & Hs1 & Ho1) Hthrow].
    destruct (dispatch_guarded encoder heard c p w) as [w1|e w1] eqn:Hd;
      cbn [world_after and_then] in *.
    + specialize (IH w1 s1 Hs1). rewrite Ho1 in IH.
      destruct (forEach_guarded encoder heard c packs w1) as [w'|e w'].
      * exact IH.
      * destruct IH as (before & q & after & -> & Hq & Ho & He).
        exists (p :: before), q, after.
        split; [reflexivity|]. split; [exact Hq|]. split; [exact Ho|exact He].
    + destruct (Hthrow e w1 eq_refl) as [Hp He].
      exists [], p, packs. split; [reflexivity|]. split; [exact Hp|].
      split; [|exact He].
      rewrite Hs1. cbn. rewrite Ho1, Hp. reflexivity.
Qed.

Lemma batch_under_any_caller_witness :
  is_Some (sessions demo_keep !! 0) ∧
  ∃ w',
    forEach_guarded demo_encoder (λ _, false) 0
      [ {| type := "heartbeat"; data := VNumber (number_of_Z 3) |};
        {| type := "message"; data := VObject [("cmd", VString "error")] |};
        {| type := "heartbeat"; data := VNumber (number_of_Z 4) |} ] demo_keep
    = Aborted (Unhandled Supervisor
                 [AValue (VObject [("cmd", VString "error")])]) w' ∧
    Live.online <$> sessions w' !! 0 = Some (VNumber (number_of_Z 3)).
Proof.
  assert (sessions demo_keep !! 0
          = Some (Live.mk room_1 (VNumber (S754_zero false)) false None
                    (Live_listeners ++ Keep_listeners)
                    (LiveWS default_address))) as Hs by reflexivity.
  split; [by rewrite Hs|].
  pose proof (batch_under_any_caller demo_encoder (λ _, false) 0
                [ {| type := "heartbeat"; data := VNumber (number_of_Z 3) |};
                  {| type := "message";
                     data := VObject [("cmd", VString "error")] |};
                  {| type := "heartbeat"; data := VNumber (number_of_Z 4) |} ]
                demo_keep _ Hs) as H.
  destruct (forEach_guarded _ _ _ _ _) as [w'|e w'] eqn:E.
  - exfalso. vm_compute in E. discriminate.
  - exists w'. vm_compute in E. injection E as <- <-.
    split; [reflexivity|]. vm_compute. reflexivity.
Defined.
